(** * Offline task list on expo-sqlite / libSQL: the data layer of [App.tsx]

    A shallow embedding of the database operations, the schema migration,
    the sync trigger and the view refresh of [src/App.tsx], with the
    properties of the specification proved about them.

    The SQLite engine and the libSQL replication primitive are libraries the
    program calls; they are modelled in [Module Sqlite] and through an
    environment [Env] that decides what the program cannot: which store call
    hits an I/O error, what a sync brings back (or that it fails), and which
    candidates the engine draws when it has to pick a row id at random. *)

From Stdlib Require Import ZArith String List Bool Lia Sorted Arith.
Import ListNotations.
Local Open Scope Z_scope.

(** ** Data model *)

(** [interface ItemEntity { id: number; done: boolean; value: string }].
    The column [done INT] holds 0 or 1; expo-sqlite binds the JS booleans
    [false] and [true] to those integers, so the flag is kept as a [bool].
    An [id] is the integer the engine stores. JavaScript reads it back as a
    number, which is that integer exactly as long as it lies within
    [MAX_SAFE_INTEGER]; statements about ids once read (the React keys) ask
    for that bound. *)
Record ItemEntity := mkItem { id : Z; done : bool; value : string }.

(** The local database file: the header field read and written by
    [PRAGMA user_version], and the table [items], absent until it is created.
    A table is kept the way its b-tree keeps it, as the list of its rows in
    ascending [id]. *)
Record SQLiteDatabase := mkDb {
  user_version : Z;
  items : option (list ItemEntity)
}.

(** ** The SQL engine, for the statements the program issues *)

Module Sqlite.

Inductive SQLiteError :=
| IoError        (* the call failed below SQL: disk, lock, closed handle *)
| NoSuchTable    (* no such table: items *)
| DatabaseFull   (* SQLITE_FULL: no free row id was found *)
| SyncFailed     (* the replication primitive reported failure *)
| TypeError.     (* destructuring a missing row *)

(** The statements of [App.tsx], one constructor per SQL text, with the
    bound parameters as arguments. *)
Inductive Stmt :=
| PragmaUserVersion                     (* PRAGMA user_version *)
| PragmaSetUserVersion (v : Z)          (* PRAGMA user_version = ${v} *)
| CreateTableItems                      (* CREATE TABLE IF NOT EXISTS items (id INTEGER PRIMARY KEY NOT NULL, done INT, value TEXT); *)
| InsertItem (d : bool) (v : string)    (* INSERT INTO items (done, value) VALUES (?, ?); *)
| UpdateDone (d : bool) (i : Z)         (* UPDATE items SET done = ? WHERE id = ?; *)
| DeleteItem (i : Z)                    (* DELETE FROM items WHERE id = ?; *)
| SelectByDone (d : bool).              (* SELECT * FROM items WHERE done = ? *)

Inductive Row :=
| RowVersion (v : Z)
| RowItem (r : ItemEntity).


Definition MAX_ROWID : Z := 9223372036854775807.
Definition MIN_ROWID : Z := - 9223372036854775808.

Fixpoint max_rowid (rows : list ItemEntity) : option Z :=
  match rows with
  | [] => None
  | r :: rs =>
      match max_rowid rs with
      | None => Some (id r)
      | Some m => Some (Z.max (id r) m)
      end
  end.

Definition rowid_used (k : Z) (rows : list ItemEntity) : bool :=
  existsb (fun r => id r =? k) rows.

(** When the largest row id is taken the engine draws positive candidates
    at random, [v &= (MAX_ROWID>>1); v++], and gives up after a hundred
    that are all in use. [cand] is the source of randomness. *)
Fixpoint random_rowid (cand : nat -> Z) (rows : list ItemEntity)
         (attempts k : nat) : option Z :=
  match attempts with
  | O => None
  | S a =>
      let v := Z.land (cand k) (Z.shiftr MAX_ROWID 1) + 1 in
      if rowid_used v rows then random_rowid cand rows a (S k) else Some v
  end.

(** The row id of a row inserted without one: 1 in an empty table, one more
    than the largest otherwise. *)
Definition new_rowid (cand : nat -> Z) (rows : list ItemEntity) : option Z :=
  match max_rowid rows with
  | None => Some 1
  | Some m =>
      if m <? MAX_ROWID then Some (m + 1)
      else random_rowid cand rows 100 0
  end.

Fixpoint insert_row (r : ItemEntity) (rows : list ItemEntity) : list ItemEntity :=
  match rows with
  | [] => [r]
  | x :: xs => if id r <? id x then r :: x :: xs else x :: insert_row r xs
  end.

Definition select_by_done (d : bool) (rows : list ItemEntity) : list ItemEntity :=
  filter (fun r => Bool.eqb (done r) d) rows.

Definition update_done (d : bool) (i : Z) (rows : list ItemEntity) : list ItemEntity :=
  map (fun r => if id r =? i then mkItem (id r) d (value r) else r) rows.

Definition delete_row (i : Z) (rows : list ItemEntity) : list ItemEntity :=
  filter (fun r => negb (id r =? i)) rows.

Definition on_items (d : SQLiteDatabase)
           (f : list ItemEntity -> SQLiteError + (list ItemEntity * list Row))
  : SQLiteError + (SQLiteDatabase * list Row) :=
  match items d with
  | None => inl NoSuchTable
  | Some rows =>
      match f rows with
      | inl e => inl e
      | inr (rows', out) => inr (mkDb (user_version d) (Some rows'), out)
      end
  end.

(** One statement against the database: an error and no change, or the
    new database and the rows returned. *)
Definition run_stmt (cand : nat -> Z) (s : Stmt) (d : SQLiteDatabase)
  : SQLiteError + (SQLiteDatabase * list Row) :=
  match s with
  | PragmaUserVersion => inr (d, [RowVersion (user_version d)])
  | PragmaSetUserVersion v => inr (mkDb v (items d), [])
  | CreateTableItems =>
      match items d with
      | Some _ => inr (d, [])
      | None => inr (mkDb (user_version d) (Some []), [])
      end
  | InsertItem dn v =>
      on_items d (fun rows =>
        match new_rowid cand rows with
        | None => inl DatabaseFull
        | Some k => inr (insert_row (mkItem k dn v) rows, [])
        end)
  | UpdateDone dn i => on_items d (fun rows => inr (update_done dn i rows, []))
  | DeleteItem i => on_items d (fun rows => inr (delete_row i rows, []))
  | SelectByDone dn => on_items d (fun rows => inr (rows, map RowItem (select_by_done dn rows)))
  end.

(** The invariant of a row-id table: ids strictly ascending (so unique) and
    within the signed 64-bit range. *)
Definition id_lt (a b : ItemEntity) : Prop := id a < id b.

Definition wf_table (rows : list ItemEntity) : Prop :=
  StronglySorted id_lt rows /\
  Forall (fun r => MIN_ROWID <= id r <= MAX_ROWID) rows.

(** The same invariant, as a check that runs. *)
Fixpoint ascending_from (lo : Z) (rows : list ItemEntity) : bool :=
  match rows with
  | [] => true
  | r :: rs => (lo <? id r) && ascending_from (id r) rs
  end.

Definition wf_tableb (rows : list ItemEntity) : bool :=
  match rows with
  | [] => true
  | r :: rs => ascending_from (id r) rs
  end &&
  forallb (fun r => (MIN_ROWID <=? id r) && (id r <=? MAX_ROWID)) rows.

Definition count_id (i : Z) (rows : list ItemEntity) : nat :=
  length (filter (fun r => id r =? i) rows).

End Sqlite.
Import Sqlite.

(** ** The world the program runs in *)

(** What the program observes of its libraries, in call order. The flag says
    whether the call succeeded. *)
Inductive Event :=
| EvSyncLibSQL (ok : bool)        (* db.syncLibSQL() *)
| EvStmt (s : Stmt) (ok : bool)   (* runAsync / execAsync / getFirstAsync / getAllAsync *)
| EvBegin | EvCommit | EvRollback (* db.withTransactionAsync *)
| EvRefetchItems.                 (* refetchItems() was called *)

(** The environment: everything outside the program's control, indexed by
    the length of the trace when the call is made.
    - [io_fault n]: the [n]-th call, a statement, fails with an I/O error;
    - [remote n d]: the [n]-th call, a sync of the local database [d],
      fails ([None]) or leaves the database it returns;
    - [rowid_rand n]: the random candidates of the [n]-th call. *)
Record Env := mkEnv {
  io_fault : nat -> bool;
  remote : nat -> SQLiteDatabase -> option SQLiteDatabase;
  rowid_rand : nat -> nat -> Z
}.

(** The database handle, the React state of [Main] ([useState]), the
    interval timer of the polling effect, and what has been observed:
    the calls made and the rejections of promises nobody awaited. *)
Record World := mkWorld {
  db : SQLiteDatabase;
  text : string;
  todoItems : list ItemEntity;
  doneItems : list ItemEntity;
  enablePollingSync : bool;
  interval : option Z;     (* [Some e]: an interval is set, [e] ms since it last fired *)
  trace : list Event;
  unhandled : list SQLiteError
}.

Definition set_db (d : SQLiteDatabase) (w : World) : World :=
  mkWorld d (text w) (todoItems w) (doneItems w) (enablePollingSync w)
          (interval w) (trace w) (unhandled w).

Definition log (e : Event) (w : World) : World :=
  mkWorld (db w) (text w) (todoItems w) (doneItems w) (enablePollingSync w)
          (interval w) (trace w ++ [e]) (unhandled w).

Definition reject_unhandled (e : SQLiteError) (w : World) : World :=
  mkWorld (db w) (text w) (todoItems w) (doneItems w) (enablePollingSync w)
          (interval w) (trace w) (unhandled w ++ [e]).

(** ** Promises: a state and exception monad *)

Inductive Result (A : Type) :=
| Resolved (a : A)
| Rejected (e : SQLiteError).
Arguments Resolved {A} a.
Arguments Rejected {A} e.

Definition Async (A : Type) : Type := World -> Result A * World.

Definition ret {A} (a : A) : Async A := fun w => (Resolved a, w).

Definition throw {A} (e : SQLiteError) : Async A := fun w => (Rejected e, w).

(** [await m; k]: a rejection of [m] skips [k]. *)
Definition bind {A B} (m : Async A) (k : A -> Async B) : Async B :=
  fun w =>
    match m w with
    | (Resolved a, w') => k a w'
    | (Rejected e, w') => (Rejected e, w')
    end.

Declare Scope async_scope.
Delimit Scope async_scope with async.
Notation "x <- m ;; k" := (bind m (fun x => k))
  (at level 100, m at next level, right associativity) : async_scope.
Notation "m ;; k" := (bind m (fun _ => k))
  (at level 100, right associativity) : async_scope.
Local Open Scope async_scope.

(** A call whose promise is dropped ([p();] with no [await]): the caller
    goes on whatever the outcome, a rejection is nobody's to catch.
    Assumption of the model: the call is run to its end where it is made. The
    real call may settle later, after statements that follow it; what is
    stated below about a sync that changes the database is therefore stated
    of what the sync left, and what is stated of the reads that follow a
    sync asks for a sync that fails or brings nothing. *)
Definition detached {A} (p : Async A) : Async unit :=
  fun w =>
    match p w with
    | (Resolved _, w') => (Resolved tt, w')
    | (Rejected e, w') => (Resolved tt, reject_unhandled e w')
    end.

Definition is_resolved {A} (r : Result A) : bool :=
  match r with Resolved _ => true | Rejected _ => false end.

(** The events a run added to the trace. *)
Definition new_events (w w' : World) : list Event :=
  skipn (length (trace w)) (trace w').

Definition is_sync (e : Event) : bool :=
  match e with EvSyncLibSQL _ => true | _ => false end.

Definition is_refetch (e : Event) : bool :=
  match e with EvRefetchItems => true | _ => false end.


Definition is_write_event (e : Event) : bool :=
  match e with
  | EvStmt (PragmaSetUserVersion _) _ | EvStmt CreateTableItems _
  | EvStmt (InsertItem _ _) _ | EvStmt (UpdateDone _ _) _
  | EvStmt (DeleteItem _) _ => true
  | _ => false
  end.

Definition count (p : Event -> bool) (l : list Event) : nat :=
  length (filter p l).

(** ** What [Main] renders *)

(** An [<Item>]: whether [styles.itemDone] and [styles.itemTextDone] are
    applied, the text shown, and what a press runs. *)
Record ItemView := mkItemView {
  itemDone : bool;
  itemTextDone : bool;
  itemText : string;
  onPress : Async unit
}.

(** The elements of [Main] that carry state or behaviour: the "Sync Now"
    button, the auto-sync switch, the text input, and the two sections, each
    a list of items under their React [key]. *)
Record MainView := mkMainView {
  syncButton : Async unit;
  switchValue : bool;
  onValueChange : bool -> Async unit;
  inputValue : string;
  onChangeText : string -> Async unit;
  submitEditing : Async unit;
  pendingTasks : list (Z * ItemView);
  completedTasks : list (Z * ItemView)
}.

Section Program.

Variable env : Env.

(** ** The expo-sqlite handle *)

(** One statement sent to the engine. A failed statement changes nothing. *)
Definition statement (s : Stmt) : Async (list Row) :=
  fun w =>
    let n := length (trace w) in
    if io_fault env n then (Rejected IoError, log (EvStmt s false) w)
    else
      match run_stmt (rowid_rand env n) s (db w) with
      | inl e => (Rejected e, log (EvStmt s false) w)
      | inr (d', rows) => (Resolved rows, log (EvStmt s true) (set_db d' w))
      end.

Definition runAsync (s : Stmt) : Async unit :=
  _ <- statement s ;; ret tt.

Definition execAsync (s : Stmt) : Async unit :=
  _ <- statement s ;; ret tt.

Definition getFirstAsync (s : Stmt) : Async (option Row) :=
  rows <- statement s ;; ret (hd_error rows).

Definition item_rows (rows : list Row) : list ItemEntity :=
  flat_map (fun r => match r with RowItem i => [i] | RowVersion _ => [] end) rows.

(** [db.getAllAsync]: the rows read, as objects. Assumption of the model:
    an id comes back as the number the table holds, which is so for ids
    within [Number.MAX_SAFE_INTEGER]. *)
Definition getAllAsync (s : Stmt) : Async (list ItemEntity) :=
  rows <- statement s ;; ret (item_rows rows).

(** [db.syncLibSQL()]: the replication primitive, opaque: what it brings
    into the local database is the environment's to say. Assumptions of the
    model, on the library: the call itself returns (a build without libSQL,
    where it throws before returning a promise, is not covered), it fails by
    rejecting the promise it returns, and a failed sync leaves the local
    database as it was. *)
Definition syncLibSQL : Async unit :=
  fun w =>
    match remote env (length (trace w)) (db w) with
    | None => (Rejected SyncFailed, log (EvSyncLibSQL false) w)
    | Some d' => (Resolved tt, log (EvSyncLibSQL true) (set_db d' w))
    end.

(** [db.withTransactionAsync(task)]: commit when [task] resolves; when it
    rejects, roll the database back to where it was and rethrow. React state
    set by [task] is not part of the transaction. [BEGIN], [COMMIT] and
    [ROLLBACK] themselves are taken not to fail. *)
Definition withTransactionAsync {A} (task : Async A) : Async A :=
  fun w =>
    let w0 := log EvBegin w in
    match task w0 with
    | (Resolved a, w1) => (Resolved a, log EvCommit w1)
    | (Rejected e, w1) => (Rejected e, log EvRollback (set_db (db w0) w1))
    end.

(** ** [Main]: state setters *)

Definition setText (t : string) : Async unit :=
  fun w => (Resolved tt,
            mkWorld (db w) t (todoItems w) (doneItems w) (enablePollingSync w)
                    (interval w) (trace w) (unhandled w)).

Definition setTodoItems (l : list ItemEntity) : Async unit :=
  fun w => (Resolved tt,
            mkWorld (db w) (text w) l (doneItems w) (enablePollingSync w)
                    (interval w) (trace w) (unhandled w)).

Definition setDoneItems (l : list ItemEntity) : Async unit :=
  fun w => (Resolved tt,
            mkWorld (db w) (text w) (todoItems w) l (enablePollingSync w)
                    (interval w) (trace w) (unhandled w)).

Definition emit (e : Event) : Async unit :=
  fun w => (Resolved tt, log e w).

(** ** [Main]: [refetchItems] and [sync] *)

(** The inner [async function refetch()]. *)
Definition refetch : Async unit :=
  withTransactionAsync
    (todo <- getAllAsync (SelectByDone false) ;;
     setTodoItems todo ;;
     finished <- getAllAsync (SelectByDone true) ;;
     setDoneItems finished).

(** [refetchItems()]: calls [refetch()] and drops its promise. *)
Definition refetchItems : Async unit :=
  emit EvRefetchItems ;; detached refetch.

(** [sync(refetch)]: [db.syncLibSQL()] with its promise dropped, then the
    refresh if asked for. Through [detached] the refresh reads what the
    sync left; the real refresh may read before the sync lands, which is
    the same when the sync fails or brings nothing. *)
Definition sync (refetch : bool) : Async unit :=
  detached syncLibSQL ;;
  if refetch then refetchItems else ret tt.

(** ** Database operations *)

Definition addItemAsync (text : string) : Async unit :=
  if negb (String.eqb text EmptyString) then
    runAsync (InsertItem false text)
  else ret tt.

Definition updateItemAsDoneAsync (id : Z) : Async unit :=
  runAsync (UpdateDone true id).

Definition deleteItemAsync (id : Z) : Async unit :=
  runAsync (DeleteItem id).

Definition DATABASE_VERSION : Z := 1.

(** [migrateDbIfNeeded]. Through [detached] the version read is the one the
    sync call left; the real read may come before the sync lands and see the
    persisted version, which is the same when the sync fails or brings
    nothing. *)
Definition migrateDbIfNeeded : Async unit :=
  (* Always sync libSQL first to prevent conflicts between local and remote databases *)
  detached syncLibSQL ;;
  row <- getFirstAsync PragmaUserVersion ;;
  currentDbVersion <- match row with
                      | Some (RowVersion v) => ret v
                      | _ => throw TypeError
                      end ;;
  if currentDbVersion >=? DATABASE_VERSION then ret tt
  else
    _ <- (if currentDbVersion =? 0 then
            execAsync CreateTableItems ;; ret 1
          else ret currentDbVersion) ;;
    execAsync (PragmaSetUserVersion DATABASE_VERSION).

(** ** [Main]: event handlers, effects and the interval timer *)

(** [onSubmitEditing] of the text input. *)
Definition onSubmitEditing : Async unit :=
  fun w => (addItemAsync (text w) ;; refetchItems ;; setText EmptyString) w.

(** [onPressItem] of a pending item and of a completed one. *)
Definition onPressTodoItem (id : Z) : Async unit :=
  updateItemAsDoneAsync id ;; refetchItems.

Definition onPressDoneItem (id : Z) : Async unit :=
  deleteItemAsync id ;; refetchItems.

(** [useEffect(() => { refetchItems(); }, [])]. *)
Definition onMount : Async unit := refetchItems.

(** The callback handed to [setInterval]. *)
Definition tick : Async unit := sync true.

Definition POLL_MS : Z := 2000.

(** [setEnablePollingSync] with the effect that depends on the flag: on a
    change, the clean-up of the previous run clears its interval and, when
    the flag is now set, a new interval is started. *)
Definition setEnablePollingSync (b : bool) : Async unit :=
  fun w =>
    if Bool.eqb b (enablePollingSync w) then (Resolved tt, w)
    else (Resolved tt,
          mkWorld (db w) (text w) (todoItems w) (doneItems w) b
                  (if b then Some 0 else None) (trace w) (unhandled w)).

Fixpoint repeat_ticks (n : nat) : Async unit :=
  match n with
  | O => ret tt
  | S k => tick ;; repeat_ticks k
  end.

Definition set_interval (e : option Z) : Async unit :=
  fun w => (Resolved tt,
            mkWorld (db w) (text w) (todoItems w) (doneItems w)
                    (enablePollingSync w) e (trace w) (unhandled w)).

(** [ms] milliseconds go by with no user action: an interval that is set
    fires once every [POLL_MS]. *)
Definition elapse (ms : Z) : Async unit :=
  fun w =>
    match interval w with
    | None => (Resolved tt, w)
    | Some e =>
        (repeat_ticks (Z.to_nat ((e + ms) / POLL_MS)) ;;
         set_interval (Some ((e + ms) mod POLL_MS))) w
    end.

(** [App]: the provider runs [onInit] first and mounts [Main] only when it
    resolved. *)
Definition App : Async unit :=
  migrateDbIfNeeded ;; onMount.

(** [function Item({ item, onPressItem })]: a press runs
    [onPressItem && onPressItem(id)]. *)
Definition Item (item : ItemEntity) (onPressItem : option (Z -> Async unit)) : ItemView :=
  let (id, done, value) := item in
  mkItemView done done value
    (match onPressItem with
     | Some handler => handler id
     | None => ret tt
     end).

(** The render of [Main]. *)
Definition Main (w : World) : MainView :=
  mkMainView
    (sync true)
    (enablePollingSync w)
    setEnablePollingSync
    (text w)
    setText
    onSubmitEditing
    (map (fun item => (id item, Item item (Some onPressTodoItem))) (todoItems w))
    (map (fun item => (id item, Item item (Some onPressDoneItem))) (doneItems w)).

(** The user types each text in turn and submits it. *)
Fixpoint submit_all (texts : list string) : Async unit :=
  match texts with
  | [] => ret tt
  | t :: rest => setText t ;; onSubmitEditing ;; submit_all rest
  end.

End Program.

(** A store freshly opened, nothing rendered yet. *)
Definition fresh_world (d : SQLiteDatabase) : World :=
  mkWorld d EmptyString [] [] false None [] [].

(** An environment in which nothing goes wrong and the remote has nothing
    new, and one whose every sync fails. *)
Definition quiet_env : Env :=
  mkEnv (fun _ => false) (fun _ d => Some d) (fun _ _ => 0).

Definition offline_env : Env :=
  mkEnv (fun _ => false) (fun _ _ => None) (fun _ _ => 0).

(** ** Vocabulary of the statements below *)

(** The table of a database is a well-formed row-id table, if it is there. *)
Definition wf_db (d : SQLiteDatabase) : Prop :=
  match items d with
  | Some rows => wf_table rows
  | None => True
  end.

(** Same React state and timer; the database and the logs may differ. *)
Definition same_ui (w w' : World) : Prop :=
  text w' = text w /\ todoItems w' = todoItems w /\ doneItems w' = doneItems w /\
  enablePollingSync w' = enablePollingSync w /\ interval w' = interval w.

(** Events that are neither a sync call, nor a refresh request, nor a
    statement that writes. *)
Definition quiet_events (l : list Event) : Prop :=
  count is_sync l = 0%nat /\ count is_refetch l = 0%nat /\
  count is_write_event l = 0%nat.

(** The rows of the table other than those of id [i], in table order. *)
Definition others (i : Z) (d : SQLiteDatabase) : option (list ItemEntity) :=
  option_map (delete_row i) (items d).

Definition id_free (k : Z) (d : SQLiteDatabase) : Prop :=
  match items d with
  | Some rows => ~ In k (map id rows)
  | None => True
  end.

Definition spare_rowid (rows : list ItemEntity) : Z :=
  match max_rowid rows with
  | None => 0
  | Some m => m + 1
  end.

(** [CREATE TABLE IF NOT EXISTS items] on a database. *)
Definition with_items_table (d : SQLiteDatabase) : SQLiteDatabase :=
  match items d with
  | Some _ => d
  | None => mkDb (user_version d) (Some [])
  end.

(** [Number.MAX_SAFE_INTEGER]: up to it a JS number holds an integer
    exactly. *)
Definition MAX_SAFE_INTEGER : Z := 9007199254740991.

Definition safe_ids (rows : list ItemEntity) : Prop :=
  Forall (fun r => - MAX_SAFE_INTEGER <= id r <= MAX_SAFE_INTEGER) rows.

(** The events of the transaction of one refresh, given whether the first
    and the second [SELECT] succeeded: the second is sent only after the
    first succeeded, and the transaction commits only if both did. *)
Definition refresh_events (first second : bool) : list Event :=
  EvBegin :: EvStmt (SelectByDone false) first ::
  (if first then
     [EvStmt (SelectByDone true) second; if second then EvCommit else EvRollback]
   else [EvRollback]).

(** The events of [n] ticks in a row: each one its sync call, then its
    refresh request, then the transaction of that refresh, and only then the
    next tick. *)
Inductive tick_rounds : nat -> list Event -> Prop :=
| rounds_done : tick_rounds 0 []
| rounds_tick n ok first second evs :
    tick_rounds n evs ->
    tick_rounds (S n)
      (EvSyncLibSQL ok :: EvRefetchItems :: refresh_events first second ++ evs).

(** The sync at this call fails or brings nothing. *)
Definition sync_brings_nothing (env : Env) (w : World) : Prop :=
  remote env (length (trace w)) (db w) = None \/
  remote env (length (trace w)) (db w) = Some (db w).

(** No statement ever meets an I/O error. *)
Definition no_io_fault (env : Env) : Prop := forall k, io_fault env k = false.

(** The two lists of [Main] are the two partitions of the table [rows]. *)
Definition shows (rows : list ItemEntity) (w : World) : Prop :=
  todoItems w = select_by_done false rows /\
  doneItems w = select_by_done true rows.

(** The row [r] is in the table of [d]. *)
Definition has_row (r : ItemEntity) (d : SQLiteDatabase) : Prop :=
  match items d with
  | Some rows => In r rows
  | None => False
  end.

(** The React keys of a rendered section. *)
Definition keys (section : list (Z * ItemView)) : list Z := map fst section.

(** The id the engine gives the next row while ids are below [MAX_ROWID]. *)
Definition next_rowid (rows : list ItemEntity) : Z :=
  match max_rowid rows with
  | None => 1
  | Some m => m + 1
  end.

(** The rows [addItemAsync] creates for [texts], from the id [k] on. *)
Fixpoint fresh_rows (k : Z) (texts : list string) : list ItemEntity :=
  match texts with
  | [] => []
  | t :: rest => mkItem k false t :: fresh_rows (k + 1) rest
  end.

(** ** Sample inputs *)

Definition demo_rows : list ItemEntity :=
  [mkItem 1 false "milk"; mkItem 2 true "bread"; mkItem 5 false "eggs"].

Definition demo_world : World :=
  fresh_world (mkDb 1 (Some demo_rows)).

(** The third library call, the [CREATE TABLE] of a first start, fails. *)
Definition create_fails_env : Env :=
  mkEnv (fun n => Nat.eqb n 2) (fun _ d => Some d) (fun _ _ => 0).


(** The three tasks with auto-sync switched on. *)
Definition polling_world : World :=
  mkWorld (mkDb 1 (Some demo_rows)) EmptyString [] [] true (Some 0) [] [].

(** The first library call fails. *)
Definition first_call_fails_env : Env :=
  mkEnv (fun n => Nat.eqb n 0) (fun _ d => Some d) (fun _ _ => 0).

(** The fourth library call, the second read of a refresh, fails. *)
Definition second_read_fails_env : Env :=
  mkEnv (fun n => Nat.eqb n 3) (fun _ d => Some d) (fun _ _ => 0).

(** A remote that has one task of its own. *)
Definition remote_db : SQLiteDatabase :=
  mkDb 1 (Some [mkItem 9 false "remote"]).

Definition pulling_env : Env :=
  mkEnv (fun _ => false) (fun _ _ => Some remote_db) (fun _ _ => 0).

(** "tea" typed into the input field, over the three tasks. *)
Definition typing_world : World :=
  mkWorld (mkDb 1 (Some demo_rows)) "tea" [] [] false None [] [].

(** The three tasks, shown. *)
Definition shown_world : World :=
  mkWorld (mkDb 1 (Some demo_rows)) EmptyString
          [mkItem 1 false "milk"; mkItem 5 false "eggs"] [mkItem 2 true "bread"]
          false None [] [].

(** * Properties *)

Ltac inv_pair :=
  repeat match goal with
  | H : (_, _) = (_, _) |- _ => injection H as ? ?; subst
  end.

(** ** The engine: row ids and tables *)

Lemma max_rowid_none rows : max_rowid rows = None -> rows = [].
Proof.
  destruct rows as [|r rs]; simpl; [reflexivity|].
  destruct (max_rowid rs); discriminate.
Qed.

Lemma max_rowid_upper rows m :
  max_rowid rows = Some m -> Forall (fun r => id r <= m) rows.
Proof.
  revert m; induction rows as [|r rs IH]; simpl; intros m H; [constructor|].
  destruct (max_rowid rs) as [m'|] eqn:E.
  - injection H as <-. constructor; [lia|].
    eapply Forall_impl; [|apply (IH m' eq_refl)].
    simpl; intros; lia.
  - injection H as <-. apply max_rowid_none in E; subst.
    constructor; [lia|constructor].
Qed.

Lemma rowid_used_false k rows :
  rowid_used k rows = false <-> ~ In k (map id rows).
Proof.
  unfold rowid_used; induction rows as [|r rs IH]; simpl.
  - split; [intros _ []|reflexivity].
  - rewrite orb_false_iff, IH, Z.eqb_neq. tauto.
Qed.

Lemma random_rowid_fresh cand rows a k v :
  random_rowid cand rows a k = Some v -> rowid_used v rows = false.
Proof.
  revert k; induction a as [|a IH]; simpl; intros k H; [discriminate|].
  destruct (rowid_used (Z.land _ _ + 1) rows) eqn:E.
  - eapply IH; eassumption.
  - injection H as <-. exact E.
Qed.

(** A row id handed out is not in use. *)
Lemma new_rowid_fresh cand rows k :
  new_rowid cand rows = Some k -> ~ In k (map id rows).
Proof.
  unfold new_rowid; intros H.
  destruct (max_rowid rows) as [m|] eqn:E.
  - destruct (m <? MAX_ROWID) eqn:L.
    + injection H as <-. apply max_rowid_upper in E.
      intros Hin. apply in_map_iff in Hin as (r & Hr & Hin).
      rewrite Forall_forall in E. specialize (E r Hin). lia.
    + apply rowid_used_false. eapply random_rowid_fresh; eassumption.
  - apply max_rowid_none in E; subst. intros [].
Qed.

(** Below [MAX_ROWID] the new id is above every id of the table. *)
Lemma new_rowid_above cand rows k :
  (forall m, max_rowid rows = Some m -> m < MAX_ROWID) ->
  new_rowid cand rows = Some k ->
  Forall (fun r => id r < k) rows.
Proof.
  unfold new_rowid; intros Hm H.
  destruct (max_rowid rows) as [m|] eqn:E.
  - specialize (Hm m eq_refl). apply Z.ltb_lt in Hm. rewrite Hm in H.
    injection H as <-. apply max_rowid_upper in E.
    eapply Forall_impl; [|exact E]. simpl; intros; lia.
  - apply max_rowid_none in E; subst. constructor.
Qed.

Lemma insert_row_In r rows x :
  In x (insert_row r rows) <-> x = r \/ In x rows.
Proof.
  induction rows as [|y ys IH]; simpl.
  - split; [intros [<-|[]]; auto | intros [->|[]]; auto].
  - destruct (id r <? id y); simpl; [|rewrite IH]; intuition congruence.
Qed.

Lemma insert_row_last r rows :
  Forall (fun x => id x < id r) rows -> insert_row r rows = rows ++ [r].
Proof.
  induction 1 as [|y ys Hy _ IH]; simpl; [reflexivity|].
  destruct (id r <? id y) eqn:E; [apply Z.ltb_lt in E; lia|].
  now rewrite IH.
Qed.

Lemma insert_row_split r rows :
  exists l1 l2, rows = l1 ++ l2 /\ insert_row r rows = l1 ++ r :: l2.
Proof.
  induction rows as [|y ys (l1 & l2 & E1 & E2)]; simpl.
  - exists [], []; auto.
  - destruct (id r <? id y).
    + exists [], (y :: ys); auto.
    + exists (y :: l1), l2; simpl; split; congruence.
Qed.

Lemma insert_row_sorted r rows :
  StronglySorted id_lt rows -> ~ In (id r) (map id rows) ->
  StronglySorted id_lt (insert_row r rows).
Proof.
  induction 1 as [|y ys Hs IH Hy]; simpl; intros Hn.
  - repeat constructor.
  - destruct (id r <? id y) eqn:E.
    + apply Z.ltb_lt in E. constructor; [constructor; assumption|].
      constructor; [exact E|].
      eapply Forall_impl; [|exact Hy]. unfold id_lt; simpl; intros; lia.
    + apply Z.ltb_ge in E. constructor; [apply IH; tauto|].
      rewrite Forall_forall in *; intros x Hx.
      apply insert_row_In in Hx as [->|Hx]; [|auto].
      unfold id_lt. assert (id r <> id y) by (intros Heq; apply Hn; left; auto). lia.
Qed.

Lemma ascending_from_sorted rows : forall lo,
  ascending_from lo rows = true ->
  StronglySorted id_lt rows /\ Forall (fun r => lo < id r) rows.
Proof.
  induction rows as [|r rs IH]; simpl; intros lo H.
  - split; constructor.
  - apply andb_true_iff in H as [H1 H2]. apply Z.ltb_lt in H1.
    destruct (IH _ H2) as [Hs Hf]. split.
    + constructor; [exact Hs|]. exact Hf.
    + constructor; [exact H1|].
      eapply Forall_impl; [|exact Hf]. simpl; intros; lia.
Qed.

Lemma wf_tableb_ok rows : wf_tableb rows = true -> wf_table rows.
Proof.
  unfold wf_tableb, wf_table; intros H.
  apply andb_true_iff in H as [H1 H2]. split.
  - destruct rows as [|r rs]; [constructor|].
    destruct (ascending_from_sorted _ _ H1) as [Hs Hf].
    constructor; assumption.
  - rewrite forallb_forall in H2. apply Forall_forall. intros r Hr.
    specialize (H2 r Hr). apply andb_true_iff in H2 as [A B].
    apply Z.leb_le in A, B. lia.
Qed.

Lemma delete_row_absent i rows :
  ~ In i (map id rows) -> delete_row i rows = rows.
Proof.
  unfold delete_row; induction rows as [|r rs IH]; simpl; intros H; [reflexivity|].
  destruct (id r =? i) eqn:E; simpl.
  - apply Z.eqb_eq in E. tauto.
  - rewrite IH; tauto.
Qed.

Lemma delete_row_In i rows r :
  In r (delete_row i rows) <-> In r rows /\ id r <> i.
Proof.
  unfold delete_row. rewrite filter_In, negb_true_iff, Z.eqb_neq. tauto.
Qed.

Lemma delete_row_idem i rows :
  delete_row i (delete_row i rows) = delete_row i rows.
Proof.
  apply delete_row_absent. intros H. apply in_map_iff in H as (r & Hr & Hin).
  apply delete_row_In in Hin. tauto.
Qed.

Lemma delete_row_insert r rows :
  ~ In (id r) (map id rows) -> delete_row (id r) (insert_row r rows) = rows.
Proof.
  induction rows as [|y ys IH]; simpl; intros H.
  - unfold delete_row; simpl. now rewrite Z.eqb_refl.
  - assert (Hy : (id y =? id r) = false) by (apply Z.eqb_neq; intros E; apply H; auto).
    destruct (id r <? id y); unfold delete_row; simpl.
    + rewrite Z.eqb_refl, Hy; simpl. f_equal. apply delete_row_absent. tauto.
    + rewrite Hy; simpl. f_equal. apply IH. tauto.
Qed.

Lemma delete_row_update d i rows :
  delete_row i (update_done d i rows) = delete_row i rows.
Proof.
  unfold delete_row, update_done; induction rows as [|r rs IH]; simpl; [reflexivity|].
  destruct (id r =? i) eqn:E; simpl; rewrite E; simpl; congruence.
Qed.

Lemma select_delete_comm d i rows :
  select_by_done d (delete_row i rows) = delete_row i (select_by_done d rows).
Proof.
  unfold select_by_done, delete_row; induction rows as [|r rs IH]; simpl; [reflexivity|].
  destruct (id r =? i) eqn:E, (Bool.eqb (done r) d) eqn:F; simpl;
    rewrite ?E, ?F; simpl; congruence.
Qed.

Lemma select_In d rows r :
  In r (select_by_done d rows) <-> In r rows /\ done r = d.
Proof.
  unfold select_by_done. rewrite filter_In, Bool.eqb_true_iff. tauto.
Qed.

Lemma update_done_absent d i rows :
  ~ In i (map id rows) -> update_done d i rows = rows.
Proof.
  unfold update_done; induction rows as [|r rs IH]; simpl; intros H; [reflexivity|].
  destruct (id r =? i) eqn:E.
  - apply Z.eqb_eq in E. tauto.
  - rewrite IH; tauto.
Qed.

Lemma update_done_idem d i rows :
  update_done d i (update_done d i rows) = update_done d i rows.
Proof.
  unfold update_done; induction rows as [|r rs IH]; simpl; [reflexivity|].
  rewrite IH. destruct (id r =? i) eqn:E; simpl; rewrite E; reflexivity.
Qed.

Lemma update_done_length d i rows : length (update_done d i rows) = length rows.
Proof. apply length_map. Qed.

Lemma count_id_delete i rows : count_id i (delete_row i rows) = 0%nat.
Proof.
  unfold count_id, delete_row; induction rows as [|r rs IH]; simpl; [reflexivity|].
  destruct (id r =? i) eqn:E; simpl; rewrite ?E; exact IH.
Qed.

Lemma count_id_absent i rows : ~ In i (map id rows) -> count_id i rows = 0%nat.
Proof.
  intros H. rewrite <- (delete_row_absent i rows H). apply count_id_delete.
Qed.

Lemma sorted_head_absent r rs :
  StronglySorted id_lt (r :: rs) -> ~ In (id r) (map id rs).
Proof.
  intros H Hin. apply StronglySorted_inv in H as [_ H].
  apply in_map_iff in Hin as (x & Hx & Hin).
  rewrite Forall_forall in H. specialize (H x Hin). unfold id_lt in H. lia.
Qed.

(** In a table an id names at most one row. *)
Lemma count_id_present r rows :
  StronglySorted id_lt rows -> In r rows -> count_id (id r) rows = 1%nat.
Proof.
  induction rows as [|y ys IH]; intros Hs Hin; [destruct Hin|].
  pose proof (sorted_head_absent _ _ Hs) as Hy.
  unfold count_id; simpl. destruct Hin as [->|Hin].
  - rewrite Z.eqb_refl; simpl. f_equal. now apply count_id_absent.
  - destruct (id y =? id r) eqn:E.
    + apply Z.eqb_eq in E. exfalso; apply Hy. rewrite E. now apply in_map.
    + apply IH; [|exact Hin]. now apply StronglySorted_inv in Hs.
Qed.

Lemma select_sorted d rows :
  StronglySorted id_lt rows -> StronglySorted id_lt (select_by_done d rows).
Proof.
  unfold select_by_done; induction 1 as [|r rs Hs IH Hr]; simpl; [constructor|].
  destruct (Bool.eqb (done r) d); [|exact IH].
  constructor; [exact IH|].
  rewrite Forall_forall in *; intros x Hx. apply filter_In in Hx. apply Hr; tauto.
Qed.

Lemma select_app d l1 l2 :
  select_by_done d (l1 ++ l2) = select_by_done d l1 ++ select_by_done d l2.
Proof. apply filter_app. Qed.

Lemma select_update_done_true i rows :
  select_by_done false (update_done true i rows) =
  delete_row i (select_by_done false rows).
Proof.
  unfold select_by_done, update_done, delete_row.
  induction rows as [|r rs IH]; simpl; [reflexivity|].
  destruct (id r =? i) eqn:E; simpl.
  - destruct (done r); simpl; rewrite ?E; simpl; exact IH.
  - destruct (done r); simpl; rewrite ?E; simpl; congruence.
Qed.

Lemma update_done_In d i rows r :
  In r rows -> id r = i -> In (mkItem i d (value r)) (update_done d i rows).
Proof.
  intros Hin <-. unfold update_done. apply in_map_iff.
  exists r. rewrite Z.eqb_refl. auto.
Qed.

Lemma update_done_sorted d i rows :
  StronglySorted id_lt rows -> StronglySorted id_lt (update_done d i rows).
Proof.
  induction 1 as [|r rs Hs IH Hr]; simpl; [constructor|].
  constructor; [exact IH|].
  rewrite Forall_forall in *; intros x Hx.
  apply in_map_iff in Hx as (y & <- & Hy). specialize (Hr y Hy).
  unfold id_lt in *. destruct (id r =? i), (id y =? i); simpl; exact Hr.
Qed.

(** ** The handle: what one call does to the world *)

Lemma statement_inv env s w r w' :
  statement env s w = (r, w') ->
  trace w' = trace w ++ [EvStmt s (is_resolved r)] /\
  unhandled w' = unhandled w /\ same_ui w w' /\
  match r with
  | Rejected _ => db w' = db w
  | Resolved rows =>
      io_fault env (length (trace w)) = false /\
      run_stmt (rowid_rand env (length (trace w))) s (db w) = inr (db w', rows)
  end.
Proof.
  unfold statement, same_ui; intros H.
  destruct (io_fault env (length (trace w))).
  - inv_pair; simpl; auto 10.
  - destruct (run_stmt _ s (db w)) as [e|[d' rows]]; inv_pair; simpl; auto 10.
Qed.

Lemma statement_ok env s w d' rows :
  io_fault env (length (trace w)) = false ->
  run_stmt (rowid_rand env (length (trace w))) s (db w) = inr (d', rows) ->
  statement env s w = (Resolved rows, log (EvStmt s true) (set_db d' w)).
Proof. unfold statement; intros -> ->; reflexivity. Qed.

Lemma runAsync_ok env s w d' rows :
  io_fault env (length (trace w)) = false ->
  run_stmt (rowid_rand env (length (trace w))) s (db w) = inr (d', rows) ->
  runAsync env s w = (Resolved tt, log (EvStmt s true) (set_db d' w)).
Proof.
  intros H1 H2; unfold runAsync, bind. now rewrite (statement_ok _ _ _ _ _ H1 H2).
Qed.

Lemma db_eta d : mkDb (user_version d) (items d) = d.
Proof. destruct d; reflexivity. Qed.

Lemma run_stmt_select cand d b rows :
  items d = Some rows ->
  run_stmt cand (SelectByDone b) d = inr (d, map RowItem (select_by_done b rows)).
Proof.
  intros H; simpl; unfold on_items; rewrite H. now rewrite <- H, db_eta.
Qed.

Lemma run_stmt_select_inv cand d b d' out :
  run_stmt cand (SelectByDone b) d = inr (d', out) -> d' = d.
Proof.
  simpl; unfold on_items; destruct (items d) eqn:E; [|discriminate].
  intros H; inversion H; subst. now rewrite <- E, db_eta.
Qed.

Lemma item_rows_items l : item_rows (map RowItem l) = l.
Proof. induction l; simpl; congruence. Qed.

Lemma getAllAsync_inv env b w r w' :
  getAllAsync env (SelectByDone b) w = (r, w') ->
  db w' = db w /\ trace w' = trace w ++ [EvStmt (SelectByDone b) (is_resolved r)] /\
  unhandled w' = unhandled w /\ same_ui w w'.
Proof.
  unfold getAllAsync, bind, ret; intros H.
  destruct (statement env (SelectByDone b) w) as [r0 w0] eqn:E.
  apply statement_inv in E as (Ht & Hu & Hs & Hr).
  destruct r0; inv_pair; cbn [is_resolved] in *; [|tauto].
  destruct Hr as [_ Hr]. apply run_stmt_select_inv in Hr. tauto.
Qed.

Lemma getAllAsync_ok env b w rows :
  items (db w) = Some rows ->
  io_fault env (length (trace w)) = false ->
  getAllAsync env (SelectByDone b) w =
  (Resolved (select_by_done b rows), log (EvStmt (SelectByDone b) true) w).
Proof.
  intros Hi Hf. unfold getAllAsync, bind, ret.
  rewrite (statement_ok _ _ _ _ _ Hf (run_stmt_select _ _ b _ Hi)).
  rewrite item_rows_items. reflexivity.
Qed.

Lemma count_app p l1 l2 : count p (l1 ++ l2) = (count p l1 + count p l2)%nat.
Proof. unfold count. now rewrite filter_app, length_app. Qed.

Lemma new_events_app w w' evs :
  trace w' = trace w ++ evs -> new_events w w' = evs.
Proof.
  unfold new_events; intros ->. rewrite skipn_app, skipn_all, Nat.sub_diag. reflexivity.
Qed.

(** A sync call whose promise is dropped: one event, never an exception. *)
Lemma detached_sync_inv env w r w' :
  detached (syncLibSQL env) w = (r, w') ->
  r = Resolved tt /\ same_ui w w' /\
  exists ok, trace w' = trace w ++ [EvSyncLibSQL ok] /\
    (ok = false <-> remote env (length (trace w)) (db w) = None) /\
    (remote env (length (trace w)) (db w) = None -> db w' = db w).
Proof.
  unfold detached, syncLibSQL, same_ui.
  destruct (remote env (length (trace w)) (db w)) eqn:E; intros H; inv_pair; simpl.
  - repeat split; auto. exists true; intuition discriminate.
  - repeat split; auto. exists false; intuition discriminate.
Qed.

(** ** Sequencing *)

Lemma bind_resolved {A B} (m : Async A) (k : A -> Async B) w a w1 :
  m w = (Resolved a, w1) -> bind m k w = k a w1.
Proof. unfold bind; intros ->; reflexivity. Qed.

Lemma bind_rejected {A B} (m : Async A) (k : A -> Async B) w e w1 :
  m w = (Rejected e, w1) -> bind m k w = (Rejected e, w1).
Proof. unfold bind; intros ->; reflexivity. Qed.

Lemma execAsync_ok env s w d' rows :
  io_fault env (length (trace w)) = false ->
  run_stmt (rowid_rand env (length (trace w))) s (db w) = inr (d', rows) ->
  execAsync env s w = (Resolved tt, log (EvStmt s true) (set_db d' w)).
Proof. apply runAsync_ok. Qed.

Lemma execAsync_fault env s w :
  io_fault env (length (trace w)) = true ->
  execAsync env s w = (Rejected IoError, log (EvStmt s false) w).
Proof. unfold execAsync, bind, statement; intros ->; reflexivity. Qed.

Lemma getFirstAsync_ok env s w d' rows :
  io_fault env (length (trace w)) = false ->
  run_stmt (rowid_rand env (length (trace w))) s (db w) = inr (d', rows) ->
  getFirstAsync env s w = (Resolved (hd_error rows), log (EvStmt s true) (set_db d' w)).
Proof.
  intros H1 H2; unfold getFirstAsync, bind. now rewrite (statement_ok _ _ _ _ _ H1 H2).
Qed.

Lemma getFirstAsync_fault env s w :
  io_fault env (length (trace w)) = true ->
  getFirstAsync env s w = (Rejected IoError, log (EvStmt s false) w).
Proof. unfold getFirstAsync, bind, statement; intros ->; reflexivity. Qed.

Lemma runAsync_fault env s w :
  io_fault env (length (trace w)) = true ->
  runAsync env s w = (Rejected IoError, log (EvStmt s false) w).
Proof. unfold runAsync, bind, statement; intros ->; reflexivity. Qed.

Lemma runAsync_error env s w e :
  io_fault env (length (trace w)) = false ->
  run_stmt (rowid_rand env (length (trace w))) s (db w) = inl e ->
  runAsync env s w = (Rejected e, log (EvStmt s false) w).
Proof. unfold runAsync, bind, statement; intros -> ->; reflexivity. Qed.

Lemma getAllAsync_fault env s w :
  io_fault env (length (trace w)) = true ->
  getAllAsync env s w = (Rejected IoError, log (EvStmt s false) w).
Proof. unfold getAllAsync, bind, statement; intros ->; reflexivity. Qed.

Lemma getAllAsync_error env s w e :
  io_fault env (length (trace w)) = false ->
  run_stmt (rowid_rand env (length (trace w))) s (db w) = inl e ->
  getAllAsync env s w = (Rejected e, log (EvStmt s false) w).
Proof. unfold getAllAsync, bind, statement; intros -> ->; reflexivity. Qed.

(** ** The refresh *)

(** The transaction of [refetch] only reads: committed or rolled back, the
    database is what it was. *)
Lemma refetch_inv env w r w' :
  refetch env w = (r, w') ->
  db w' = db w /\ text w' = text w /\
  enablePollingSync w' = enablePollingSync w /\ interval w' = interval w /\
  unhandled w' = unhandled w /\
  exists rest, trace w' = trace w ++ rest /\ quiet_events rest.
Proof.
  unfold refetch, withTransactionAsync, quiet_events; intros H.
  set (w1 := log EvBegin w) in *.
  unfold bind in H.
  destruct (getAllAsync env (SelectByDone false) w1) as [r1 w2] eqn:E1.
  apply getAllAsync_inv in E1 as (D1 & T1 & U1 & S1).
  destruct S1 as (X1 & _ & _ & F1 & I1).
  destruct r1 as [l1|e1]; cbn [is_resolved] in T1.
  - cbv beta iota delta [setTodoItems] in H.
    match type of H with context [getAllAsync env (SelectByDone true) ?w] =>
      set (w3 := w) in * end.
    destruct (getAllAsync env (SelectByDone true) w3) as [r2 w4] eqn:E2.
    apply getAllAsync_inv in E2 as (D2 & T2 & U2 & S2).
    destruct S2 as (X2 & _ & _ & F2 & I2).
    subst w3; simpl in D2, T2, X2, F2, I2, U2. rewrite T1 in T2.
    destruct r2 as [l2|e2]; cbn [is_resolved] in T2;
      cbv beta iota delta [setDoneItems] in H; inv_pair; simpl;
      rewrite ?D2, ?T2, ?X2, ?F2, ?I2, ?U2, ?D1, ?X1, ?F1, ?I1, ?U1; subst w1; simpl;
      rewrite <- !app_assoc; simpl; repeat split; eexists; repeat split; reflexivity.
  - inv_pair; simpl. rewrite T1, X1, F1, I1, U1; subst w1; simpl.
    rewrite <- !app_assoc; simpl; repeat split; eexists; repeat split; reflexivity.
Qed.

(** [refetchItems] never throws, never writes to the database, and is one
    refresh request followed by reads inside one transaction. *)
Lemma refetchItems_inv env w r w' :
  refetchItems env w = (r, w') ->
  r = Resolved tt /\ db w' = db w /\ text w' = text w /\
  enablePollingSync w' = enablePollingSync w /\ interval w' = interval w /\
  exists rest, trace w' = trace w ++ EvRefetchItems :: rest /\ quiet_events rest.
Proof.
  unfold refetchItems, emit, bind, detached; intros H.
  destruct (refetch env (log EvRefetchItems w)) as [r0 w0] eqn:E.
  apply refetch_inv in E as (D & X & F & I & U & rest & T & Q).
  simpl in D, X, F, I, U, T. rewrite <- app_assoc in T; simpl in T.
  destruct r0; inv_pair; simpl; repeat split; eauto.
Qed.

(** With the table there and no I/O error on the two reads, the two views
    are the two partitions of the table. *)
Lemma refetchItems_ok env w rows :
  items (db w) = Some rows ->
  io_fault env (length (trace w) + 2) = false ->
  io_fault env (length (trace w) + 3) = false ->
  todoItems (snd (refetchItems env w)) = select_by_done false rows /\
  doneItems (snd (refetchItems env w)) = select_by_done true rows /\
  trace (snd (refetchItems env w)) =
    trace w ++ [EvRefetchItems; EvBegin; EvStmt (SelectByDone false) true;
                EvStmt (SelectByDone true) true; EvCommit].
Proof.
  intros Hi F2 F3.
  unfold refetchItems, refetch, emit, detached, withTransactionAsync, bind.
  rewrite (getAllAsync_ok env false _ rows).
  - cbv beta iota delta [setTodoItems].
    rewrite (getAllAsync_ok env true _ rows).
    + simpl. rewrite <- !app_assoc. auto.
    + exact Hi.
    + simpl. rewrite !length_app; simpl.
      replace (length (trace w) + 1 + 1 + 1)%nat with (length (trace w) + 3)%nat by lia.
      exact F3.
  - exact Hi.
  - simpl. rewrite !length_app; simpl.
    replace (length (trace w) + 1 + 1)%nat with (length (trace w) + 2)%nat by lia.
    exact F2.
Qed.

(** ** [sync] and the interval *)

Lemma sync_inv env b w r w' :
  sync env b w = (r, w') ->
  r = Resolved tt /\
  interval w' = interval w /\ enablePollingSync w' = enablePollingSync w /\
  (remote env (length (trace w)) (db w) = None -> db w' = db w) /\
  exists ok rest,
    trace w' = trace w ++ EvSyncLibSQL ok :: (if b then EvRefetchItems :: rest else []) /\
    quiet_events rest /\
    (ok = false <-> remote env (length (trace w)) (db w) = None).
Proof.
  unfold sync, bind; intros H.
  destruct (detached (syncLibSQL env) w) as [r1 w1] eqn:E1.
  apply detached_sync_inv in E1 as (-> & (_ & _ & _ & F & I) & ok & T & Hok & D).
  destruct b.
  - apply refetchItems_inv in H as (-> & D' & _ & F' & I' & rest & T' & Q).
    rewrite T', T, <- app_assoc, I', I, F', F, D'. simpl.
    repeat split; auto. exists ok, rest. tauto.
  - unfold ret in H; inv_pair. rewrite T, I, F.
    repeat split; auto. exists ok, []. unfold quiet_events. tauto.
Qed.

Lemma repeat_ticks_inv env n : forall w r w',
  repeat_ticks env n w = (r, w') ->
  r = Resolved tt /\
  interval w' = interval w /\ enablePollingSync w' = enablePollingSync w /\
  ((forall k d, remote env k d = None) -> db w' = db w) /\
  exists evs, trace w' = trace w ++ evs /\
    count is_sync evs = n /\ count is_refetch evs = n.
Proof.
  induction n as [|n IH]; intros w r w'; simpl.
  - unfold ret; intros H; inv_pair. repeat split; auto.
    exists []. rewrite app_nil_r. auto.
  - unfold bind, tick.
    destruct (sync env true w) as [r1 w1] eqn:E1.
    apply sync_inv in E1 as (-> & I & F & D & ok & rest & T & (Q1 & Q2 & _) & _).
    intros H. apply IH in H as (-> & I' & F' & D' & evs & T' & C1 & C2).
    rewrite T', T, <- app_assoc, I', I, F', F. repeat split; auto.
    + intros Hoff. rewrite D', D; auto.
    + exists ((EvSyncLibSQL ok :: EvRefetchItems :: rest) ++ evs). split; [reflexivity|].
      change ((EvSyncLibSQL ok :: EvRefetchItems :: rest) ++ evs)
        with ([EvSyncLibSQL ok; EvRefetchItems] ++ rest ++ evs).
      rewrite !count_app, Q1, Q2, C1, C2. split; reflexivity.
Qed.

(** The events of one refresh, exactly, and what a failed read leaves of
    the two lists. *)
Lemma refetch_shape env w r w' :
  refetch env w = (r, w') ->
  exists first second,
    trace w' = trace w ++ refresh_events first second /\
    (first = false -> todoItems w' = todoItems w /\ doneItems w' = doneItems w) /\
    (second = false -> doneItems w' = doneItems w) /\
    is_resolved r = (first && second)%bool.
Proof.
  unfold refetch, withTransactionAsync; intros H.
  set (w1 := log EvBegin w) in *.
  unfold bind in H.
  destruct (getAllAsync env (SelectByDone false) w1) as [r1 w2] eqn:E1.
  apply getAllAsync_inv in E1 as (D1 & T1 & U1 & S1).
  destruct S1 as (X1 & Y1 & Z1 & F1 & I1).
  destruct r1 as [l1|e1]; cbn [is_resolved] in T1.
  - cbv beta iota delta [setTodoItems] in H.
    match type of H with context [getAllAsync env (SelectByDone true) ?w] =>
      set (w3 := w) in * end.
    destruct (getAllAsync env (SelectByDone true) w3) as [r2 w4] eqn:E2.
    apply getAllAsync_inv in E2 as (D2 & T2 & U2 & S2).
    destruct S2 as (X2 & Y2 & Z2 & F2 & I2).
    subst w3; simpl in D2, T2, X2, Y2, Z2, F2, I2, U2. rewrite T1 in T2.
    destruct r2 as [l2|e2]; cbn [is_resolved] in T2;
      cbv beta iota delta [setDoneItems] in H; inv_pair; simpl.
    + exists true, true. rewrite T2; subst w1; simpl. rewrite <- !app_assoc; simpl.
      split; [reflexivity|]. split; [discriminate|]. split; [discriminate|reflexivity].
    + exists true, false. rewrite T2, Z2, Z1; subst w1; simpl. rewrite <- !app_assoc; simpl.
      split; [reflexivity|]. split; [discriminate|]. split; reflexivity.
  - inv_pair; simpl. exists false, false. rewrite T1, Y1, Z1; subst w1; simpl.
    rewrite <- !app_assoc; simpl. auto.
Qed.

Lemma refetchItems_shape env w :
  exists first second,
    trace (snd (refetchItems env w)) =
      trace w ++ EvRefetchItems :: refresh_events first second /\
    (first = false ->
     todoItems (snd (refetchItems env w)) = todoItems w /\
     doneItems (snd (refetchItems env w)) = doneItems w) /\
    (second = false -> doneItems (snd (refetchItems env w)) = doneItems w).
Proof.
  unfold refetchItems, emit, bind, detached.
  destruct (refetch env (log EvRefetchItems w)) as [r0 w0] eqn:E.
  apply refetch_shape in E as (first & second & T & V1 & V2 & _).
  simpl in T, V1, V2. rewrite <- app_assoc in T; simpl in T.
  exists first, second. destruct r0; simpl; auto.
Qed.

(** A sync that fails or brings nothing leaves the world as it was, but for
    its event and the rejection nobody catches. *)
Lemma detached_sync_nothing env w :
  sync_brings_nothing env w ->
  exists ok,
    trace (snd (detached (syncLibSQL env) w)) = trace w ++ [EvSyncLibSQL ok] /\
    db (snd (detached (syncLibSQL env) w)) = db w.
Proof.
  unfold detached, syncLibSQL; intros [H|H]; rewrite H; simpl; eauto.
Qed.

Lemma sync_shape env b w :
  exists ok first second,
    fst (sync env b w) = Resolved tt /\
    trace (snd (sync env b w)) =
      trace w ++ EvSyncLibSQL ok ::
        (if b then EvRefetchItems :: refresh_events first second else []) /\
    (ok = false <-> remote env (length (trace w)) (db w) = None) /\
    (b = false \/ first = false ->
     todoItems (snd (sync env b w)) = todoItems w /\
     doneItems (snd (sync env b w)) = doneItems w) /\
    (b = false \/ second = false -> doneItems (snd (sync env b w)) = doneItems w).
Proof.
  unfold sync, bind.
  destruct (detached (syncLibSQL env) w) as [r1 w1] eqn:E1.
  apply detached_sync_inv in E1 as (-> & (_ & Y & Z & _ & _) & ok & T & Hok & _).
  destruct b.
  - destruct (refetchItems_shape env w1) as (first & second & T' & V1 & V2).
    destruct (refetchItems env w1) as [r2 w2] eqn:E2.
    pose proof (refetchItems_inv _ _ _ _ E2) as (-> & _).
    cbn [fst snd] in *. exists ok, first, second.
    rewrite T', T, <- app_assoc. simpl. rewrite <- Y, <- Z.
    split; [reflexivity|]. split; [reflexivity|]. split; [exact Hok|].
    split; intros [H|H]; try discriminate; auto.
  - exists ok, false, false. unfold ret; cbn [fst snd]. rewrite T, Y, Z.
    split; [reflexivity|]. split; [reflexivity|]. split; [exact Hok|]. split; auto.
Qed.

(** With the table there, a sync that fails or brings nothing and no I/O
    error on its two reads, a tick leaves the database as it was and the two
    lists its two partitions. *)
Lemma tick_shows env w rows :
  items (db w) = Some rows ->
  sync_brings_nothing env w ->
  io_fault env (length (trace w) + 3) = false ->
  io_fault env (length (trace w) + 4) = false ->
  (exists ok,
     new_events w (snd (tick env w)) =
     EvSyncLibSQL ok :: EvRefetchItems :: refresh_events true true) /\
  db (snd (tick env w)) = db w /\ shows rows (snd (tick env w)).
Proof.
  intros Hi Hn F3 F4. unfold tick, sync, bind.
  destruct (detached_sync_nothing env w Hn) as (ok & T & D).
  destruct (detached (syncLibSQL env) w) as [r1 w1] eqn:E1.
  pose proof (detached_sync_inv _ _ _ _ E1) as (-> & _). cbn [snd] in T, D.
  assert (L : length (trace w1) = S (length (trace w)))
    by (rewrite T, length_app; simpl; lia).
  assert (Hi1 : items (db w1) = Some rows) by (rewrite D; exact Hi).
  assert (G2 : io_fault env (length (trace w1) + 2) = false)
    by (rewrite L; replace (S (length (trace w)) + 2)%nat
          with (length (trace w) + 3)%nat by lia; exact F3).
  assert (G3 : io_fault env (length (trace w1) + 3) = false)
    by (rewrite L; replace (S (length (trace w)) + 3)%nat
          with (length (trace w) + 4)%nat by lia; exact F4).
  pose proof (refetchItems_ok env w1 rows Hi1 G2 G3) as (H1 & H2 & T').
  destruct (refetchItems env w1) as [r2 w2] eqn:E2.
  apply refetchItems_inv in E2 as (-> & D' & _). cbn [snd] in *.
  rewrite T, <- app_assoc in T'. simpl in T'.
  split; [exists ok; exact (new_events_app _ _ _ T')|].
  split; [congruence|]. split; assumption.
Qed.

Lemma repeat_ticks_rounds env n : forall w,
  tick_rounds n (new_events w (snd (repeat_ticks env n w))) /\
  count is_write_event (new_events w (snd (repeat_ticks env n w))) = 0%nat.
Proof.
  induction n as [|n IH]; intros w; simpl.
  - unfold ret, new_events; simpl. rewrite skipn_all. split; [constructor|reflexivity].
  - unfold bind, tick.
    destruct (sync_shape env true w) as (ok & first & second & R & T & _).
    destruct (sync env true w) as [r1 w1] eqn:E1. cbn [fst snd] in R, T. subst r1.
    destruct (IH w1) as (IH1 & IH2).
    destruct (repeat_ticks env n w1) as [r2 w2] eqn:E2.
    pose proof (repeat_ticks_inv _ _ _ _ _ E2) as (_ & _ & _ & _ & evs & T2 & _).
    cbn [snd] in *. rewrite (new_events_app _ _ _ T2) in IH1, IH2.
    rewrite T, <- app_assoc in T2. rewrite (new_events_app _ _ _ T2).
    split.
    + simpl. constructor. exact IH1.
    + change ((EvSyncLibSQL ok :: EvRefetchItems :: refresh_events first second) ++ evs)
        with ([EvSyncLibSQL ok; EvRefetchItems] ++ refresh_events first second ++ evs).
      rewrite !count_app, IH2.
      destruct first, second; reflexivity.
Qed.

Lemma repeat_ticks_shows env rows :
  (forall k d, remote env k d = None) -> no_io_fault env ->
  forall n w, items (db w) = Some rows ->
  shows rows (snd (repeat_ticks env (S n) w)).
Proof.
  intros Hoff Hio. induction n as [|n IH]; intros w Hi.
  - assert (Hn : sync_brings_nothing env w) by (left; apply Hoff).
    destruct (tick_shows env w rows Hi Hn (Hio _) (Hio _)) as (_ & _ & V).
    simpl. unfold bind, ret. destruct (tick env w) as [r1 w1] eqn:E1.
    apply sync_inv in E1 as (-> & _). exact V.
  - change (repeat_ticks env (S (S n)) w)
      with (bind (tick env) (fun _ => repeat_ticks env (S n)) w).
    unfold bind. destruct (tick env w) as [r1 w1] eqn:E1.
    apply sync_inv in E1 as (-> & _ & _ & D & _).
    apply IH. rewrite D; auto.
Qed.

(** ** The table invariant is kept by every statement *)

Lemma random_rowid_range cand rows a k v :
  random_rowid cand rows a k = Some v -> 1 <= v <= MAX_ROWID.
Proof.
  revert k; induction a as [|a IH]; simpl; intros k H; [discriminate|].
  destruct (rowid_used (Z.land _ _ + 1) rows).
  - eapply IH; eassumption.
  - injection H as <-.
    change (Z.shiftr MAX_ROWID 1) with (Z.ones 62).
    rewrite Z.land_ones by lia.
    pose proof (Z.mod_pos_bound (cand k) (2 ^ 62) ltac:(lia)).
    unfold MAX_ROWID. lia.
Qed.

Lemma new_rowid_range cand rows k :
  Forall (fun r => MIN_ROWID <= id r <= MAX_ROWID) rows ->
  new_rowid cand rows = Some k -> MIN_ROWID <= k <= MAX_ROWID.
Proof.
  unfold new_rowid; intros Hr H.
  destruct (max_rowid rows) as [m|] eqn:E.
  - destruct (m <? MAX_ROWID) eqn:L.
    + injection H as <-. apply Z.ltb_lt in L.
      assert (MIN_ROWID <= m).
      { clear L. revert m E. induction Hr as [|r rs Hr0 _ IH]; simpl; intros m E; [discriminate|].
        destruct (max_rowid rs) as [m'|]; injection E as <-; [|lia].
        specialize (IH m' eq_refl). lia. }
      lia.
    + apply random_rowid_range in H. unfold MIN_ROWID, MAX_ROWID in *. lia.
  - injection H as <-. unfold MIN_ROWID, MAX_ROWID. lia.
Qed.

Lemma wf_table_insert cand rows k d v :
  wf_table rows -> new_rowid cand rows = Some k ->
  wf_table (insert_row (mkItem k d v) rows).
Proof.
  intros [Hs Hr] Hk; split.
  - apply insert_row_sorted; [exact Hs|]. simpl. eapply new_rowid_fresh; eassumption.
  - rewrite Forall_forall in *; intros x Hx.
    apply insert_row_In in Hx as [->|Hx]; [|auto]. simpl.
    eapply new_rowid_range; [|eassumption]. now apply Forall_forall.
Qed.

Lemma wf_table_update d i rows : wf_table rows -> wf_table (update_done d i rows).
Proof.
  intros [Hs Hr]; split; [now apply update_done_sorted|].
  rewrite Forall_forall in *; intros x Hx.
  apply in_map_iff in Hx as (y & <- & Hy). specialize (Hr y Hy).
  destruct (id y =? i); exact Hr.
Qed.

Lemma wf_table_delete i rows : wf_table rows -> wf_table (delete_row i rows).
Proof.
  intros [Hs Hr]; split.
  - clear Hr. induction Hs as [|r rs Hs IH Hr]; unfold delete_row; simpl; [constructor|].
    destruct (negb (id r =? i)); [|exact IH].
    constructor; [exact IH|].
    rewrite Forall_forall in *; intros x Hx. apply filter_In in Hx. apply Hr; tauto.
  - rewrite Forall_forall in *; intros x Hx. apply delete_row_In in Hx. apply Hr; tauto.
Qed.

Lemma run_stmt_wf cand s d d' out :
  wf_db d -> run_stmt cand s d = inr (d', out) -> wf_db d'.
Proof.
  unfold wf_db; destruct s; simpl; unfold on_items; intros Hw H.
  - now inversion H; subst.
  - now inversion H; subst.
  - destruct (items d) eqn:E; inversion H; subst; simpl; rewrite ?E; auto.
    split; constructor.
  - destruct (items d) as [rows|]; [|discriminate].
    destruct (new_rowid cand rows) as [k|] eqn:K; inversion H; subst; simpl.
    eapply wf_table_insert; eassumption.
  - destruct (items d) as [rows|]; inversion H; subst; simpl.
    now apply wf_table_update.
  - destruct (items d) as [rows|]; inversion H; subst; simpl.
    now apply wf_table_delete.
  - destruct (items d) as [rows|] eqn:E; inversion H; subst; simpl. exact Hw.
Qed.

(** ** Database operations *)

Lemma run_stmt_insert cand d rows k dn v :
  items d = Some rows -> new_rowid cand rows = Some k ->
  run_stmt cand (InsertItem dn v) d =
  inr (mkDb (user_version d) (Some (insert_row (mkItem k dn v) rows)), []).
Proof. intros Hi Hk; simpl; unfold on_items; now rewrite Hi, Hk. Qed.

Lemma run_stmt_update cand d rows dn i :
  items d = Some rows ->
  run_stmt cand (UpdateDone dn i) d =
  inr (mkDb (user_version d) (Some (update_done dn i rows)), []).
Proof. intros Hi; simpl; unfold on_items; now rewrite Hi. Qed.

Lemma run_stmt_delete cand d rows i :
  items d = Some rows ->
  run_stmt cand (DeleteItem i) d =
  inr (mkDb (user_version d) (Some (delete_row i rows)), []).
Proof. intros Hi; simpl; unfold on_items; now rewrite Hi. Qed.

Lemma string_eqb_empty t : t <> EmptyString -> String.eqb t EmptyString = false.
Proof. intros H; apply String.eqb_neq; exact H. Qed.

(** C7. [add("")] is a silent no-op: for every environment and every world,
    [addItemAsync] with the empty text resolves and returns the world it was
    given: no statement is sent (the trace is the same), no rejection is
    recorded, and the table, hence both partitions, their contents and their
    sizes, is untouched. Submitting the empty input field therefore resolves
    too, writes nothing and leaves the database as it was. *)
Theorem add_empty_text_is_noop env w :
  addItemAsync env EmptyString w = (Resolved tt, w) /\
  (let submit := onSubmitEditing env (snd (setText EmptyString w)) in
   fst submit = Resolved tt /\
   db (snd submit) = db w /\
   count is_write_event (new_events w (snd submit)) = 0%nat).
Proof.
  split; [reflexivity|].
  unfold onSubmitEditing. cbn [setText snd text].
  rewrite (bind_resolved _ _ _ tt _ eq_refl).
  set (w0 := mkWorld _ _ _ _ _ _ _ _).
  unfold bind. destruct (refetchItems env w0) as [r w1] eqn:E.
  apply refetchItems_inv in E as (-> & D & _ & _ & _ & rest & T & _ & _ & Q).
  subst w0; simpl in D, T. simpl.
  repeat split; auto.
  rewrite (new_events_app w _ (EvRefetchItems :: rest)) by exact T.
  exact Q.
Qed.

(** C4. For a non-empty text [t], with the table there, no I/O error on the
    call and a row id to be had, [addItemAsync t] resolves and inserts exactly
    one row [{id: k, done: false, value: t}] under an id [k] that was not in
    use; every other row is kept. A listing of the pending partition made
    next is the earlier listing with that one record added, and the
    completed partition is what it was. *)
Theorem add_inserts_one_pending_record env w t rows k :
  t <> EmptyString ->
  items (db w) = Some rows ->
  io_fault env (length (trace w)) = false ->
  io_fault env (S (length (trace w))) = false ->
  new_rowid (rowid_rand env (length (trace w))) rows = Some k ->
  exists w' l1 l2,
    addItemAsync env t w = (Resolved tt, w') /\
    items (db w') = Some (insert_row (mkItem k false t) rows) /\
    ~ In k (map id rows) /\
    delete_row k (insert_row (mkItem k false t) rows) = rows /\
    fst (getAllAsync env (SelectByDone false) w) = Resolved (l1 ++ l2) /\
    fst (getAllAsync env (SelectByDone false) w') =
      Resolved (l1 ++ mkItem k false t :: l2) /\
    fst (getAllAsync env (SelectByDone true) w') =
      fst (getAllAsync env (SelectByDone true) w).
Proof.
  intros Ht Hi F0 F1 Hk.
  pose proof (new_rowid_fresh _ _ _ Hk) as Hfresh.
  destruct (insert_row_split (mkItem k false t) rows) as (r1 & r2 & E1 & E2).
  set (w' := log (EvStmt (InsertItem false t) true)
               (set_db (mkDb (user_version (db w))
                             (Some (insert_row (mkItem k false t) rows))) w)).
  exists w', (select_by_done false r1), (select_by_done false r2).
  assert (Hrun : addItemAsync env t w = (Resolved tt, w')).
  { unfold addItemAsync. rewrite (string_eqb_empty t Ht). simpl.
    eapply runAsync_ok; [exact F0|]. now apply (run_stmt_insert _ _ rows). }
  assert (Hi' : items (db w') = Some (insert_row (mkItem k false t) rows)) by reflexivity.
  assert (F1' : io_fault env (length (trace w')) = false).
  { subst w'; simpl. rewrite length_app; simpl.
    now replace (length (trace w) + 1)%nat with (S (length (trace w))) by lia. }
  repeat split; auto.
  - now apply (delete_row_insert (mkItem k false t)).
  - rewrite (getAllAsync_ok env false w rows Hi F0); simpl.
    now rewrite E1 at 1; rewrite select_app.
  - rewrite (getAllAsync_ok env false w' _ Hi' F1'); simpl.
    rewrite E2, select_app. reflexivity.
  - rewrite (getAllAsync_ok env true w' _ Hi' F1'),
            (getAllAsync_ok env true w rows Hi F0); simpl.
    rewrite E2, E1, !select_app. reflexivity.
Qed.

Lemma count_id_partition i rows :
  count_id i rows =
  (count_id i (select_by_done false rows) + count_id i (select_by_done true rows))%nat.
Proof.
  unfold count_id, select_by_done; induction rows as [|r rs IH]; simpl; [reflexivity|].
  destruct (done r), (id r =? i) eqn:E; simpl; rewrite ?E; simpl; lia.
Qed.

Lemma db_same_items d rows :
  items d = Some rows -> mkDb (user_version d) (Some rows) = d.
Proof. intros <-; apply db_eta. Qed.

(** C5. With the table there and no I/O error on the calls. For every
    record [r] of a well-formed table with [done = false],
    [updateItemAsDoneAsync (id r)] resolves and moves the record from the
    pending to the completed partition: before, its id is listed once as
    pending and not as completed; after, not as pending and once as
    completed, as [{id, done: true, value}], and the pending partition is the
    old one without it. For every id, whatever the table holds, the call and
    a second call both resolve and the second leaves the database exactly as
    the first left it; and when the id names no record the database is
    exactly what it was. *)
Theorem markDone_moves_record_once env w rows :
  items (db w) = Some rows ->
  io_fault env (length (trace w)) = false ->
  io_fault env (S (length (trace w))) = false ->
  (forall r,
     wf_table rows -> In r rows -> done r = false ->
     exists w1 rows1,
       updateItemAsDoneAsync env (id r) w = (Resolved tt, w1) /\
       items (db w1) = Some rows1 /\
       In r (select_by_done false rows) /\
       count_id (id r) (select_by_done false rows) = 1%nat /\
       count_id (id r) (select_by_done true rows) = 0%nat /\
       select_by_done false rows1 = delete_row (id r) (select_by_done false rows) /\
       In (mkItem (id r) true (value r)) (select_by_done true rows1) /\
       count_id (id r) (select_by_done false rows1) = 0%nat /\
       count_id (id r) (select_by_done true rows1) = 1%nat /\
       length rows1 = length rows) /\
  (forall j,
     exists w1 w2,
       updateItemAsDoneAsync env j w = (Resolved tt, w1) /\
       updateItemAsDoneAsync env j w1 = (Resolved tt, w2) /\
       db w2 = db w1 /\
       (~ In j (map id rows) -> db w1 = db w)).
Proof.
  intros Hi F0 F1. split.
  - intros r [Hs _] Hin Hd.
    set (rows1 := update_done true (id r) rows).
    assert (Hpend : In r (select_by_done false rows)) by (apply select_In; auto).
    assert (C1 : count_id (id r) (select_by_done false rows) = 1%nat)
      by (apply count_id_present; [now apply select_sorted|exact Hpend]).
    assert (C0 : count_id (id r) rows = 1%nat) by now apply count_id_present.
    assert (Hin1 : In (mkItem (id r) true (value r)) rows1)
      by now apply update_done_In.
    assert (C0' : count_id (id r) rows1 = 1%nat).
    { apply (count_id_present (mkItem (id r) true (value r)));
        [now apply update_done_sorted|exact Hin1]. }
    assert (S1 : select_by_done false rows1 = delete_row (id r) (select_by_done false rows))
      by apply select_update_done_true.
    assert (C2 : count_id (id r) (select_by_done false rows1) = 0%nat)
      by (rewrite S1; apply count_id_delete).
    eexists; exists rows1.
    split.
    { unfold updateItemAsDoneAsync. eapply runAsync_ok; [exact F0|].
      now apply (run_stmt_update _ _ rows). }
    split; [reflexivity|].
    split; [exact Hpend|]. split; [exact C1|].
    split; [rewrite (count_id_partition (id r) rows) in C0; lia|].
    split; [exact S1|].
    split; [apply select_In; auto|].
    split; [exact C2|].
    split; [rewrite (count_id_partition (id r) rows1) in C0'; lia|].
    apply update_done_length.
  - intros j.
    set (rows1 := update_done true j rows).
    set (w1 := log (EvStmt (UpdateDone true j) true)
                 (set_db (mkDb (user_version (db w)) (Some rows1)) w)).
    set (w2 := log (EvStmt (UpdateDone true j) true)
                 (set_db (mkDb (user_version (db w1)) (Some rows1)) w1)).
    exists w1, w2. split; [|split; [|split]].
    + unfold updateItemAsDoneAsync. eapply runAsync_ok; [exact F0|].
      now apply (run_stmt_update _ _ rows).
    + unfold updateItemAsDoneAsync.
      assert (F1' : io_fault env (length (trace w1)) = false).
      { subst w1; simpl. rewrite length_app; simpl.
        now replace (length (trace w) + 1)%nat with (S (length (trace w))) by lia. }
      assert (Hi1 : items (db w1) = Some rows1) by reflexivity.
      rewrite (runAsync_ok env _ w1 _ _ F1' (run_stmt_update _ _ rows1 true j Hi1)).
      subst w2 rows1. now rewrite update_done_idem.
    + reflexivity.
    + intros Hj. subst w1 rows1; simpl.
      rewrite update_done_absent by exact Hj. now apply db_same_items.
Qed.

(** C6. With the table there and no I/O error on the call,
    [deleteItemAsync i] resolves and leaves the table without any row of id
    [i]: the id is listed in neither partition, each partition is the old one
    without it, and the rows kept are those with another id. When no row has
    id [i] the database is exactly what it was. *)
Theorem delete_removes_record env w rows i :
  items (db w) = Some rows ->
  io_fault env (length (trace w)) = false ->
  exists w',
    deleteItemAsync env i w = (Resolved tt, w') /\
    items (db w') = Some (delete_row i rows) /\
    user_version (db w') = user_version (db w) /\
    (forall d, select_by_done d (delete_row i rows) = delete_row i (select_by_done d rows)) /\
    (forall d, count_id i (select_by_done d (delete_row i rows)) = 0%nat) /\
    (forall r, In r (delete_row i rows) <-> In r rows /\ id r <> i) /\
    (~ In i (map id rows) -> db w' = db w).
Proof.
  intros Hi F0. eexists. split.
  { unfold deleteItemAsync. eapply runAsync_ok; [exact F0|].
    now apply (run_stmt_delete _ _ rows). }
  simpl. split; [reflexivity|]. split; [reflexivity|].
  split; [intros d; apply select_delete_comm|].
  split; [intros d; rewrite select_delete_comm; apply count_id_delete|].
  split; [intros r; apply delete_row_In|].
  intros Hn. rewrite delete_row_absent by exact Hn. now apply db_same_items.
Qed.

Lemma spare_rowid_free rows : ~ In (spare_rowid rows) (map id rows).
Proof.
  unfold spare_rowid; destruct (max_rowid rows) as [m|] eqn:E.
  - apply max_rowid_upper in E. intros Hin.
    apply in_map_iff in Hin as (r & Hr & Hin).
    rewrite Forall_forall in E. specialize (E r Hin). lia.
  - apply max_rowid_none in E; subst. intros [].
Qed.

Lemma others_free k d : id_free k d -> others k d = items d.
Proof.
  unfold id_free, others; destruct (items d) as [rows|]; simpl; [|reflexivity].
  intros H; now rewrite delete_row_absent.
Qed.

(** Whatever happens to it, [runAsync] leaves the database as it was or as
    the engine left it after running the statement. *)
Lemma runAsync_db env s w :
  db (snd (runAsync env s w)) = db w \/
  exists out, run_stmt (rowid_rand env (length (trace w))) s (db w) =
              inr (db (snd (runAsync env s w)), out).
Proof.
  unfold runAsync, bind.
  destruct (statement env s w) as [r w'] eqn:E.
  apply statement_inv in E as (_ & _ & _ & Hr).
  destruct r; simpl; [right; exists a; tauto|left; exact Hr].
Qed.

(** C10. Frame of the database operations, in every environment and whether
    the call resolves or rejects: after [updateItemAsDoneAsync i] and after
    [deleteItemAsync i] the rows of every other id are the same rows (id,
    done and value) in the same order, and after [addItemAsync t] the rows
    that were there are all still there, unchanged and in the same order,
    the only possible addition being one row under an id that was free. None
    of the three touches the schema version. *)
Theorem crud_frame env w :
  (forall i,
     others i (db (snd (updateItemAsDoneAsync env i w))) = others i (db w) /\
     user_version (db (snd (updateItemAsDoneAsync env i w))) = user_version (db w)) /\
  (forall i,
     others i (db (snd (deleteItemAsync env i w))) = others i (db w) /\
     user_version (db (snd (deleteItemAsync env i w))) = user_version (db w)) /\
  (forall t, exists k,
     id_free k (db w) /\
     others k (db (snd (addItemAsync env t w))) = items (db w) /\
     user_version (db (snd (addItemAsync env t w))) = user_version (db w)).
Proof.
  split; [|split].
  - intros i. unfold updateItemAsDoneAsync.
    destruct (runAsync_db env (UpdateDone true i) w) as [->|(out & H)]; [auto|].
    simpl in H; unfold on_items in H.
    destruct (items (db w)) as [rows|] eqn:E; [|discriminate].
    injection H as H _. rewrite <- H. unfold others; simpl. rewrite E; simpl.
    now rewrite delete_row_update.
  - intros i. unfold deleteItemAsync.
    destruct (runAsync_db env (DeleteItem i) w) as [->|(out & H)]; [auto|].
    simpl in H; unfold on_items in H.
    destruct (items (db w)) as [rows|] eqn:E; [|discriminate].
    injection H as H _. rewrite <- H. unfold others; simpl. rewrite E; simpl.
    now rewrite delete_row_idem.
  - intros t.
    assert (Hsame : forall w', db w' = db w -> exists k,
               id_free k (db w) /\ others k (db w') = items (db w) /\
               user_version (db w') = user_version (db w)).
    { intros w' ->. destruct (items (db w)) as [rows|] eqn:E.
      - exists (spare_rowid rows).
        assert (id_free (spare_rowid rows) (db w))
          by (unfold id_free; rewrite E; apply spare_rowid_free).
        repeat split; auto. rewrite others_free; auto.
      - exists 0. unfold id_free, others; rewrite E; simpl; auto. }
    unfold addItemAsync. destruct (negb (String.eqb t EmptyString)).
    + destruct (runAsync_db env (InsertItem false t) w) as [H|(out & H)];
        [now apply Hsame|].
      simpl in H; unfold on_items in H.
      destruct (items (db w)) as [rows|] eqn:E; [|discriminate].
      destruct (new_rowid _ rows) as [k|] eqn:K; [|discriminate].
      injection H as H _. rewrite <- H. exists k.
      pose proof (new_rowid_fresh _ _ _ K) as Hk.
      unfold id_free, others; simpl; rewrite E. repeat split; auto.
      f_equal. now apply (delete_row_insert (mkItem k false t)).
    + now apply Hsame.
Qed.

(** C8. With the table there (a well-formed row-id table) and no I/O error
    on the call, the [SELECT * FROM items WHERE done = ?] of [refetchItems]
    resolves, changes nothing, and returns exactly the rows whose [done]
    equals the flag, in strictly ascending [id]. Ascending [id] is insertion
    order: a row inserted while the largest id is below the largest row id
    there is gets listed after every row that was there. When its two reads
    meet no I/O error, [refetchItems] stores the two listings in
    [todoItems] and [doneItems]. *)
Theorem listByStatus_filters_in_id_order env w rows d :
  items (db w) = Some rows ->
  wf_table rows ->
  io_fault env (length (trace w)) = false ->
  exists w',
    getAllAsync env (SelectByDone d) w = (Resolved (select_by_done d rows), w') /\
    db w' = db w /\
    (forall r, In r (select_by_done d rows) <-> In r rows /\ done r = d) /\
    StronglySorted id_lt (select_by_done d rows) /\
    (forall cand k t,
       (forall m, max_rowid rows = Some m -> m < MAX_ROWID) ->
       new_rowid cand rows = Some k ->
       select_by_done false (insert_row (mkItem k false t) rows) =
       select_by_done false rows ++ [mkItem k false t]) /\
    (io_fault env (length (trace w) + 2) = false ->
     io_fault env (length (trace w) + 3) = false ->
     todoItems (snd (refetchItems env w)) = select_by_done false rows /\
     doneItems (snd (refetchItems env w)) = select_by_done true rows).
Proof.
  intros Hi [Hs _] F0. eexists. split; [now apply getAllAsync_ok|].
  split; [reflexivity|].
  split; [intros r; apply select_In|].
  split; [now apply select_sorted|].
  split.
  - intros cand k t Hm Hk.
    rewrite insert_row_last by (simpl; eapply new_rowid_above; eassumption).
    now rewrite select_app.
  - intros F2 F3. destruct (refetchItems_ok env w rows Hi F2 F3) as (H1 & H2 & _). auto.
Qed.

(** ** The migration *)

(** Every way a call of [migrateDbIfNeeded] can go. [ws] is the world as the
    sync call leaves it, [v] the version read from it. *)
Lemma migrateDbIfNeeded_cases env w r w' :
  migrateDbIfNeeded env w = (r, w') ->
  let ws := snd (detached (syncLibSQL env) w) in
  let v := user_version (db ws) in
  let n := length (trace w) in
  exists ok, trace ws = trace w ++ [EvSyncLibSQL ok] /\
  ( (* the read of the version fails *)
    (io_fault env (n + 1) = true /\ r = Rejected IoError /\ db w' = db ws /\
     trace w' = trace w ++ [EvSyncLibSQL ok; EvStmt PragmaUserVersion false])
    \/ (* the version is current *)
    (io_fault env (n + 1) = false /\ v >= DATABASE_VERSION /\
     r = Resolved tt /\ db w' = db ws /\
     trace w' = trace w ++ [EvSyncLibSQL ok; EvStmt PragmaUserVersion true])
    \/ (* version 0, the table cannot be created *)
    (io_fault env (n + 1) = false /\ v = 0 /\ io_fault env (n + 2) = true /\
     r = Rejected IoError /\ db w' = db ws /\
     trace w' = trace w ++ [EvSyncLibSQL ok; EvStmt PragmaUserVersion true;
                            EvStmt CreateTableItems false])
    \/ (* version 0, the table is created, the version cannot be written *)
    (io_fault env (n + 1) = false /\ v = 0 /\ io_fault env (n + 2) = false /\
     io_fault env (n + 3) = true /\
     r = Rejected IoError /\ db w' = with_items_table (db ws) /\
     trace w' = trace w ++ [EvSyncLibSQL ok; EvStmt PragmaUserVersion true;
                            EvStmt CreateTableItems true;
                            EvStmt (PragmaSetUserVersion DATABASE_VERSION) false])
    \/ (* version 0, migrated *)
    (io_fault env (n + 1) = false /\ v = 0 /\ io_fault env (n + 2) = false /\
     io_fault env (n + 3) = false /\
     r = Resolved tt /\
     db w' = mkDb DATABASE_VERSION (items (with_items_table (db ws))) /\
     trace w' = trace w ++ [EvSyncLibSQL ok; EvStmt PragmaUserVersion true;
                            EvStmt CreateTableItems true;
                            EvStmt (PragmaSetUserVersion DATABASE_VERSION) true])
    \/ (* a negative version, the version cannot be written *)
    (io_fault env (n + 1) = false /\ v < 0 /\ io_fault env (n + 2) = true /\
     r = Rejected IoError /\ db w' = db ws /\
     trace w' = trace w ++ [EvSyncLibSQL ok; EvStmt PragmaUserVersion true;
                            EvStmt (PragmaSetUserVersion DATABASE_VERSION) false])
    \/ (* a negative version, only the version is written *)
    (io_fault env (n + 1) = false /\ v < 0 /\ io_fault env (n + 2) = false /\
     r = Resolved tt /\ db w' = mkDb DATABASE_VERSION (items (db ws)) /\
     trace w' = trace w ++ [EvSyncLibSQL ok; EvStmt PragmaUserVersion true;
                            EvStmt (PragmaSetUserVersion DATABASE_VERSION) true]) ).
Proof.
  intros H ws v n.
  destruct (detached (syncLibSQL env) w) as [r0 w0] eqn:E0.
  pose proof (detached_sync_inv _ _ _ _ E0) as (-> & _ & ok & T0 & _).
  exists ok. split; [subst ws; exact T0|].
  assert (L1 : length (trace w0) = (n + 1)%nat)
    by (rewrite T0, length_app; reflexivity).
  unfold migrateDbIfNeeded in H. rewrite (bind_resolved _ _ _ _ _ E0) in H.
  subst ws v; cbn [snd] in *. unfold DATABASE_VERSION in *.
  destruct (io_fault env (n + 1)) eqn:F1.
  { pose proof F1 as F1'. rewrite <- L1 in F1'.
    rewrite (bind_rejected _ _ _ _ _ (getFirstAsync_fault _ PragmaUserVersion _ F1')) in H.
    inv_pair. left. simpl. rewrite T0, <- app_assoc. auto. }
  set (w1 := log (EvStmt PragmaUserVersion true) (set_db (db w0) w0)).
  assert (G1 : getFirstAsync env PragmaUserVersion w0 =
               (Resolved (Some (RowVersion (user_version (db w0)))), w1)).
  { apply (getFirstAsync_ok env _ w0 (db w0) [RowVersion (user_version (db w0))]);
      [rewrite L1; exact F1|reflexivity]. }
  rewrite (bind_resolved _ _ _ _ _ G1) in H.
  rewrite (bind_resolved _ _ _ (user_version (db w0)) w1 eq_refl) in H.
  assert (L2 : length (trace w1) = (n + 2)%nat)
    by (subst w1; simpl; rewrite length_app, L1; simpl; lia).
  assert (T1 : trace w1 = trace w ++ [EvSyncLibSQL ok; EvStmt PragmaUserVersion true])
    by (subst w1; simpl; rewrite T0, <- app_assoc; reflexivity).
  assert (D1 : db w1 = db w0) by reflexivity.
  clearbody w1.
  destruct (user_version (db w0) >=? 1) eqn:V1.
  { unfold ret in H. inv_pair. right; left. rewrite Z.geb_le in V1.
    repeat split; auto. lia. }
  assert (Hv : user_version (db w0) < 1).
  { destruct (Z.geb_spec (user_version (db w0)) 1) as [?|?]; [discriminate|lia]. }
  destruct (user_version (db w0) =? 0) eqn:V0.
  - apply Z.eqb_eq in V0.
    destruct (io_fault env (n + 2)) eqn:F2.
    { pose proof F2 as F2'. rewrite <- L2 in F2'.
      pose proof (execAsync_fault env CreateTableItems _ F2') as G2.
      rewrite (bind_rejected _ _ _ _ _ (bind_rejected _ _ _ _ _ G2)) in H.
      inv_pair. do 2 right; left. simpl. rewrite T1, <- app_assoc, D1.
      auto 10. }
    set (w2 := log (EvStmt CreateTableItems true)
                 (set_db (with_items_table (db w0)) w1)).
    assert (G2 : execAsync env CreateTableItems w1 = (Resolved tt, w2)).
    { apply (execAsync_ok env _ w1 _ []); [rewrite L2; exact F2|].
      simpl. unfold with_items_table. rewrite D1.
      destruct (items (db w0)); reflexivity. }
    rewrite (bind_resolved _ _ _ _ _ (bind_resolved _ _ _ _ _ G2)) in H.
    assert (L3 : length (trace w2) = (n + 3)%nat)
      by (subst w2; simpl; rewrite length_app, L2; simpl; lia).
    assert (T2 : trace w2 = trace w ++ [EvSyncLibSQL ok; EvStmt PragmaUserVersion true;
                                        EvStmt CreateTableItems true])
      by (subst w2; simpl; rewrite T1, <- app_assoc; reflexivity).
    assert (D2 : db w2 = with_items_table (db w0)) by reflexivity.
    clearbody w2.
    destruct (io_fault env (n + 3)) eqn:F3.
    + pose proof F3 as F3'. rewrite <- L3 in F3'.
      rewrite (execAsync_fault env _ _ F3') in H.
      inv_pair. do 3 right; left. simpl. rewrite T2, <- app_assoc, D2. auto 10.
    + rewrite (execAsync_ok env (PragmaSetUserVersion 1) w2 _ []
                 ltac:(rewrite L3; exact F3) eq_refl) in H.
      inv_pair. do 4 right; left. simpl. rewrite T2, <- app_assoc, D2. auto 10.
  - apply Z.eqb_neq in V0.
    rewrite (bind_resolved _ _ _ (user_version (db w0)) w1 eq_refl) in H.
    destruct (io_fault env (n + 2)) eqn:F2.
    + pose proof F2 as F2'. rewrite <- L2 in F2'.
      rewrite (execAsync_fault env _ _ F2') in H.
      inv_pair. do 5 right; left. simpl. rewrite T1, <- app_assoc, D1.
      repeat split; auto. lia.
    + rewrite (execAsync_ok env (PragmaSetUserVersion 1) w1 _ []
                 ltac:(rewrite L2; exact F2) eq_refl) in H.
      inv_pair. do 6 right. simpl. rewrite T1, <- app_assoc, D1.
      repeat split; auto. lia.
Qed.

Lemma detached_sync_db env w :
  db (snd (detached (syncLibSQL env) w)) =
  match remote env (length (trace w)) (db w) with
  | Some d => d
  | None => db w
  end.
Proof.
  unfold detached, syncLibSQL.
  destruct (remote env (length (trace w)) (db w)); reflexivity.
Qed.




(** C1. When a statement of [migrateDbIfNeeded] fails, the call rejects: the
    error reaches the caller, [App] rejects with it and [Main] is never
    mounted (no refresh is requested). The version is then the one the call
    read before migrating, the value the sync call left, which is the value
    before the call when the sync failed: a failed run never advances it. *)
Theorem migration_failure_keeps_version env w :
  (exists s, In (EvStmt s false) (new_events w (snd (migrateDbIfNeeded env w)))) ->
  (exists e,
     fst (migrateDbIfNeeded env w) = Rejected e /\
     fst (App env w) = Rejected e /\
     count is_refetch (new_events w (snd (App env w))) = 0%nat) /\
  user_version (db (snd (migrateDbIfNeeded env w))) =
    user_version (db (snd (detached (syncLibSQL env) w))) /\
  (remote env (length (trace w)) (db w) = None ->
   user_version (db (snd (migrateDbIfNeeded env w))) = user_version (db w)).
Proof.
  intros (s & Hs).
  assert (Hsync : remote env (length (trace w)) (db w) = None ->
                  db (snd (detached (syncLibSQL env) w)) = db w)
    by (intros Hr; rewrite detached_sync_db, Hr; reflexivity).
  unfold App.
  destruct (migrateDbIfNeeded env w) as [r w'] eqn:E.
  pose proof (migrateDbIfNeeded_cases _ _ _ _ E) as C. cbv zeta in C.
  destruct C as (ok & _ & C). cbn [fst snd] in *.
  assert (Hrej : forall e evs, r = Rejected e -> trace w' = trace w ++ evs ->
                 count is_refetch evs = 0%nat ->
                 exists e0, r = Rejected e0 /\
                   fst (bind (migrateDbIfNeeded env) (fun _ => onMount env) w) = Rejected e0 /\
                   count is_refetch
                     (new_events w (snd (bind (migrateDbIfNeeded env) (fun _ => onMount env) w))) = 0%nat).
  { intros e evs -> T Q. exists e. rewrite (bind_rejected _ _ _ _ _ E). cbn [fst snd].
    rewrite (new_events_app _ _ _ T). auto. }
  assert (Hno : forall evs, trace w' = trace w ++ evs ->
                (forall s0, ~ In (EvStmt s0 false) evs) -> False).
  { intros evs T Hn. rewrite (new_events_app _ _ _ T) in Hs. exact (Hn s Hs). }
  destruct C as [C|[C|[C|[C|[C|[C|C]]]]]].
  - destruct C as (_ & Hr & D & T).
    split; [eapply Hrej; eauto|]. rewrite D. split; [reflexivity|].
    intros Hn; now rewrite Hsync.
  - destruct C as (_ & _ & _ & _ & T). exfalso. apply (Hno _ T).
    intros s0 [H|[H|[]]]; discriminate.
  - destruct C as (_ & _ & _ & Hr & D & T).
    split; [eapply Hrej; eauto|]. rewrite D. split; [reflexivity|].
    intros Hn; now rewrite Hsync.
  - destruct C as (_ & _ & _ & _ & Hr & D & T).
    split; [eapply Hrej; eauto|]. rewrite D.
    assert (Hw : forall d, user_version (with_items_table d) = user_version d)
      by (intros d; unfold with_items_table; destruct (items d); reflexivity).
    rewrite Hw. split; [reflexivity|]. intros Hn; now rewrite Hsync.
  - destruct C as (_ & _ & _ & _ & _ & _ & T). exfalso. apply (Hno _ T).
    intros s0 [H|[H|[H|[H|[]]]]]; discriminate.
  - destruct C as (_ & _ & _ & Hr & D & T).
    split; [eapply Hrej; eauto|]. rewrite D. split; [reflexivity|].
    intros Hn; now rewrite Hsync.
  - destruct C as (_ & _ & _ & _ & _ & T). exfalso. apply (Hno _ T).
    intros s0 [H|[H|[H|[]]]]; discriminate.
Qed.

(** ** The sync trigger *)

Lemma elapse_inv env ms w e r w' :
  interval w = Some e ->
  elapse env ms w = (r, w') ->
  r = Resolved tt /\
  ((forall k d, remote env k d = None) -> db w' = db w) /\
  exists evs, trace w' = trace w ++ evs /\
    count is_sync evs = Z.to_nat ((e + ms) / POLL_MS) /\
    count is_refetch evs = Z.to_nat ((e + ms) / POLL_MS).
Proof.
  unfold elapse; intros -> H. unfold bind in H.
  destruct (repeat_ticks env (Z.to_nat ((e + ms) / POLL_MS)) w) as [r1 w1] eqn:E1.
  apply repeat_ticks_inv in E1 as (-> & _ & _ & D & evs & T & C1 & C2).
  unfold set_interval in H; inv_pair; simpl. eauto 10.
Qed.

Lemma elapse_events env ms w e :
  interval w = Some e ->
  fst (elapse env ms w) = Resolved tt /\
  db (snd (elapse env ms w)) =
    db (snd (repeat_ticks env (Z.to_nat ((e + ms) / POLL_MS)) w)) /\
  new_events w (snd (elapse env ms w)) =
    new_events w (snd (repeat_ticks env (Z.to_nat ((e + ms) / POLL_MS)) w)).
Proof.
  unfold elapse; intros ->. unfold bind.
  destruct (repeat_ticks env (Z.to_nat ((e + ms) / POLL_MS)) w) as [r1 w1] eqn:E1.
  apply repeat_ticks_inv in E1 as (-> & _).
  unfold set_interval; simpl. auto.
Qed.

(** C9. Every tick of the interval, in every environment and world, returns
    normally after exactly one call of the sync primitive followed by exactly
    one refresh: the events it adds are the sync call, then the refresh
    request, then the transaction of that refresh, which opens, reads the
    pending partition, reads the completed one if the first read succeeded,
    and commits if both did; nothing else, so no second sync call, no second
    refresh and no write. A read that fails leaves its list as it was. With
    the table there, no I/O error on the two reads and a sync that fails or
    brings nothing, both reads succeed, the database is what it was and the
    two lists are the pending and the completed partition of the table.
    [sync(refetch)], by hand or from the timer, always makes its one sync
    call and then runs the refresh exactly when [refetch] is set. From the
    moment the flag is switched on, [ms / 2000] ticks fire in [ms]
    milliseconds, one after the other, each its sync call followed by its
    refresh; switched off, none fires. *)
Theorem tick_syncs_once_then_refreshes_once env w :
  (exists ok first second,
     fst (tick env w) = Resolved tt /\
     new_events w (snd (tick env w)) =
       EvSyncLibSQL ok :: EvRefetchItems :: refresh_events first second /\
     (ok = false <-> remote env (length (trace w)) (db w) = None) /\
     (first = false ->
      todoItems (snd (tick env w)) = todoItems w /\
      doneItems (snd (tick env w)) = doneItems w) /\
     (second = false -> doneItems (snd (tick env w)) = doneItems w)) /\
  count is_sync (new_events w (snd (tick env w))) = 1%nat /\
  count is_refetch (new_events w (snd (tick env w))) = 1%nat /\
  count is_write_event (new_events w (snd (tick env w))) = 0%nat /\
  (forall rows,
     items (db w) = Some rows ->
     sync_brings_nothing env w ->
     io_fault env (length (trace w) + 3) = false ->
     io_fault env (length (trace w) + 4) = false ->
     (exists ok,
        new_events w (snd (tick env w)) =
        EvSyncLibSQL ok :: EvRefetchItems :: refresh_events true true) /\
     db (snd (tick env w)) = db w /\
     shows rows (snd (tick env w))) /\
  (forall b, exists ok first second,
     fst (sync env b w) = Resolved tt /\
     new_events w (snd (sync env b w)) =
       EvSyncLibSQL ok ::
         (if b then EvRefetchItems :: refresh_events first second else []) /\
     (b = false ->
      todoItems (snd (sync env b w)) = todoItems w /\
      doneItems (snd (sync env b w)) = doneItems w)) /\
  (forall ms,
     enablePollingSync w = false ->
     let w1 := snd (setEnablePollingSync true w) in
     enablePollingSync w1 = true /\
     fst (elapse env ms w1) = Resolved tt /\
     tick_rounds (Z.to_nat (ms / POLL_MS)) (new_events w1 (snd (elapse env ms w1))) /\
     count is_sync (new_events w1 (snd (elapse env ms w1))) = Z.to_nat (ms / POLL_MS) /\
     count is_refetch (new_events w1 (snd (elapse env ms w1))) = Z.to_nat (ms / POLL_MS)) /\
  (forall ms,
     enablePollingSync w = true ->
     let w0 := snd (setEnablePollingSync false w) in
     enablePollingSync w0 = false /\ elapse env ms w0 = (Resolved tt, w0)).
Proof.
  assert (Hsync : forall b, exists ok first second,
     fst (sync env b w) = Resolved tt /\
     new_events w (snd (sync env b w)) =
       EvSyncLibSQL ok ::
         (if b then EvRefetchItems :: refresh_events first second else []) /\
     (ok = false <-> remote env (length (trace w)) (db w) = None) /\
     (b = false \/ first = false ->
      todoItems (snd (sync env b w)) = todoItems w /\
      doneItems (snd (sync env b w)) = doneItems w) /\
     (b = false \/ second = false -> doneItems (snd (sync env b w)) = doneItems w)).
  { intros b. destruct (sync_shape env b w) as (ok & first & second & R & T & Hok & V1 & V2).
    exists ok, first, second. rewrite (new_events_app _ _ _ T). auto. }
  split; [|split; [|split; [|split; [|split; [|split; [|split]]]]]].
  - destruct (Hsync true) as (ok & first & second & R & T & Hok & V1 & V2).
    exists ok, first, second. unfold tick. auto 10.
  - destruct (Hsync true) as (ok & first & second & _ & T & _).
    unfold tick. rewrite T. destruct first, second; reflexivity.
  - destruct (Hsync true) as (ok & first & second & _ & T & _).
    unfold tick. rewrite T. destruct first, second; reflexivity.
  - destruct (Hsync true) as (ok & first & second & _ & T & _).
    unfold tick. rewrite T. destruct first, second; reflexivity.
  - intros rows Hi Hn F3 F4. exact (tick_shows env w rows Hi Hn F3 F4).
  - intros b. destruct (Hsync b) as (ok & first & second & R & T & _ & V1 & _).
    exists ok, first, second. auto.
  - intros ms Hf w1.
    assert (Hi : interval w1 = Some 0)
      by (subst w1; unfold setEnablePollingSync; rewrite Hf; reflexivity).
    assert (Hf1 : enablePollingSync w1 = true)
      by (subst w1; unfold setEnablePollingSync; rewrite Hf; reflexivity).
    clearbody w1. split; [exact Hf1|].
    destruct (elapse_events env ms w1 0 Hi) as (R & _ & Ev).
    split; [exact R|]. rewrite Ev. change (0 + ms) with ms.
    split; [apply repeat_ticks_rounds|].
    destruct (repeat_ticks env (Z.to_nat (ms / POLL_MS)) w1) as [r w'] eqn:E.
    apply repeat_ticks_inv in E as (_ & _ & _ & _ & evs & T & C1 & C2).
    cbn [snd]. rewrite (new_events_app _ _ _ T). auto.
  - intros ms Hf w0. subst w0. unfold setEnablePollingSync; rewrite Hf. simpl.
    split; reflexivity.
Qed.

(** C2. With a sync that fails on every call, any number of ticks, and any
    stretch of time with the interval set, ends normally with the database
    untouched: same records in both partitions, same version. Each tick
    still made its sync call, [(e + ms) / 2000] of them in [ms] milliseconds
    on an interval that last fired [e] milliseconds ago, and none sent a
    statement that writes. That the failed call of the primitive itself
    leaves the database alone is the model's assumption on the library. The
    store stays usable after any number of such ticks: when the table is
    there and no statement meets an I/O error, the lists after one tick or
    more are the two partitions of the table, listing a partition returns
    it, completing a record resolves and sets its flag in the table, deleting
    resolves and removes the row, and adding a non-empty text resolves and
    inserts one pending row under the id the engine picks, which exists
    while the ids are below [MAX_ROWID]. *)
Theorem failing_sync_leaves_local_store env w :
  (forall k d, remote env k d = None) ->
  (forall n,
     fst (repeat_ticks env n w) = Resolved tt /\
     db (snd (repeat_ticks env n w)) = db w /\
     count is_sync (new_events w (snd (repeat_ticks env n w))) = n /\
     count is_write_event (new_events w (snd (repeat_ticks env n w))) = 0%nat) /\
  (forall ms,
     fst (elapse env ms w) = Resolved tt /\
     db (snd (elapse env ms w)) = db w /\
     (forall e, interval w = Some e ->
        count is_sync (new_events w (snd (elapse env ms w))) =
          Z.to_nat ((e + ms) / POLL_MS) /\
        count is_write_event (new_events w (snd (elapse env ms w))) = 0%nat)) /\
  (forall b,
     fst (sync env b w) = Resolved tt /\ db (snd (sync env b w)) = db w) /\
  (forall n rows,
     items (db w) = Some rows ->
     no_io_fault env ->
     let w' := snd (repeat_ticks env n w) in
     (n <> 0%nat -> shows rows w') /\
     (forall d,
        getAllAsync env (SelectByDone d) w' =
        (Resolved (select_by_done d rows), log (EvStmt (SelectByDone d) true) w')) /\
     (forall i,
        updateItemAsDoneAsync env i w' =
        (Resolved tt,
         log (EvStmt (UpdateDone true i) true)
           (set_db (mkDb (user_version (db w)) (Some (update_done true i rows))) w'))) /\
     (forall i,
        deleteItemAsync env i w' =
        (Resolved tt,
         log (EvStmt (DeleteItem i) true)
           (set_db (mkDb (user_version (db w)) (Some (delete_row i rows))) w'))) /\
     (forall t k,
        t <> EmptyString ->
        new_rowid (rowid_rand env (length (trace w'))) rows = Some k ->
        addItemAsync env t w' =
        (Resolved tt,
         log (EvStmt (InsertItem false t) true)
           (set_db (mkDb (user_version (db w))
                         (Some (insert_row (mkItem k false t) rows))) w'))) /\
     (forall t, (forall m, max_rowid rows = Some m -> m < MAX_ROWID) ->
                fst (addItemAsync env t w') = Resolved tt)).
Proof.
  intros Hoff.
  assert (Hticks : forall n w0,
     fst (repeat_ticks env n w0) = Resolved tt /\
     db (snd (repeat_ticks env n w0)) = db w0 /\
     count is_sync (new_events w0 (snd (repeat_ticks env n w0))) = n /\
     count is_write_event (new_events w0 (snd (repeat_ticks env n w0))) = 0%nat).
  { intros n w0. destruct (repeat_ticks_rounds env n w0) as (_ & W).
    destruct (repeat_ticks env n w0) as [r w'] eqn:E.
    apply repeat_ticks_inv in E as (-> & _ & _ & D & evs & T & C1 & _).
    cbn [fst snd] in *. rewrite (new_events_app _ _ _ T) in *. auto. }
  split; [intros n; apply Hticks|]. split; [|split].
  - intros ms. destruct (interval w) as [e|] eqn:Hi.
    + destruct (elapse_events env ms w e Hi) as (R & D & Ev).
      destruct (Hticks (Z.to_nat ((e + ms) / POLL_MS)) w) as (_ & D' & C & W).
      split; [exact R|]. split; [congruence|].
      intros e' He'. injection He' as <-. rewrite Ev. auto.
    + unfold elapse. rewrite Hi. cbn [fst snd].
      split; [reflexivity|]. split; [reflexivity|]. intros e He; discriminate.
  - intros b. destruct (sync env b w) as [r w'] eqn:E.
    apply sync_inv in E as (-> & _ & _ & D & _). cbn [fst snd]. auto.
  - intros n rows Hi Hio w'.
    assert (Hd : db w' = db w) by (subst w'; apply Hticks).
    assert (Hi' : items (db w') = Some rows) by (rewrite Hd; exact Hi).
    assert (Hv : n <> 0%nat -> shows rows w').
    { subst w'. destruct n as [|n]; [congruence|]. intros _.
      apply repeat_ticks_shows; assumption. }
    clearbody w'. split; [exact Hv|]. rewrite <- Hd.
    split; [|split; [|split; [|split]]].
    + intros d. apply getAllAsync_ok; [exact Hi'|apply Hio].
    + intros i. unfold updateItemAsDoneAsync.
      exact (runAsync_ok env _ w' _ _ (Hio _) (run_stmt_update _ _ rows true i Hi')).
    + intros i. unfold deleteItemAsync.
      exact (runAsync_ok env _ w' _ _ (Hio _) (run_stmt_delete _ _ rows i Hi')).
    + intros t k Ht K. unfold addItemAsync.
      rewrite (string_eqb_empty t Ht). cbn [negb].
      exact (runAsync_ok env _ w' _ _ (Hio _) (run_stmt_insert _ _ rows k false t Hi' K)).
    + intros t Hm. unfold addItemAsync.
      destruct (negb (String.eqb t EmptyString)); [|reflexivity].
      destruct (new_rowid (rowid_rand env (length (trace w'))) rows) as [k|] eqn:K.
      * now rewrite (runAsync_ok env _ w' _ _ (Hio _) (run_stmt_insert _ _ rows k false t Hi' K)).
      * exfalso. unfold new_rowid in K.
        destruct (max_rowid rows) as [m|]; [|discriminate].
        specialize (Hm m eq_refl). apply Z.ltb_lt in Hm. rewrite Hm in K. discriminate.
Qed.

(** * The statements at sample inputs *)

Ltac table_ok := apply wf_tableb_ok; reflexivity.

Lemma demo_rows_wf : wf_table demo_rows.
Proof. table_ok. Qed.

(** A first start whose [CREATE TABLE] fails: the call rejects and the
    version stays 0. *)
Lemma migration_failure_keeps_version_witness :
  (exists s, In (EvStmt s false)
     (new_events (fresh_world (mkDb 0 None))
        (snd (migrateDbIfNeeded create_fails_env (fresh_world (mkDb 0 None)))))) /\
  ((exists e,
      fst (migrateDbIfNeeded create_fails_env (fresh_world (mkDb 0 None))) = Rejected e /\
      fst (App create_fails_env (fresh_world (mkDb 0 None))) = Rejected e /\
      count is_refetch
        (new_events (fresh_world (mkDb 0 None))
           (snd (App create_fails_env (fresh_world (mkDb 0 None))))) = 0%nat) /\
   user_version (db (snd (migrateDbIfNeeded create_fails_env (fresh_world (mkDb 0 None))))) =
     user_version (db (snd (detached (syncLibSQL create_fails_env) (fresh_world (mkDb 0 None))))) /\
   (remote create_fails_env (length (trace (fresh_world (mkDb 0 None))))
      (db (fresh_world (mkDb 0 None))) = None ->
    user_version (db (snd (migrateDbIfNeeded create_fails_env (fresh_world (mkDb 0 None))))) =
      user_version (db (fresh_world (mkDb 0 None))))).
Proof.
  assert (H : exists s, In (EvStmt s false)
     (new_events (fresh_world (mkDb 0 None))
        (snd (migrateDbIfNeeded create_fails_env (fresh_world (mkDb 0 None))))))
    by (exists CreateTableItems; vm_compute; tauto).
  split; [exact H|].
  exact (migration_failure_keeps_version create_fails_env (fresh_world (mkDb 0 None)) H).
Defined.

(** Offline, auto-sync switched on over the three tasks. *)
Lemma failing_sync_leaves_local_store_witness :
  (forall k d, remote offline_env k d = None) /\
  (fst (elapse offline_env 4000 polling_world) = Resolved tt /\
   db (snd (elapse offline_env 4000 polling_world)) = db polling_world /\
   count is_sync (new_events polling_world (snd (elapse offline_env 4000 polling_world))) =
     2%nat /\
   count is_write_event
     (new_events polling_world (snd (elapse offline_env 4000 polling_world))) = 0%nat) /\
  (let w' := snd (repeat_ticks offline_env 2 polling_world) in
   shows demo_rows w' /\
   fst (getAllAsync offline_env (SelectByDone false) w') =
     Resolved [mkItem 1 false "milk"; mkItem 5 false "eggs"] /\
   db (snd (updateItemAsDoneAsync offline_env 5 w')) =
     mkDb 1 (Some [mkItem 1 false "milk"; mkItem 2 true "bread"; mkItem 5 true "eggs"]) /\
   db (snd (deleteItemAsync offline_env 2 w')) =
     mkDb 1 (Some [mkItem 1 false "milk"; mkItem 5 false "eggs"]) /\
   db (snd (addItemAsync offline_env "tea" w')) =
     mkDb 1 (Some (demo_rows ++ [mkItem 6 false "tea"]))).
Proof.
  assert (Hoff : forall k d, remote offline_env k d = None) by (intros k d; reflexivity).
  assert (Hio : no_io_fault offline_env) by (intros k; reflexivity).
  destruct (failing_sync_leaves_local_store offline_env polling_world Hoff)
    as (_ & Hel & _ & Huse).
  split; [exact Hoff|]. split.
  - destruct (Hel 4000) as (R & D & C).
    destruct (C 0 eq_refl) as (C1 & C2).
    split; [exact R|]. split; [exact D|]. split; [exact C1|exact C2].
  - destruct (Huse 2%nat demo_rows eq_refl Hio) as (V & G & U & Dl & A & _).
    cbv zeta. split; [apply V; discriminate|].
    rewrite (G false), (U 5), (Dl 2).
    rewrite (A "tea"%string 6); [repeat split|discriminate|reflexivity].
Defined.


(** Adding "tea" to the three tasks: the new row gets id 6. *)
Lemma add_inserts_one_pending_record_witness :
  ("tea"%string <> EmptyString /\
   items (db demo_world) = Some demo_rows /\
   io_fault quiet_env (length (trace demo_world)) = false /\
   io_fault quiet_env (S (length (trace demo_world))) = false /\
   new_rowid (rowid_rand quiet_env (length (trace demo_world))) demo_rows = Some 6) /\
  exists w' l1 l2,
    addItemAsync quiet_env "tea" demo_world = (Resolved tt, w') /\
    items (db w') = Some (insert_row (mkItem 6 false "tea") demo_rows) /\
    ~ In 6 (map id demo_rows) /\
    delete_row 6 (insert_row (mkItem 6 false "tea") demo_rows) = demo_rows /\
    fst (getAllAsync quiet_env (SelectByDone false) demo_world) = Resolved (l1 ++ l2) /\
    fst (getAllAsync quiet_env (SelectByDone false) w') =
      Resolved (l1 ++ mkItem 6 false "tea" :: l2) /\
    fst (getAllAsync quiet_env (SelectByDone true) w') =
      fst (getAllAsync quiet_env (SelectByDone true) demo_world).
Proof.
  split.
  - repeat split; try reflexivity. discriminate.
  - apply (add_inserts_one_pending_record quiet_env demo_world "tea" demo_rows 6);
      try reflexivity. discriminate.
Defined.

(** Completing "eggs", the pending task of id 5, and asking for id 7, which
    names no task. *)
Lemma markDone_moves_record_once_witness :
  (items (db demo_world) = Some demo_rows /\
   io_fault quiet_env (length (trace demo_world)) = false /\
   io_fault quiet_env (S (length (trace demo_world))) = false) /\
  ((wf_table demo_rows /\ In (mkItem 5 false "eggs") demo_rows /\
    done (mkItem 5 false "eggs") = false) /\
   (exists w1 rows1,
      updateItemAsDoneAsync quiet_env (id (mkItem 5 false "eggs")) demo_world =
        (Resolved tt, w1) /\
      items (db w1) = Some rows1 /\
      In (mkItem 5 false "eggs") (select_by_done false demo_rows) /\
      count_id (id (mkItem 5 false "eggs")) (select_by_done false demo_rows) = 1%nat /\
      count_id (id (mkItem 5 false "eggs")) (select_by_done true demo_rows) = 0%nat /\
      select_by_done false rows1 =
        delete_row (id (mkItem 5 false "eggs")) (select_by_done false demo_rows) /\
      In (mkItem (id (mkItem 5 false "eggs")) true (value (mkItem 5 false "eggs")))
         (select_by_done true rows1) /\
      count_id (id (mkItem 5 false "eggs")) (select_by_done false rows1) = 0%nat /\
      count_id (id (mkItem 5 false "eggs")) (select_by_done true rows1) = 1%nat /\
      length rows1 = length demo_rows)) /\
  (~ In 7 (map id demo_rows) /\
   exists w1 w2,
     updateItemAsDoneAsync quiet_env 7 demo_world = (Resolved tt, w1) /\
     updateItemAsDoneAsync quiet_env 7 w1 = (Resolved tt, w2) /\
     db w2 = db w1 /\
     (~ In 7 (map id demo_rows) -> db w1 = db demo_world)).
Proof.
  assert (H1 : items (db demo_world) = Some demo_rows) by reflexivity.
  assert (H2 : io_fault quiet_env (length (trace demo_world)) = false) by reflexivity.
  assert (H3 : io_fault quiet_env (S (length (trace demo_world))) = false) by reflexivity.
  assert (H4 : wf_table demo_rows) by table_ok.
  assert (H5 : In (mkItem 5 false "eggs") demo_rows) by (simpl; tauto).
  assert (H6 : done (mkItem 5 false "eggs") = false) by reflexivity.
  assert (H7 : ~ In 7 (map id demo_rows)) by (simpl; lia).
  split; [split; [exact H1|split; [exact H2|exact H3]]|].
  split; [split; [split; [exact H4|split; [exact H5|exact H6]]|]|split; [exact H7|]].
  - exact (proj1 (markDone_moves_record_once quiet_env demo_world demo_rows H1 H2 H3)
                 (mkItem 5 false "eggs") H4 H5 H6).
  - exact (proj2 (markDone_moves_record_once quiet_env demo_world demo_rows H1 H2 H3) 7).
Defined.

(** Deleting "bread", the completed task of id 2. *)
Lemma delete_removes_record_witness :
  (items (db demo_world) = Some demo_rows /\
   io_fault quiet_env (length (trace demo_world)) = false) /\
  exists w',
    deleteItemAsync quiet_env 2 demo_world = (Resolved tt, w') /\
    items (db w') = Some (delete_row 2 demo_rows) /\
    user_version (db w') = user_version (db demo_world) /\
    (forall d, select_by_done d (delete_row 2 demo_rows) =
               delete_row 2 (select_by_done d demo_rows)) /\
    (forall d, count_id 2 (select_by_done d (delete_row 2 demo_rows)) = 0%nat) /\
    (forall r, In r (delete_row 2 demo_rows) <-> In r demo_rows /\ id r <> 2) /\
    (~ In 2 (map id demo_rows) -> db w' = db demo_world).
Proof.
  split; [split; reflexivity|].
  apply (delete_removes_record quiet_env demo_world demo_rows 2); reflexivity.
Defined.

(** Listing the pending tasks among the three. *)
Lemma listByStatus_filters_in_id_order_witness :
  (items (db demo_world) = Some demo_rows /\
   wf_table demo_rows /\
   io_fault quiet_env (length (trace demo_world)) = false) /\
  exists w',
    getAllAsync quiet_env (SelectByDone false) demo_world =
      (Resolved (select_by_done false demo_rows), w') /\
    db w' = db demo_world /\
    (forall r, In r (select_by_done false demo_rows) <-> In r demo_rows /\ done r = false) /\
    StronglySorted id_lt (select_by_done false demo_rows) /\
    (forall cand k t,
       (forall m, max_rowid demo_rows = Some m -> m < MAX_ROWID) ->
       new_rowid cand demo_rows = Some k ->
       select_by_done false (insert_row (mkItem k false t) demo_rows) =
       select_by_done false demo_rows ++ [mkItem k false t]) /\
    (io_fault quiet_env (length (trace demo_world) + 2) = false ->
     io_fault quiet_env (length (trace demo_world) + 3) = false ->
     todoItems (snd (refetchItems quiet_env demo_world)) = select_by_done false demo_rows /\
     doneItems (snd (refetchItems quiet_env demo_world)) = select_by_done true demo_rows).
Proof.
  split.
  - split; [reflexivity|]. split; [table_ok|reflexivity].
  - apply (listByStatus_filters_in_id_order quiet_env demo_world demo_rows false);
      try reflexivity. table_ok.
Defined.

(** A call that resolved leaves a current version, whatever it started from:
    the next call finds nothing to migrate. *)
Lemma migrate_resolved_is_current env w :
  fst (migrateDbIfNeeded env w) = Resolved tt ->
  user_version (db (snd (migrateDbIfNeeded env w))) >= DATABASE_VERSION.
Proof.
  destruct (migrateDbIfNeeded env w) as [r w'] eqn:E.
  apply migrateDbIfNeeded_cases in E. cbv zeta in E.
  destruct E as (ok & _ & E). cbn [fst snd]. intros ->.
  unfold DATABASE_VERSION in *.
  destruct E as [E|[E|[E|[E|[E|[E|E]]]]]];
    repeat match goal with H : _ /\ _ |- _ => destruct H end;
    try discriminate;
    match goal with H : db w' = _ |- _ => rewrite H end; simpl; lia.
Qed.

(** The scenario of the specification: a fresh store is migrated to version
    1 with an empty table; "Buy milk" is added, completed, deleted. *)
Example scenario_buy_milk :
  let w1 := snd (App quiet_env (fresh_world (mkDb 0 None))) in
  let w2 := snd (onSubmitEditing quiet_env (snd (setText "Buy milk" w1))) in
  let w3 := snd (onPressTodoItem quiet_env 1 w2) in
  let w4 := snd (onPressDoneItem quiet_env 1 w3) in
  db w1 = mkDb 1 (Some []) /\
  (todoItems w2, doneItems w2) = ([mkItem 1 false "Buy milk"], []) /\
  (todoItems w3, doneItems w3) = ([], [mkItem 1 true "Buy milk"]) /\
  (todoItems w4, doneItems w4) = ([], []) /\
  db w4 = mkDb 1 (Some []).
Proof. vm_compute. repeat split. Qed.

(** The offline scenario: auto-sync on, 4000 ms go by with every sync
    failing. Two ticks fired, each rejection was dropped, the table is what
    it was; once the switch is off, time brings no further tick. *)
Example scenario_offline_polling :
  let w1 := snd (setEnablePollingSync true demo_world) in
  let w2 := snd (elapse offline_env 4000 w1) in
  let w3 := snd (setEnablePollingSync false w2) in
  db w2 = db demo_world /\
  count is_sync (trace w2) = 2%nat /\
  unhandled w2 = [SyncFailed; SyncFailed] /\
  todoItems w2 = [mkItem 1 false "milk"; mkItem 5 false "eggs"] /\
  doneItems w2 = [mkItem 2 true "bread"] /\
  elapse offline_env 10000 w3 = (Resolved tt, w3).
Proof. vm_compute. repeat split. Qed.

(** Three additions to an empty table are listed in the order they were
    made, under the ids 1, 2, 3. *)
Example scenario_insertion_order :
  let add (t : string) (w : World) := snd (addItemAsync quiet_env t w) in
  let w := add "c"%string (add "b"%string (add "a"%string (fresh_world (mkDb 1 (Some []))))) in
  fst (getAllAsync quiet_env (SelectByDone false) w) =
  Resolved [mkItem 1 false "a"; mkItem 2 false "b"; mkItem 3 false "c"].
Proof. vm_compute. reflexivity. Qed.

(** Polling switched on over the three tasks, offline, for 4000 ms. *)
Lemma tick_syncs_once_then_refreshes_once_witness :
  (items (db demo_world) = Some demo_rows /\
   sync_brings_nothing offline_env demo_world /\
   enablePollingSync demo_world = false) /\
  new_events demo_world (snd (tick offline_env demo_world)) =
    [EvSyncLibSQL false; EvRefetchItems; EvBegin; EvStmt (SelectByDone false) true;
     EvStmt (SelectByDone true) true; EvCommit] /\
  db (snd (tick offline_env demo_world)) = db demo_world /\
  shows demo_rows (snd (tick offline_env demo_world)) /\
  (let w1 := snd (setEnablePollingSync true demo_world) in
   enablePollingSync w1 = true /\
   fst (elapse offline_env 4000 w1) = Resolved tt /\
   tick_rounds 2 (new_events w1 (snd (elapse offline_env 4000 w1))) /\
   count is_sync (new_events w1 (snd (elapse offline_env 4000 w1))) = 2%nat /\
   count is_refetch (new_events w1 (snd (elapse offline_env 4000 w1))) = 2%nat).
Proof.
  assert (Hn : sync_brings_nothing offline_env demo_world) by (left; reflexivity).
  destruct (tick_syncs_once_then_refreshes_once offline_env demo_world)
    as ((ok & first & second & _ & Ev & _) & _ & _ & _ & Hrows & _ & Hon & _).
  destruct (Hrows demo_rows eq_refl Hn eq_refl eq_refl) as (_ & D & V).
  split; [split; [reflexivity|split; [exact Hn|reflexivity]]|].
  split; [reflexivity|]. split; [exact D|]. split; [exact V|].
  exact (Hon 4000 eq_refl).
Defined.

(** * Further properties of the code *)

(** ** More lemmas on single calls *)

Lemma with_items_table_version d :
  user_version (with_items_table d) = user_version d.
Proof. unfold with_items_table; destruct (items d); reflexivity. Qed.

Lemma with_items_table_items d :
  items (with_items_table d) =
  Some (match items d with Some rows => rows | None => [] end).
Proof. unfold with_items_table; destruct (items d) eqn:E; simpl; auto. Qed.

(** ** The migration, on success *)

(** X1. A first start: when the version read is 0 and no statement meets an
    I/O error, [migrateDbIfNeeded] resolves after the sync call, the read,
    [CREATE TABLE IF NOT EXISTS] and the write of the version, in that order;
    the version is then [DATABASE_VERSION] and the table exists, with the
    rows it already had if it was there and empty otherwise. *)
Theorem migrate_first_start env w :
  no_io_fault env ->
  user_version (db (snd (detached (syncLibSQL env) w))) = 0 ->
  fst (migrateDbIfNeeded env w) = Resolved tt /\
  db (snd (migrateDbIfNeeded env w)) =
    mkDb DATABASE_VERSION
         (Some (match items (db (snd (detached (syncLibSQL env) w))) with
                | Some rows => rows
                | None => []
                end)) /\
  exists ok,
    new_events w (snd (migrateDbIfNeeded env w)) =
    [EvSyncLibSQL ok; EvStmt PragmaUserVersion true; EvStmt CreateTableItems true;
     EvStmt (PragmaSetUserVersion DATABASE_VERSION) true].
Proof.
  intros Hio Hv.
  destruct (migrateDbIfNeeded env w) as [r w'] eqn:E.
  apply migrateDbIfNeeded_cases in E. cbv zeta in E.
  destruct E as (ok & _ & E). cbn [fst snd]. unfold DATABASE_VERSION in *.
  destruct E as [E|[E|[E|[E|[E|[E|E]]]]]];
    repeat match goal with H : _ /\ _ |- _ => destruct H end;
    try (rewrite Hio in *; discriminate); try lia.
  subst r. split; [reflexivity|]. split.
  - match goal with H : db w' = _ |- _ => rewrite H end.
    now rewrite with_items_table_items.
  - exists ok. now apply new_events_app.
Qed.

(** X2. A negative version: the guard [currentDbVersion === 0] is false, so
    with no I/O error the call resolves having only written the version:
    no [CREATE TABLE] is sent and the table is left as it was. If there was
    none, the version now says the schema is current and adding a task is
    rejected with "no such table". *)
Theorem migrate_negative_version_skips_table env w :
  no_io_fault env ->
  user_version (db (snd (detached (syncLibSQL env) w))) < 0 ->
  fst (migrateDbIfNeeded env w) = Resolved tt /\
  db (snd (migrateDbIfNeeded env w)) =
    mkDb DATABASE_VERSION (items (db (snd (detached (syncLibSQL env) w)))) /\
  (exists ok,
     new_events w (snd (migrateDbIfNeeded env w)) =
     [EvSyncLibSQL ok; EvStmt PragmaUserVersion true;
      EvStmt (PragmaSetUserVersion DATABASE_VERSION) true]) /\
  (items (db (snd (detached (syncLibSQL env) w))) = None ->
   forall t, t <> EmptyString ->
     fst (addItemAsync env t (snd (migrateDbIfNeeded env w))) = Rejected NoSuchTable).
Proof.
  intros Hio Hv.
  destruct (migrateDbIfNeeded env w) as [r w'] eqn:E.
  apply migrateDbIfNeeded_cases in E. cbv zeta in E.
  destruct E as (ok & _ & E). cbn [fst snd]. unfold DATABASE_VERSION in *.
  destruct E as [E|[E|[E|[E|[E|[E|E]]]]]];
    repeat match goal with H : _ /\ _ |- _ => destruct H end;
    try (rewrite Hio in *; discriminate); try lia.
  subst r. split; [reflexivity|]. split; [assumption|]. split.
  - exists ok. now apply new_events_app.
  - intros Hnone t Ht. unfold addItemAsync. rewrite (string_eqb_empty t Ht). simpl.
    rewrite (runAsync_error env _ w' NoSuchTable (Hio _)); [reflexivity|].
    simpl. unfold on_items.
    match goal with H : db w' = _ |- _ => rewrite H end. simpl. now rewrite Hnone.
Qed.

(** X3. [migrateDbIfNeeded] never lowers the version it read, and a call
    that resolves leaves the larger of that version and [DATABASE_VERSION]:
    a current version is kept as it is, an older one becomes exactly
    [DATABASE_VERSION]. *)
Theorem migrate_version_never_lowered env w :
  user_version (db (snd (detached (syncLibSQL env) w))) <=
    user_version (db (snd (migrateDbIfNeeded env w))) /\
  (fst (migrateDbIfNeeded env w) = Resolved tt ->
   user_version (db (snd (migrateDbIfNeeded env w))) =
     Z.max (user_version (db (snd (detached (syncLibSQL env) w)))) DATABASE_VERSION).
Proof.
  destruct (migrateDbIfNeeded env w) as [r w'] eqn:E.
  apply migrateDbIfNeeded_cases in E. cbv zeta in E.
  destruct E as (ok & _ & E). cbn [fst snd]. unfold DATABASE_VERSION in *.
  destruct E as [E|[E|[E|[E|[E|[E|E]]]]]];
    repeat match goal with H : _ /\ _ |- _ => destruct H end;
    match goal with H : db w' = _ |- _ => rewrite H end;
    rewrite ?with_items_table_version; simpl;
    (split; [lia | intros; try discriminate; subst; try congruence; lia]).
Qed.

(** X4. [migrateDbIfNeeded] never touches a record, in any environment and
    whether it resolves or rejects: the rows of the table after the call are
    the rows the sync call left, the only change to the table being its
    creation, empty, when it was not there. *)
Theorem migrate_keeps_records env w :
  (items (db (snd (migrateDbIfNeeded env w))) =
     items (db (snd (detached (syncLibSQL env) w))) \/
   items (db (snd (detached (syncLibSQL env) w))) = None /\
   items (db (snd (migrateDbIfNeeded env w))) = Some []) /\
  (forall r, has_row r (db (snd (migrateDbIfNeeded env w))) <->
             has_row r (db (snd (detached (syncLibSQL env) w)))).
Proof.
  assert (H : items (db (snd (migrateDbIfNeeded env w))) =
     items (db (snd (detached (syncLibSQL env) w))) \/
   items (db (snd (detached (syncLibSQL env) w))) = None /\
   items (db (snd (migrateDbIfNeeded env w))) = Some []).
  { destruct (migrateDbIfNeeded env w) as [r w'] eqn:E.
    apply migrateDbIfNeeded_cases in E. cbv zeta in E.
    destruct E as (ok & _ & E). cbn [fst snd].
    destruct E as [E|[E|[E|[E|[E|[E|E]]]]]];
      repeat match goal with H : _ /\ _ |- _ => destruct H end;
      match goal with H : db w' = _ |- _ => rewrite H end; simpl; auto;
      rewrite with_items_table_items;
      destruct (items (db (snd (detached (syncLibSQL env) w)))); auto. }
  split; [exact H|].
  intros r. unfold has_row.
  destruct H as [-> | [-> ->]]; simpl; tauto.
Qed.

(** A refresh that goes through, in full. *)
Lemma refetchItems_ok_world env w rows :
  no_io_fault env ->
  items (db w) = Some rows ->
  refetchItems env w =
  (Resolved tt,
   mkWorld (db w) (text w) (select_by_done false rows) (select_by_done true rows)
           (enablePollingSync w) (interval w)
           (trace w ++ [EvRefetchItems; EvBegin; EvStmt (SelectByDone false) true;
                        EvStmt (SelectByDone true) true; EvCommit])
           (unhandled w)).
Proof.
  intros Hio Hi.
  unfold refetchItems, refetch, emit, detached, withTransactionAsync, bind.
  rewrite (getAllAsync_ok env false _ rows); [|exact Hi|apply Hio].
  cbv beta iota delta [setTodoItems].
  rewrite (getAllAsync_ok env true _ rows); [|exact Hi|apply Hio].
  unfold log, set_db; simpl. rewrite <- !app_assoc. reflexivity.
Qed.

(** ** The text input *)

Lemma runAsync_inv env s w r w' :
  runAsync env s w = (r, w') ->
  trace w' = trace w ++ [EvStmt s (is_resolved r)] /\
  unhandled w' = unhandled w /\ same_ui w w' /\
  (is_resolved r = false -> db w' = db w).
Proof.
  unfold runAsync, bind, ret; intros H.
  destruct (statement env s w) as [r0 w0] eqn:E.
  apply statement_inv in E as (T & U & S & D).
  destruct r0; cbv beta iota in H; inv_pair; cbn [is_resolved] in *;
    (split; [exact T|split; [exact U|split; [exact S|]]]);
    [intros; discriminate | intros _; exact D].
Qed.

Lemma addItemAsync_inv env t w r w' :
  addItemAsync env t w = (r, w') ->
  unhandled w' = unhandled w /\ same_ui w w' /\
  count is_refetch (new_events w w') = 0%nat /\
  (is_resolved r = false -> db w' = db w).
Proof.
  unfold addItemAsync. destruct (negb (String.eqb t EmptyString)).
  - intros H. apply runAsync_inv in H as (T & U & S & D).
    rewrite (new_events_app _ _ _ T). auto.
  - unfold ret; intros H; inv_pair. unfold same_ui, new_events.
    rewrite skipn_all. repeat split; auto.
Qed.

(** X5. When the [INSERT] of a submit is rejected, for whatever reason,
    [onSubmitEditing] rejects with the same error at the [await]: no refresh
    is requested, the text typed stays in the input field, and the database
    and both lists are what they were. *)
Theorem submit_failure_keeps_text env w e :
  fst (addItemAsync env (text w) w) = Rejected e ->
  fst (onSubmitEditing env w) = Rejected e /\
  text (snd (onSubmitEditing env w)) = text w /\
  todoItems (snd (onSubmitEditing env w)) = todoItems w /\
  doneItems (snd (onSubmitEditing env w)) = doneItems w /\
  db (snd (onSubmitEditing env w)) = db w /\
  count is_refetch (new_events w (snd (onSubmitEditing env w))) = 0%nat.
Proof.
  unfold onSubmitEditing.
  destruct (addItemAsync env (text w) w) as [r w1] eqn:E. cbn [fst]. intros ->.
  rewrite (bind_rejected _ _ _ _ _ E). cbn [fst snd].
  apply addItemAsync_inv in E as (_ & (X & T & D & _) & Q & Hdb).
  repeat split; auto.
Qed.

(** A submit that goes through, in full. *)
Lemma onSubmitEditing_ok env w rows k :
  no_io_fault env ->
  text w <> EmptyString ->
  items (db w) = Some rows ->
  new_rowid (rowid_rand env (length (trace w))) rows = Some k ->
  onSubmitEditing env w =
  (Resolved tt,
   mkWorld (mkDb (user_version (db w)) (Some (insert_row (mkItem k false (text w)) rows)))
           EmptyString
           (select_by_done false (insert_row (mkItem k false (text w)) rows))
           (select_by_done true (insert_row (mkItem k false (text w)) rows))
           (enablePollingSync w) (interval w)
           (trace w ++ [EvStmt (InsertItem false (text w)) true; EvRefetchItems; EvBegin;
                        EvStmt (SelectByDone false) true; EvStmt (SelectByDone true) true;
                        EvCommit])
           (unhandled w)).
Proof.
  intros Hio Ht Hi Hk. unfold onSubmitEditing.
  set (rows' := insert_row (mkItem k false (text w)) rows).
  set (w1 := log (EvStmt (InsertItem false (text w)) true)
               (set_db (mkDb (user_version (db w)) (Some rows')) w)).
  assert (E1 : addItemAsync env (text w) w = (Resolved tt, w1)).
  { unfold addItemAsync. rewrite (string_eqb_empty _ Ht). simpl.
    eapply runAsync_ok; [apply Hio|]. now apply (run_stmt_insert _ _ rows). }
  rewrite (bind_resolved _ _ _ _ _ E1).
  assert (Hi1 : items (db w1) = Some rows') by reflexivity.
  rewrite (bind_resolved _ _ _ _ _ (refetchItems_ok_world env w1 rows' Hio Hi1)).
  unfold setText; subst w1; simpl. rewrite <- app_assoc. reflexivity.
Qed.

(** X6. A submit of a non-empty text, with the table there, no I/O error
    and a row id to be had: [onSubmitEditing] resolves, the table gains the
    row [{k, false, text}], both lists are refreshed to the partitions of the
    new table, and the input field is cleared. *)
Theorem submit_adds_and_clears env w rows k :
  no_io_fault env ->
  text w <> EmptyString ->
  items (db w) = Some rows ->
  new_rowid (rowid_rand env (length (trace w))) rows = Some k ->
  fst (onSubmitEditing env w) = Resolved tt /\
  text (snd (onSubmitEditing env w)) = EmptyString /\
  items (db (snd (onSubmitEditing env w))) =
    Some (insert_row (mkItem k false (text w)) rows) /\
  shows (insert_row (mkItem k false (text w)) rows) (snd (onSubmitEditing env w)).
Proof.
  intros Hio Ht Hi Hk.
  rewrite (onSubmitEditing_ok env w rows k Hio Ht Hi Hk).
  unfold shows; simpl. auto.
Qed.

(** ** The rendered lists and their presses *)

Lemma Item_fields item handler :
  itemDone (Item item handler) = done item /\
  itemTextDone (Item item handler) = done item /\
  itemText (Item item handler) = value item /\
  onPress (Item item handler) =
    match handler with Some f => f (id item) | None => ret tt end.
Proof. destruct item; simpl; auto. Qed.

Lemma keys_pending env w : keys (pendingTasks (Main env w)) = map id (todoItems w).
Proof. unfold keys; simpl. rewrite map_map. reflexivity. Qed.

Lemma keys_completed env w : keys (completedTasks (Main env w)) = map id (doneItems w).
Proof. unfold keys; simpl. rewrite map_map. reflexivity. Qed.

Lemma pending_press env w k iv :
  In (k, iv) (pendingTasks (Main env w)) ->
  In k (map id (todoItems w)) /\ onPress iv = onPressTodoItem env k.
Proof.
  simpl; intros H. apply in_map_iff in H as (item & E & Hin).
  injection E as <- <-. split; [now apply in_map|].
  apply (Item_fields item (Some (onPressTodoItem env))).
Qed.

Lemma completed_press env w k iv :
  In (k, iv) (completedTasks (Main env w)) ->
  In k (map id (doneItems w)) /\ onPress iv = onPressDoneItem env k.
Proof.
  simpl; intros H. apply in_map_iff in H as (item & E & Hin).
  injection E as <- <-. split; [now apply in_map|].
  apply (Item_fields item (Some (onPressDoneItem env))).
Qed.

Lemma ids_select d rows j :
  In j (map id (select_by_done d rows)) <->
  exists r, In r rows /\ done r = d /\ id r = j.
Proof.
  rewrite in_map_iff. split.
  - intros (r & E & H). apply select_In in H. exists r; tauto.
  - intros (r & H & D & E). exists r. split; [exact E|]. apply select_In; tauto.
Qed.

Lemma update_done_In_inv d k rows r' :
  In r' (update_done d k rows) ->
  exists r, In r rows /\
    (id r = k /\ r' = mkItem k d (value r) \/ id r <> k /\ r' = r).
Proof.
  unfold update_done; intros H. apply in_map_iff in H as (r & E & H).
  exists r. split; [exact H|].
  destruct (id r =? k) eqn:K.
  - apply Z.eqb_eq in K. left. subst; auto.
  - apply Z.eqb_neq in K. right. auto.
Qed.

Lemma update_done_In_other d k rows r :
  In r rows -> id r <> k -> In r (update_done d k rows).
Proof.
  intros H K. unfold update_done. apply in_map_iff. exists r.
  apply Z.eqb_neq in K. rewrite K. auto.
Qed.

Lemma ids_select_update_other d k j rows :
  j <> k ->
  (In j (map id (select_by_done d (update_done true k rows))) <->
   In j (map id (select_by_done d rows))).
Proof.
  intros Hj. rewrite !ids_select. split.
  - intros (r' & H & D & E). apply update_done_In_inv in H as (r & Hr & [[K ->]|[K ->]]).
    + simpl in E. congruence.
    + exists r; auto.
  - intros (r & H & D & E). exists r. split; [|auto].
    apply update_done_In_other; [exact H|congruence].
Qed.

Lemma ids_delete_row k l j :
  In j (map id (delete_row k l)) <-> In j (map id l) /\ j <> k.
Proof.
  rewrite !in_map_iff. split.
  - intros (r & E & H). apply delete_row_In in H as [H K].
    split; [exists r; tauto|congruence].
  - intros ((r & E & H) & K). exists r. split; [exact E|].
    apply delete_row_In. split; [exact H|congruence].
Qed.

(** The refresh that follows a write which resolved, with no I/O error. *)
Lemma write_then_refresh env w s d' out rows' :
  no_io_fault env ->
  run_stmt (rowid_rand env (length (trace w))) s (db w) = inr (d', out) ->
  items d' = Some rows' ->
  fst ((runAsync env s ;; refetchItems env) w) = Resolved tt /\
  db (snd ((runAsync env s ;; refetchItems env) w)) = d' /\
  shows rows' (snd ((runAsync env s ;; refetchItems env) w)).
Proof.
  intros Hio Hrun Hi.
  rewrite (bind_resolved _ _ _ _ _ (runAsync_ok env s w d' out (Hio _) Hrun)).
  set (w1 := log (EvStmt s true) (set_db d' w)).
  assert (Hi1 : items (db w1) = Some rows') by exact Hi.
  pose proof (refetchItems_ok env w1 rows' Hi1 (Hio _) (Hio _)) as (V1 & V2 & _).
  destruct (refetchItems env w1) as [r2 w2] eqn:E2.
  apply refetchItems_inv in E2 as (-> & D & _). cbn [fst snd] in *.
  unfold shows. auto.
Qed.

(** X7. Pressing an item rendered in the Pending section, with the lists
    showing the table and no I/O error: the press runs the update with that
    item's id and then the refresh, and resolves. Afterwards the key is no
    longer rendered under Pending and is rendered under Completed, and every
    other key is in the section it was in. *)
Theorem press_pending_item_completes_it env w rows k iv :
  no_io_fault env ->
  items (db w) = Some rows ->
  shows rows w ->
  In (k, iv) (pendingTasks (Main env w)) ->
  fst (onPress iv w) = Resolved tt /\
  items (db (snd (onPress iv w))) = Some (update_done true k rows) /\
  shows (update_done true k rows) (snd (onPress iv w)) /\
  ~ In k (keys (pendingTasks (Main env (snd (onPress iv w))))) /\
  In k (keys (completedTasks (Main env (snd (onPress iv w))))) /\
  (forall j, j <> k ->
     (In j (keys (pendingTasks (Main env (snd (onPress iv w))))) <->
      In j (keys (pendingTasks (Main env w)))) /\
     (In j (keys (completedTasks (Main env (snd (onPress iv w))))) <->
      In j (keys (completedTasks (Main env w))))).
Proof.
  intros Hio Hi [Sp Sc] Hin.
  apply pending_press in Hin as [Hk ->].
  unfold onPressTodoItem, updateItemAsDoneAsync.
  destruct (write_then_refresh env w (UpdateDone true k) _ _ (update_done true k rows)
              Hio (run_stmt_update _ _ rows true k Hi) eq_refl) as (R & D & [V1 V2]).
  split; [exact R|]. split; [rewrite D; reflexivity|]. split; [split; assumption|].
  rewrite !keys_pending, !keys_completed, V1, V2, Sp, Sc, select_update_done_true.
  rewrite Sp in Hk. apply ids_select in Hk as (r & Hr & Hd & Hid).
  split; [|split].
  - intros H. apply ids_delete_row in H. tauto.
  - apply ids_select. exists (mkItem k true (value r)). repeat split.
    now apply update_done_In.
  - intros j Hj. split.
    + rewrite ids_delete_row. tauto.
    + now apply ids_select_update_other.
Qed.

(** X8. Pressing an item rendered in the Completed section, under the same
    conditions: the press runs the delete with that item's id and then the
    refresh, and resolves. Afterwards the key is rendered in neither
    section, and every other key is in the section it was in. *)
Theorem press_completed_item_deletes_it env w rows k iv :
  no_io_fault env ->
  items (db w) = Some rows ->
  shows rows w ->
  In (k, iv) (completedTasks (Main env w)) ->
  fst (onPress iv w) = Resolved tt /\
  items (db (snd (onPress iv w))) = Some (delete_row k rows) /\
  shows (delete_row k rows) (snd (onPress iv w)) /\
  ~ In k (keys (pendingTasks (Main env (snd (onPress iv w))))) /\
  ~ In k (keys (completedTasks (Main env (snd (onPress iv w))))) /\
  (forall j, j <> k ->
     (In j (keys (pendingTasks (Main env (snd (onPress iv w))))) <->
      In j (keys (pendingTasks (Main env w)))) /\
     (In j (keys (completedTasks (Main env (snd (onPress iv w))))) <->
      In j (keys (completedTasks (Main env w))))).
Proof.
  intros Hio Hi [Sp Sc] Hin.
  apply completed_press in Hin as [Hk ->].
  unfold onPressDoneItem, deleteItemAsync.
  destruct (write_then_refresh env w (DeleteItem k) _ _ (delete_row k rows)
              Hio (run_stmt_delete _ _ rows k Hi) eq_refl) as (R & D & [V1 V2]).
  split; [exact R|]. split; [rewrite D; reflexivity|]. split; [split; assumption|].
  rewrite !keys_pending, !keys_completed, V1, V2, Sp, Sc, !select_delete_comm.
  split; [|split].
  - intros H. apply ids_delete_row in H. tauto.
  - intros H. apply ids_delete_row in H. tauto.
  - intros j Hj. rewrite !ids_delete_row. tauto.
Qed.

Lemma partition_ids_nodup rows :
  StronglySorted id_lt rows ->
  NoDup (map id (select_by_done false rows) ++ map id (select_by_done true rows)).
Proof.
  induction 1 as [|r rs Hs IH Hr]; [constructor|].
  assert (Hfresh : ~ In (id r) (map id (select_by_done false rs) ++
                                map id (select_by_done true rs))).
  { intros Hin. apply in_app_or in Hin.
    assert (Hx : exists x, In x rs /\ id x = id r).
    { destruct Hin as [Hin|Hin]; apply ids_select in Hin as (x & Hx & _ & E); eauto. }
    destruct Hx as (x & Hx & E). rewrite Forall_forall in Hr.
    specialize (Hr x Hx). unfold id_lt in Hr. lia. }
  unfold select_by_done in *; simpl. destruct (done r); simpl.
  - apply (NoDup_Add (Add_app (id r) _ _)). split; assumption.
  - constructor; assumption.
Qed.

(** X9. After a refresh that met no I/O error on a well-formed table whose
    ids are all within [Number.MAX_SAFE_INTEGER], so that each id is the
    same number in the table and in JavaScript, the Pending section renders
    exactly the rows with [done = false] and the Completed section exactly
    those with [done = true], in id order, each under its id as key and
    showing its value, with the done styles off in the first section and on
    in the second. The keys are pairwise distinct across both sections, each
    is within [Number.MAX_SAFE_INTEGER], and every row of the table is
    rendered. *)
Theorem refreshed_sections_partition_the_table env w rows :
  no_io_fault env ->
  items (db w) = Some rows ->
  wf_table rows ->
  safe_ids rows ->
  map (fun kv => (fst kv, itemText (snd kv), itemDone (snd kv), itemTextDone (snd kv)))
      (pendingTasks (Main env (snd (refetchItems env w)))) =
    map (fun r => (id r, value r, false, false)) (select_by_done false rows) /\
  map (fun kv => (fst kv, itemText (snd kv), itemDone (snd kv), itemTextDone (snd kv)))
      (completedTasks (Main env (snd (refetchItems env w)))) =
    map (fun r => (id r, value r, true, true)) (select_by_done true rows) /\
  NoDup (keys (pendingTasks (Main env (snd (refetchItems env w)))) ++
         keys (completedTasks (Main env (snd (refetchItems env w))))) /\
  Forall (fun k => - MAX_SAFE_INTEGER <= k <= MAX_SAFE_INTEGER)
         (keys (pendingTasks (Main env (snd (refetchItems env w)))) ++
          keys (completedTasks (Main env (snd (refetchItems env w))))) /\
  (forall r, In r rows ->
     In (id r) (keys (pendingTasks (Main env (snd (refetchItems env w)))) ++
                keys (completedTasks (Main env (snd (refetchItems env w)))))).
Proof.
  intros Hio Hi [Hs _] Hsafe.
  pose proof (refetchItems_ok env w rows Hi (Hio _) (Hio _)) as (V1 & V2 & _).
  rewrite keys_pending, keys_completed. cbn [Main pendingTasks completedTasks].
  rewrite V1, V2, !map_map. cbn [fst snd].
  split; [|split; [|split; [|split]]].
  - apply map_ext_in. intros r Hr. apply select_In in Hr as [_ Hd].
    destruct r; simpl in *. now subst.
  - apply map_ext_in. intros r Hr. apply select_In in Hr as [_ Hd].
    destruct r; simpl in *. now subst.
  - now apply partition_ids_nodup.
  - unfold safe_ids in Hsafe. rewrite Forall_forall in *. intros k Hk.
    apply in_app_or in Hk.
    destruct Hk as [Hk|Hk]; apply in_map_iff in Hk as (r & <- & Hr);
      apply select_In in Hr as [Hr _]; exact (Hsafe r Hr).
  - intros r Hr. apply in_or_app. destruct (done r) eqn:D.
    + right. apply ids_select. eauto.
    + left. apply ids_select. eauto.
Qed.

(** ** The refresh when a read fails *)

(** X10. When the first [SELECT] of a refresh succeeds and the second meets
    an I/O error, [refetchItems] still returns normally: the error goes to
    the dropped promise and the transaction is rolled back, but
    [setTodoItems] has already run, so the pending list is the fresh one
    while the completed list is the stale one. *)
Theorem refresh_second_read_failure env w rows :
  items (db w) = Some rows ->
  io_fault env (length (trace w) + 2) = false ->
  io_fault env (length (trace w) + 3) = true ->
  fst (refetchItems env w) = Resolved tt /\
  todoItems (snd (refetchItems env w)) = select_by_done false rows /\
  doneItems (snd (refetchItems env w)) = doneItems w /\
  db (snd (refetchItems env w)) = db w /\
  unhandled (snd (refetchItems env w)) = unhandled w ++ [IoError] /\
  new_events w (snd (refetchItems env w)) =
    [EvRefetchItems; EvBegin; EvStmt (SelectByDone false) true;
     EvStmt (SelectByDone true) false; EvRollback].
Proof.
  intros Hi F2 F3.
  unfold refetchItems, refetch, emit, detached, withTransactionAsync, bind.
  rewrite (getAllAsync_ok env false _ rows).
  - cbv beta iota delta [setTodoItems].
    rewrite (getAllAsync_fault env (SelectByDone true)).
    + repeat split; try reflexivity.
      apply new_events_app. simpl. now rewrite <- !app_assoc.
    + simpl. rewrite !length_app; simpl.
      replace (length (trace w) + 1 + 1 + 1)%nat with (length (trace w) + 3)%nat by lia.
      exact F3.
  - exact Hi.
  - simpl. rewrite !length_app; simpl.
    replace (length (trace w) + 1 + 1)%nat with (length (trace w) + 2)%nat by lia.
    exact F2.
Qed.

(** X11. Without the table [items], and with no I/O error: adding a
    non-empty text, completing and deleting are each rejected with "no such
    table" and change nothing but the trace; a refresh returns normally,
    leaves both lists as they were and drops one "no such table"
    rejection. *)
Theorem no_table_rejects env w :
  no_io_fault env ->
  items (db w) = None ->
  (forall t, t <> EmptyString ->
     addItemAsync env t w =
     (Rejected NoSuchTable, log (EvStmt (InsertItem false t) false) w)) /\
  (forall i, updateItemAsDoneAsync env i w =
     (Rejected NoSuchTable, log (EvStmt (UpdateDone true i) false) w)) /\
  (forall i, deleteItemAsync env i w =
     (Rejected NoSuchTable, log (EvStmt (DeleteItem i) false) w)) /\
  fst (refetchItems env w) = Resolved tt /\
  todoItems (snd (refetchItems env w)) = todoItems w /\
  doneItems (snd (refetchItems env w)) = doneItems w /\
  db (snd (refetchItems env w)) = db w /\
  unhandled (snd (refetchItems env w)) = unhandled w ++ [NoSuchTable].
Proof.
  intros Hio Hi.
  split; [|split; [|split]].
  - intros t Ht. unfold addItemAsync. rewrite (string_eqb_empty t Ht). simpl.
    apply runAsync_error; [apply Hio|]. simpl; unfold on_items; now rewrite Hi.
  - intros i. apply runAsync_error; [apply Hio|]. simpl; unfold on_items; now rewrite Hi.
  - intros i. apply runAsync_error; [apply Hio|]. simpl; unfold on_items; now rewrite Hi.
  - unfold refetchItems, refetch, emit, detached, withTransactionAsync, bind.
    rewrite (getAllAsync_error env (SelectByDone false) _ NoSuchTable).
    + simpl. auto.
    + apply Hio.
    + simpl; unfold on_items; now rewrite Hi.
Qed.

(** ** What the handlers keep *)

Lemma runAsync_wf env s w : wf_db (db w) -> wf_db (db (snd (runAsync env s w))).
Proof.
  intros Hw. destruct (runAsync_db env s w) as [->|(out & H)]; [exact Hw|].
  eapply run_stmt_wf; eassumption.
Qed.

Lemma addItemAsync_wf env t w : wf_db (db w) -> wf_db (db (snd (addItemAsync env t w))).
Proof.
  unfold addItemAsync. destruct (negb (String.eqb t EmptyString)); [apply runAsync_wf|auto].
Qed.

Lemma then_refetch_db {A} env (m : Async A) w :
  db (snd ((m ;; refetchItems env) w)) = db (snd (m w)).
Proof.
  unfold bind. destruct (m w) as [[a|e] w1]; [|reflexivity].
  destruct (refetchItems env w1) as [r w2] eqn:E.
  apply refetchItems_inv in E as (_ & D & _). exact D.
Qed.

Lemma wf_db_items d d' : items d' = items d -> wf_db d -> wf_db d'.
Proof. unfold wf_db; intros ->; auto. Qed.

(** X12. The primary-key invariant of the table (ids strictly ascending,
    hence unique, and within the 64-bit range) is kept by every database
    operation and every handler of [Main], in any environment and whether
    the call resolves or rejects; by the migration, [sync] and the ticks
    too, as long as the sync primitive keeps it: what a sync of a
    well-formed database brings is itself well formed. *)
Theorem handlers_keep_table_invariant env w :
  wf_db (db w) ->
  (forall t, wf_db (db (snd (addItemAsync env t w)))) /\
  (forall i, wf_db (db (snd (updateItemAsDoneAsync env i w)))) /\
  (forall i, wf_db (db (snd (deleteItemAsync env i w)))) /\
  wf_db (db (snd (refetchItems env w))) /\
  wf_db (db (snd (onSubmitEditing env w))) /\
  (forall i, wf_db (db (snd (onPressTodoItem env i w)))) /\
  (forall i, wf_db (db (snd (onPressDoneItem env i w)))) /\
  ((forall n d d', wf_db d -> remote env n d = Some d' -> wf_db d') ->
   wf_db (db (snd (migrateDbIfNeeded env w))) /\
   (forall b, wf_db (db (snd (sync env b w)))) /\
   (forall n, wf_db (db (snd (repeat_ticks env n w))))).
Proof.
  intros Hw.
  split; [intros t; now apply addItemAsync_wf|].
  split; [intros i; now apply runAsync_wf|].
  split; [intros i; now apply runAsync_wf|].
  split.
  { destruct (refetchItems env w) as [r w'] eqn:E.
    apply refetchItems_inv in E as (_ & D & _). cbn [snd]. now rewrite D. }
  split.
  { unfold onSubmitEditing.
    assert (H : db (snd ((addItemAsync env (text w);; refetchItems env;;
                          setText EmptyString) w)) =
                db (snd (addItemAsync env (text w) w))).
    { unfold bind. destruct (addItemAsync env (text w) w) as [[a|e] w1]; [|reflexivity].
      destruct (refetchItems env w1) as [r w2] eqn:E.
      apply refetchItems_inv in E as (-> & D & _). exact D. }
    rewrite H. now apply addItemAsync_wf. }
  split.
  { intros i. unfold onPressTodoItem. rewrite then_refetch_db. now apply runAsync_wf. }
  split.
  { intros i. unfold onPressDoneItem. rewrite then_refetch_db. now apply runAsync_wf. }
  intros Hsync.
  assert (Hs : forall w0, wf_db (db w0) -> wf_db (db (snd (detached (syncLibSQL env) w0)))).
  { intros w0 H0. rewrite detached_sync_db.
    destruct (remote env (length (trace w0)) (db w0)) eqn:R;
      [exact (Hsync _ _ _ H0 R)|exact H0]. }
  assert (Hsy : forall b w0, wf_db (db w0) -> wf_db (db (snd (sync env b w0)))).
  { intros b w0 H0. unfold sync.
    assert (E : detached (syncLibSQL env) w0 =
                (Resolved tt, snd (detached (syncLibSQL env) w0))).
    { destruct (detached (syncLibSQL env) w0) as [r1 w1] eqn:E1.
      apply detached_sync_inv in E1 as (-> & _). reflexivity. }
    rewrite (bind_resolved _ _ _ _ _ E). destruct b; [|now apply Hs].
    destruct (refetchItems env _) as [r w'] eqn:E'.
    apply refetchItems_inv in E' as (_ & D & _). cbn [snd]. rewrite D. now apply Hs. }
  split; [|split].
  - specialize (Hs w Hw).
    destruct (migrateDbIfNeeded env w) as [r w'] eqn:E.
    apply migrateDbIfNeeded_cases in E. cbv zeta in E.
    destruct E as (ok & _ & E). cbn [snd].
    destruct E as [E|[E|[E|[E|[E|[E|E]]]]]];
      repeat match goal with H : _ /\ _ |- _ => destruct H end;
      match goal with H : db w' = _ |- _ => rewrite H end;
      try exact Hs;
      unfold wf_db in *; simpl; rewrite ?with_items_table_items;
      destruct (items (db (snd (detached (syncLibSQL env) w)))); auto;
      split; constructor.
  - intros b. now apply Hsy.
  - intros n. revert w Hw. induction n as [|n IH]; intros w Hw; [exact Hw|].
    simpl. unfold bind, tick.
    destruct (sync env true w) as [r1 w1] eqn:E1.
    pose proof (Hsy true w Hw) as H1. rewrite E1 in H1. cbn [snd] in H1.
    apply sync_inv in E1 as (-> & _). now apply IH.
Qed.

(** X13. [updateItemAsDoneAsync] only ever completes: in any environment,
    the ids and the values of the table are the same lists after the call as
    before, a completed record is still there exactly as it was, and a
    record that is pending afterwards was there, pending, before. *)
Theorem markDone_only_completes env w i :
  option_map (map id) (items (db (snd (updateItemAsDoneAsync env i w)))) =
    option_map (map id) (items (db w)) /\
  option_map (map value) (items (db (snd (updateItemAsDoneAsync env i w)))) =
    option_map (map value) (items (db w)) /\
  (forall r, has_row r (db w) -> done r = true ->
             has_row r (db (snd (updateItemAsDoneAsync env i w)))) /\
  (forall r, has_row r (db (snd (updateItemAsDoneAsync env i w))) -> done r = false ->
             has_row r (db w)).
Proof.
  unfold updateItemAsDoneAsync.
  destruct (runAsync_db env (UpdateDone true i) w) as [->|(out & H)]; [auto|].
  simpl in H; unfold on_items in H.
  destruct (items (db w)) as [rows|] eqn:E; [|discriminate].
  injection H as H _. rewrite <- H. unfold has_row. simpl. rewrite E.
  assert (Hmap : forall (B : Type) (f : ItemEntity -> B),
            (forall r d, f (mkItem (id r) d (value r)) = f r) ->
            map f (update_done true i rows) = map f rows).
  { intros B f Hf. unfold update_done. rewrite map_map. apply map_ext.
    intros r. destruct (id r =? i); [apply Hf|reflexivity]. }
  split; [simpl; f_equal; apply Hmap; reflexivity|].
  split; [simpl; f_equal; apply Hmap; reflexivity|].
  split.
  - intros r Hr Hd. destruct (Z.eq_dec (id r) i) as [K|K].
    + replace r with (mkItem i true (value r)) by (destruct r; simpl in *; congruence).
      now apply update_done_In.
    + now apply update_done_In_other.
  - intros r' Hr Hd. apply update_done_In_inv in Hr as (r & Hr & [[K ->]|[K ->]]).
    + discriminate.
    + exact Hr.
Qed.

Lemma update_done_comm i j rows :
  update_done true i (update_done true j rows) =
  update_done true j (update_done true i rows).
Proof.
  unfold update_done. rewrite !map_map. apply map_ext. intros r.
  destruct (id r =? j) eqn:J, (id r =? i) eqn:I; simpl; rewrite ?I, ?J; reflexivity.
Qed.

Lemma delete_row_comm i j rows :
  delete_row i (delete_row j rows) = delete_row j (delete_row i rows).
Proof.
  unfold delete_row. induction rows as [|r rs IH]; simpl; [reflexivity|].
  destruct (id r =? j) eqn:J, (id r =? i) eqn:I; simpl; rewrite ?I, ?J; simpl; congruence.
Qed.

Lemma delete_update_comm i j rows :
  delete_row j (update_done true i rows) = update_done true i (delete_row j rows).
Proof.
  unfold delete_row, update_done. induction rows as [|r rs IH]; simpl; [reflexivity|].
  destruct (id r =? j) eqn:J, (id r =? i) eqn:I; simpl; rewrite ?I, ?J; simpl; congruence.
Qed.

(** Two writes in a row that the engine accepts and no I/O error stops. *)
Lemma two_writes env w s1 s2 d1 o1 d2 o2 :
  io_fault env (length (trace w)) = false ->
  io_fault env (S (length (trace w))) = false ->
  run_stmt (rowid_rand env (length (trace w))) s1 (db w) = inr (d1, o1) ->
  run_stmt (rowid_rand env (S (length (trace w)))) s2 d1 = inr (d2, o2) ->
  fst (runAsync env s2 (snd (runAsync env s1 w))) = Resolved tt /\
  db (snd (runAsync env s2 (snd (runAsync env s1 w)))) = d2.
Proof.
  intros F0 F1 R1 R2.
  rewrite (runAsync_ok env s1 w d1 o1 F0 R1). cbn [snd].
  set (w1 := log (EvStmt s1 true) (set_db d1 w)).
  assert (L : length (trace w1) = S (length (trace w)))
    by (subst w1; simpl; rewrite length_app; simpl; lia).
  rewrite (runAsync_ok env s2 w1 d2 o2); [auto| rewrite L; exact F1 | rewrite L; exact R2].
Qed.

Lemma two_writes_no_table env w s1 s2 :
  items (db w) = None ->
  (forall cand d, items d = None -> run_stmt cand s1 d = inl NoSuchTable) ->
  (forall cand d, items d = None -> run_stmt cand s2 d = inl NoSuchTable) ->
  db (snd (runAsync env s2 (snd (runAsync env s1 w)))) = db w.
Proof.
  intros Hi H1 H2.
  assert (Hone : forall s w0, items (db w0) = None ->
            (forall cand d, items d = None -> run_stmt cand s d = inl NoSuchTable) ->
            db (snd (runAsync env s w0)) = db w0).
  { intros s w0 H0 Hs. destruct (runAsync_db env s w0) as [E|(out & E)]; [exact E|].
    rewrite (Hs _ _ H0) in E. discriminate. }
  rewrite Hone; [now apply Hone| |exact H2].
  rewrite Hone; assumption.
Qed.

(** X15. With no I/O error on the two calls, the order of two presses does
    not matter to the database: completing [i] and completing [j], deleting
    [i] and deleting [j], and completing [i] and deleting [j] leave the same
    database in either order, for any two ids (equal ones included) and
    whether or not they name a record. *)
Theorem presses_commute env w i j :
  io_fault env (length (trace w)) = false ->
  io_fault env (S (length (trace w))) = false ->
  db (snd (updateItemAsDoneAsync env j (snd (updateItemAsDoneAsync env i w)))) =
    db (snd (updateItemAsDoneAsync env i (snd (updateItemAsDoneAsync env j w)))) /\
  db (snd (deleteItemAsync env j (snd (deleteItemAsync env i w)))) =
    db (snd (deleteItemAsync env i (snd (deleteItemAsync env j w)))) /\
  db (snd (deleteItemAsync env j (snd (updateItemAsDoneAsync env i w)))) =
    db (snd (updateItemAsDoneAsync env i (snd (deleteItemAsync env j w)))).
Proof.
  intros F0 F1. unfold updateItemAsDoneAsync, deleteItemAsync.
  destruct (items (db w)) as [rows|] eqn:Hi.
  - assert (U : forall cand k d l, items d = Some l ->
                run_stmt cand (UpdateDone true k) d =
                inr (mkDb (user_version d) (Some (update_done true k l)), []))
      by (intros; now apply run_stmt_update).
    assert (D : forall cand k d l, items d = Some l ->
                run_stmt cand (DeleteItem k) d =
                inr (mkDb (user_version d) (Some (delete_row k l)), []))
      by (intros; now apply run_stmt_delete).
    pose (v := user_version (db w)).
    split; [|split].
    + destruct (two_writes env w _ _ (mkDb v (Some (update_done true i rows))) [] _ []
                  F0 F1 (U _ i _ _ Hi) (U _ j (mkDb v _) _ eq_refl)) as [_ ->].
      destruct (two_writes env w _ _ (mkDb v (Some (update_done true j rows))) [] _ []
                  F0 F1 (U _ j _ _ Hi) (U _ i (mkDb v _) _ eq_refl)) as [_ ->].
      simpl. now rewrite update_done_comm.
    + destruct (two_writes env w _ _ (mkDb v (Some (delete_row i rows))) [] _ []
                  F0 F1 (D _ i _ _ Hi) (D _ j (mkDb v _) _ eq_refl)) as [_ ->].
      destruct (two_writes env w _ _ (mkDb v (Some (delete_row j rows))) [] _ []
                  F0 F1 (D _ j _ _ Hi) (D _ i (mkDb v _) _ eq_refl)) as [_ ->].
      simpl. now rewrite delete_row_comm.
    + destruct (two_writes env w _ _ (mkDb v (Some (update_done true i rows))) [] _ []
                  F0 F1 (U _ i _ _ Hi) (D _ j (mkDb v _) _ eq_refl)) as [_ ->].
      destruct (two_writes env w _ _ (mkDb v (Some (delete_row j rows))) [] _ []
                  F0 F1 (D _ j _ _ Hi) (U _ i (mkDb v _) _ eq_refl)) as [_ ->].
      simpl. now rewrite delete_update_comm.
  - assert (U : forall k cand d, items d = None ->
                run_stmt cand (UpdateDone true k) d = inl NoSuchTable)
      by (intros k cand d Hd; simpl; unfold on_items; now rewrite Hd).
    assert (D : forall k cand d, items d = None ->
                run_stmt cand (DeleteItem k) d = inl NoSuchTable)
      by (intros k cand d Hd; simpl; unfold on_items; now rewrite Hd).
    rewrite !(two_writes_no_table env w) by auto. auto.
Qed.

(** X14. Adding a text and then deleting the row it created restores the
    database exactly, and so does the whole life of a task: added,
    completed, deleted. The id is free again afterwards: nothing in the
    schema keeps ids from being handed out a second time. *)
Theorem add_then_delete_restores env w rows k t :
  no_io_fault env ->
  t <> EmptyString ->
  items (db w) = Some rows ->
  new_rowid (rowid_rand env (length (trace w))) rows = Some k ->
  db (snd (deleteItemAsync env k (snd (addItemAsync env t w)))) = db w /\
  db (snd (deleteItemAsync env k
            (snd (updateItemAsDoneAsync env k (snd (addItemAsync env t w)))))) = db w /\
  id_free k (db (snd (deleteItemAsync env k (snd (addItemAsync env t w))))).
Proof.
  intros Hio Ht Hi Hk.
  pose proof (new_rowid_fresh _ _ _ Hk) as Hfresh.
  unfold addItemAsync, deleteItemAsync, updateItemAsDoneAsync.
  rewrite (string_eqb_empty t Ht). simpl negb. cbv iota.
  set (rows1 := insert_row (mkItem k false t) rows).
  assert (R1 : run_stmt (rowid_rand env (length (trace w))) (InsertItem false t) (db w) =
               inr (mkDb (user_version (db w)) (Some rows1), []))
    by now apply run_stmt_insert.
  assert (Hdel : delete_row k rows1 = rows)
    by now apply (delete_row_insert (mkItem k false t)).
  assert (E1 : db (snd (runAsync env (DeleteItem k)
                          (snd (runAsync env (InsertItem false t) w)))) = db w).
  { destruct (two_writes env w _ (DeleteItem k) _ _ _ _ (Hio _) (Hio _) R1
                (run_stmt_delete _ (mkDb _ _) rows1 k eq_refl)) as [_ ->].
    simpl. rewrite Hdel. now apply db_same_items. }
  split; [exact E1|]. split.
  - change (db (snd (runAsync env (DeleteItem k)
                     (snd (runAsync env (UpdateDone true k)
                        (snd (runAsync env (InsertItem false t) w)))))) = db w).
    rewrite (runAsync_ok env _ w _ _ (Hio _) R1). cbn [snd].
    set (w1 := log _ (set_db _ w)).
    assert (Hi1 : items (db w1) = Some rows1) by reflexivity.
    destruct (two_writes env w1 (UpdateDone true k) (DeleteItem k)
                (mkDb (user_version (db w1)) (Some (update_done true k rows1))) [] _ []
                (Hio _) (Hio _)
                (run_stmt_update _ _ rows1 true k Hi1)
                (run_stmt_delete _ (mkDb _ _) (update_done true k rows1) k eq_refl)) as [_ ->].
    simpl. rewrite delete_row_update, Hdel. now apply db_same_items.
  - change (id_free k (db (snd (runAsync env (DeleteItem k)
                              (snd (runAsync env (InsertItem false t) w)))))).
    rewrite E1. unfold id_free. now rewrite Hi.
Qed.

(** ** Several submits in a row *)

Lemma new_rowid_next cand rows :
  next_rowid rows <= MAX_ROWID -> new_rowid cand rows = Some (next_rowid rows).
Proof.
  unfold next_rowid, new_rowid. destruct (max_rowid rows) as [m|]; [|reflexivity].
  intros H. assert (L : (m <? MAX_ROWID) = true) by (apply Z.ltb_lt; lia).
  now rewrite L.
Qed.

Lemma next_rowid_above rows : Forall (fun r => id r < next_rowid rows) rows.
Proof.
  unfold next_rowid. destruct (max_rowid rows) as [m|] eqn:E.
  - apply max_rowid_upper in E. eapply Forall_impl; [|exact E]. simpl; intros; lia.
  - apply max_rowid_none in E; subst. constructor.
Qed.

Lemma max_rowid_snoc rows r :
  Forall (fun x => id x < id r) rows -> max_rowid (rows ++ [r]) = Some (id r).
Proof.
  induction 1 as [|x xs Hx _ IH]; simpl; [reflexivity|].
  rewrite IH. f_equal. lia.
Qed.

Lemma select_false_fresh_rows k texts :
  select_by_done false (fresh_rows k texts) = fresh_rows k texts.
Proof.
  revert k; induction texts as [|t rest IH]; intros k; simpl; [reflexivity|].
  unfold select_by_done in *; simpl. now rewrite IH.
Qed.

Lemma select_true_fresh_rows k texts :
  select_by_done true (fresh_rows k texts) = [].
Proof.
  revert k; induction texts as [|t rest IH]; intros k; simpl; [reflexivity|].
  unfold select_by_done in *; simpl. now rewrite IH.
Qed.

Lemma submit_all_ok env : forall texts w rows,
  no_io_fault env ->
  Forall (fun t => t <> EmptyString) texts ->
  items (db w) = Some rows ->
  next_rowid rows + Z.of_nat (length texts) - 1 <= MAX_ROWID ->
  fst (submit_all env texts w) = Resolved tt /\
  items (db (snd (submit_all env texts w))) =
    Some (rows ++ fresh_rows (next_rowid rows) texts) /\
  (texts <> [] ->
   shows (rows ++ fresh_rows (next_rowid rows) texts) (snd (submit_all env texts w)) /\
   text (snd (submit_all env texts w)) = EmptyString).
Proof.
  induction texts as [|t rest IH]; intros w rows Hio Ht Hi Hmax.
  - simpl. rewrite app_nil_r. split; [reflexivity|]. split; [exact Hi|].
    intros H; congruence.
  - inversion Ht as [|? ? Ht1 Ht2]; subst.
    cbn [length] in Hmax. cbn [submit_all].
    set (w0 := mkWorld (db w) t (todoItems w) (doneItems w) (enablePollingSync w)
                       (interval w) (trace w) (unhandled w)).
    rewrite (bind_resolved (setText t) _ w tt w0 eq_refl).
    set (k := next_rowid rows) in *.
    assert (Hk : new_rowid (rowid_rand env (length (trace w0))) rows = Some k)
      by (apply new_rowid_next; fold k; lia).
    assert (Hlast : insert_row (mkItem k false t) rows = rows ++ [mkItem k false t])
      by (apply insert_row_last; apply next_rowid_above).
    pose proof (onSubmitEditing_ok env w0 rows k Hio Ht1 Hi Hk) as E1.
    cbn [text w0] in E1. rewrite Hlast in E1.
    rewrite (bind_resolved _ _ _ _ _ E1).
    match goal with |- context [submit_all env rest ?x] => set (w1 := x) end.
    assert (I1 : items (db w1) = Some (rows ++ [mkItem k false t])) by reflexivity.
    assert (S1 : shows (rows ++ [mkItem k false t]) w1) by (split; reflexivity).
    assert (X : text w1 = EmptyString) by reflexivity.
    clearbody w1.
    assert (Hnext : next_rowid (rows ++ [mkItem k false t]) = k + 1).
    { unfold next_rowid at 1. rewrite max_rowid_snoc; [reflexivity|].
      apply next_rowid_above. }
    assert (Hmax1 : next_rowid (rows ++ [mkItem k false t]) + Z.of_nat (length rest) - 1
                    <= MAX_ROWID) by (rewrite Hnext; lia).
    destruct (IH w1 _ Hio Ht2 I1 Hmax1) as (R2 & I2 & V2).
    rewrite Hnext, <- app_assoc in I2, V2. cbn [app] in I2, V2.
    split; [exact R2|]. split; [exact I2|]. intros _.
    destruct rest as [|t' rest'].
    + simpl. simpl in I2. auto.
    + apply V2. discriminate.
Qed.

(** X17. Texts submitted one after the other, all non-empty, with no I/O
    error and ids to spare below the largest row id: every submit resolves,
    the table ends as the old rows followed by one pending row per text, in
    the order submitted and under consecutive ids; the Pending list shows the
    old pending rows followed by the new ones in that order, the Completed
    list is unchanged, and the input field is empty. *)
Theorem submits_are_listed_in_order env texts w rows :
  no_io_fault env ->
  Forall (fun t => t <> EmptyString) texts ->
  texts <> [] ->
  items (db w) = Some rows ->
  next_rowid rows + Z.of_nat (length texts) - 1 <= MAX_ROWID ->
  fst (submit_all env texts w) = Resolved tt /\
  items (db (snd (submit_all env texts w))) =
    Some (rows ++ fresh_rows (next_rowid rows) texts) /\
  todoItems (snd (submit_all env texts w)) =
    select_by_done false rows ++ fresh_rows (next_rowid rows) texts /\
  doneItems (snd (submit_all env texts w)) = select_by_done true rows /\
  text (snd (submit_all env texts w)) = EmptyString.
Proof.
  intros Hio Ht Hne Hi Hmax.
  destruct (submit_all_ok env texts w rows Hio Ht Hi Hmax) as (R & I & V).
  destruct (V Hne) as ([V1 V2] & X).
  rewrite select_app, select_false_fresh_rows in V1.
  rewrite select_app, select_true_fresh_rows, app_nil_r in V2. auto.
Qed.

(** ** The sync button, the switch and the start *)

(** X19. "Sync Now" runs what a tick runs. When its sync fails or brings
    nothing, with the table there and no I/O error: the press returns
    normally, the database is what it was, both lists are refreshed to the
    two partitions of the table, and the dropped rejections gain one "sync
    failed" exactly when the sync failed. *)
Theorem sync_now_refreshes_the_lists env w rows :
  no_io_fault env ->
  sync_brings_nothing env w ->
  items (db w) = Some rows ->
  tick env = syncButton (Main env w) /\
  fst (syncButton (Main env w) w) = Resolved tt /\
  db (snd (syncButton (Main env w) w)) = db w /\
  shows rows (snd (syncButton (Main env w) w)) /\
  unhandled (snd (syncButton (Main env w) w)) =
    match remote env (length (trace w)) (db w) with
    | Some _ => unhandled w
    | None => unhandled w ++ [SyncFailed]
    end.
Proof.
  intros Hio Hn Hi. split; [reflexivity|].
  cbn [Main syncButton]. unfold sync.
  destruct Hn as [Hr|Hr].
  - set (w0 := reject_unhandled SyncFailed (log (EvSyncLibSQL false) w)).
    assert (E : detached (syncLibSQL env) w = (Resolved tt, w0))
      by (unfold detached, syncLibSQL; rewrite Hr; reflexivity).
    assert (Hi0 : items (db w0) = Some rows) by exact Hi.
    rewrite (bind_resolved _ _ _ _ _ E).
    rewrite (refetchItems_ok_world env w0 rows Hio Hi0).
    rewrite Hr. unfold shows; simpl. auto.
  - set (w0 := log (EvSyncLibSQL true) (set_db (db w) w)).
    assert (E : detached (syncLibSQL env) w = (Resolved tt, w0))
      by (unfold detached, syncLibSQL; rewrite Hr; reflexivity).
    assert (Hi0 : items (db w0) = Some rows) by exact Hi.
    rewrite (bind_resolved _ _ _ _ _ E).
    rewrite (refetchItems_ok_world env w0 rows Hio Hi0).
    rewrite Hr. unfold shows; simpl. auto.
Qed.

(** X20. Offline with the table there and no I/O error: after [n] ticks the
    dropped rejections are the earlier ones followed by exactly [n]
    "sync failed", one per tick and nothing else, and the table has the rows
    it had. *)
Theorem offline_ticks_drop_one_rejection_each env n w rows :
  no_io_fault env ->
  (forall k d, remote env k d = None) ->
  items (db w) = Some rows ->
  unhandled (snd (repeat_ticks env n w)) = unhandled w ++ repeat SyncFailed n /\
  items (db (snd (repeat_ticks env n w))) = Some rows.
Proof.
  revert w rows. induction n as [|n IH]; intros w rows Hio Hoff Hi.
  - simpl. rewrite app_nil_r. auto.
  - cbn [repeat_ticks].
    set (w0 := reject_unhandled SyncFailed (log (EvSyncLibSQL false) w)).
    assert (E : detached (syncLibSQL env) w = (Resolved tt, w0))
      by (unfold detached, syncLibSQL; rewrite Hoff; reflexivity).
    assert (Hi0 : items (db w0) = Some rows) by exact Hi.
    assert (T : tick env w = (Resolved tt, snd (refetchItems env w0))).
    { unfold tick, sync. rewrite (bind_resolved _ _ _ _ _ E).
      now rewrite (refetchItems_ok_world env w0 rows Hio Hi0). }
    rewrite (bind_resolved _ _ _ _ _ T).
    rewrite (refetchItems_ok_world env w0 rows Hio Hi0). cbn [snd].
    match goal with |- context [repeat_ticks env n ?x] => set (w1 := x) end.
    assert (Hi1 : items (db w1) = Some rows) by exact Hi.
    destruct (IH w1 rows Hio Hoff Hi1) as (U & I).
    rewrite U, I. subst w1 w0; simpl. rewrite <- app_assoc. auto.
Qed.

(** X18. Switching auto-sync off and on again starts a new interval:
    whatever the switch and the timer were before, afterwards the switch is
    on and no tick fires during the next [POLL_MS] milliseconds, the time
    already waited being lost; time only moves the timer. *)
Theorem switching_on_restarts_the_interval env w ms :
  0 <= ms < POLL_MS ->
  enablePollingSync
    (snd (setEnablePollingSync true (snd (setEnablePollingSync false w)))) = true /\
  interval
    (snd (setEnablePollingSync true (snd (setEnablePollingSync false w)))) = Some 0 /\
  elapse env ms (snd (setEnablePollingSync true (snd (setEnablePollingSync false w)))) =
    set_interval (Some ms)
      (snd (setEnablePollingSync true (snd (setEnablePollingSync false w)))).
Proof.
  intros Hms.
  set (w1 := snd (setEnablePollingSync true (snd (setEnablePollingSync false w)))).
  assert (H : enablePollingSync w1 = true /\ interval w1 = Some 0).
  { subst w1. unfold setEnablePollingSync.
    destruct (enablePollingSync w) eqn:F; simpl; rewrite ?F; simpl; auto. }
  destruct H as [F I]. split; [exact F|]. split; [exact I|].
  unfold elapse. rewrite I.
  replace ((0 + ms) / POLL_MS) with 0
    by (symmetry; apply Z.div_small; lia).
  replace ((0 + ms) mod POLL_MS) with ms
    by (symmetry; apply Z.mod_small; lia).
  reflexivity.
Qed.

(** X21. [Main] is mounted once the migration has resolved: [App] then
    resolves on the database the migration left, and its events are those of
    the migration followed by exactly one refresh, its request and its
    transaction. With no I/O error and a first sync that fails or brings
    nothing, the version afterwards is current and the two lists show the
    table whenever there is one, which is the case after a first start
    (version 0). *)
Theorem App_mounts_Main_after_migration env w :
  fst (migrateDbIfNeeded env w) = Resolved tt ->
  fst (App env w) = Resolved tt /\
  db (snd (App env w)) = db (snd (migrateDbIfNeeded env w)) /\
  (exists first second,
     new_events w (snd (App env w)) =
       new_events w (snd (migrateDbIfNeeded env w)) ++
       EvRefetchItems :: refresh_events first second) /\
  (no_io_fault env -> sync_brings_nothing env w ->
   user_version (db (snd (App env w))) >= DATABASE_VERSION /\
   (forall rows, items (db (snd (App env w))) = Some rows ->
                 shows rows (snd (App env w))) /\
   (user_version (db w) = 0 ->
    exists rows, items (db (snd (App env w))) = Some rows)).
Proof.
  unfold App, onMount.
  destruct (migrateDbIfNeeded env w) as [r w1] eqn:E. cbn [fst snd]. intros ->.
  pose proof (migrateDbIfNeeded_cases _ _ _ _ E) as C. cbv zeta in C.
  destruct C as (ok & _ & C).
  rewrite (bind_resolved _ _ _ _ _ E).
  destruct (refetchItems_shape env w1) as (first & second & T & _).
  destruct (refetchItems env w1) as [r2 w2] eqn:E2.
  pose proof (refetchItems_inv _ _ _ _ E2) as (-> & D & _). cbn [fst snd] in *.
  split; [reflexivity|]. split; [exact D|]. split.
  - exists first, second.
    assert (Hev : exists evs, trace w1 = trace w ++ evs).
    { destruct C as [C|[C|[C|[C|[C|[C|C]]]]]];
        repeat match goal with H : _ /\ _ |- _ => destruct H end; eauto. }
    destruct Hev as (evs & Hev).
    rewrite (new_events_app _ _ _ Hev).
    apply new_events_app. rewrite T, Hev, <- app_assoc. reflexivity.
  - intros Hio Hn. rewrite D.
    destruct (detached_sync_nothing env w Hn) as (_ & _ & Ds).
    assert (Hgo : user_version (db w1) >= DATABASE_VERSION /\
                  (user_version (db w) = 0 -> exists rows, items (db w1) = Some rows)).
    { rewrite Ds in C. unfold DATABASE_VERSION in *.
      destruct C as [C|[C|[C|[C|[C|[C|C]]]]]];
        repeat match goal with H : _ /\ _ |- _ => destruct H end;
        try discriminate;
        match goal with H : db w1 = _ |- _ => rewrite H end;
        (split; [simpl; lia|]); try (intros; lia).
      intros _. simpl. rewrite with_items_table_items. eauto. }
    destruct Hgo as (Hv & H0). split; [exact Hv|]. split; [|exact H0].
    intros rows Hi.
    rewrite (refetchItems_ok_world env w1 rows Hio Hi) in E2.
    injection E2 as E2. subst w2. unfold shows; simpl. auto.
Qed.

(** ** How much a write changes *)

Lemma delete_row_length i l :
  (length (delete_row i l) + count_id i l = length l)%nat.
Proof.
  unfold delete_row, count_id. induction l as [|r rs IH]; simpl; [reflexivity|].
  destruct (id r =? i); simpl; lia.
Qed.

Lemma select_lengths l :
  (length (select_by_done false l) + length (select_by_done true l) = length l)%nat.
Proof.
  unfold select_by_done. induction l as [|r rs IH]; simpl; [reflexivity|].
  destruct (done r); simpl; lia.
Qed.

Lemma count_id_le_1 i rows : StronglySorted id_lt rows -> (count_id i rows <= 1)%nat.
Proof.
  intros Hs. destruct (in_dec Z.eq_dec i (map id rows)) as [Hin|Hn].
  - apply in_map_iff in Hin as (r & <- & Hr). now rewrite (count_id_present r rows Hs Hr).
  - rewrite (count_id_absent i rows Hn). lia.
Qed.

(** X16. On a well-formed table, with no I/O error, a press touches at most
    one row: [deleteItemAsync i] removes as many rows as have id [i], which
    is none or one, and [updateItemAsDoneAsync i] keeps the number of rows
    and moves as many rows from pending to completed as pending rows have id
    [i], again none or one. *)
Theorem press_touches_at_most_one_row env w rows i :
  items (db w) = Some rows ->
  wf_table rows ->
  io_fault env (length (trace w)) = false ->
  exists rows_d rows_u,
    items (db (snd (deleteItemAsync env i w))) = Some rows_d /\
    items (db (snd (updateItemAsDoneAsync env i w))) = Some rows_u /\
    (count_id i rows <= 1)%nat /\
    (length rows_d + count_id i rows = length rows)%nat /\
    length rows_u = length rows /\
    (length (select_by_done false rows_u) + count_id i (select_by_done false rows) =
       length (select_by_done false rows))%nat /\
    (length (select_by_done true rows_u) =
       length (select_by_done true rows) + count_id i (select_by_done false rows))%nat.
Proof.
  intros Hi [Hs _] F0.
  exists (delete_row i rows), (update_done true i rows).
  unfold deleteItemAsync, updateItemAsDoneAsync.
  rewrite (runAsync_ok env _ w _ _ F0 (run_stmt_delete _ _ rows i Hi)).
  rewrite (runAsync_ok env _ w _ _ F0 (run_stmt_update _ _ rows true i Hi)).
  split; [reflexivity|]. split; [reflexivity|].
  split; [now apply count_id_le_1|].
  split; [apply delete_row_length|].
  split; [apply update_done_length|].
  assert (L1 : (length (select_by_done false (update_done true i rows)) +
                count_id i (select_by_done false rows) =
                length (select_by_done false rows))%nat)
    by (rewrite select_update_done_true; apply delete_row_length).
  split; [exact L1|].
  pose proof (select_lengths (update_done true i rows)) as L2.
  pose proof (select_lengths rows) as L3.
  rewrite update_done_length in L2. lia.
Qed.

(** ** What the calls never do *)

(** X22. [migrateDbIfNeeded] stops at the first of its statements that
    fails: a failed statement is the last event of the call, it met an I/O
    error, the call rejects with that error, and everything the call sent
    before it, the sync call first, went through or, for the sync, was not
    waited for. *)
Theorem migrate_stops_at_first_failure env w evs s evs' :
  new_events w (snd (migrateDbIfNeeded env w)) = evs ++ EvStmt s false :: evs' ->
  evs' = [] /\
  fst (migrateDbIfNeeded env w) = Rejected IoError /\
  io_fault env (length (trace w) + length evs) = true /\
  (exists ok, hd_error evs = Some (EvSyncLibSQL ok)) /\
  (forall s' ok, In (EvStmt s' ok) evs -> ok = true).
Proof.
  destruct (migrateDbIfNeeded env w) as [r w'] eqn:E.
  apply migrateDbIfNeeded_cases in E. cbv zeta in E.
  destruct E as (ok & _ & E). cbn [fst snd]. intros H.
  destruct E as [E|[E|[E|[E|[E|[E|E]]]]]];
    repeat match goal with H : _ /\ _ |- _ => destruct H end;
    match goal with T : trace w' = _ |- _ => rewrite (new_events_app _ _ _ T) in H end;
    subst r;
    repeat (destruct evs as [|? evs]; cbn [app] in H;
            [try discriminate H|injection H as ? H]);
    try discriminate H;
    try (destruct evs; discriminate H);
    injection H as ? ?; subst; cbn [length hd_error];
    (split; [reflexivity|]); (split; [reflexivity|]); (split; [assumption|]);
    (split; [eauto|]);
    intros s' ok' Hin; simpl in Hin;
    repeat match goal with
    | H : _ \/ _ |- _ => destruct H
    | H : False |- _ => destruct H
    | H : EvStmt _ _ = EvStmt _ _ |- _ => injection H as ? ?; subst
    | H : EvSyncLibSQL _ = EvStmt _ _ |- _ => discriminate H
    end; reflexivity.
Qed.

(** X23. A refresh only reads, in any environment: [refetchItems] never
    throws, sends no statement that writes and makes no sync call, and
    leaves the database, the text typed, the switch and the timer as they
    were; all it can change are the two lists. *)
Theorem refresh_only_reads env w :
  fst (refetchItems env w) = Resolved tt /\
  db (snd (refetchItems env w)) = db w /\
  text (snd (refetchItems env w)) = text w /\
  enablePollingSync (snd (refetchItems env w)) = enablePollingSync w /\
  interval (snd (refetchItems env w)) = interval w /\
  count is_write_event (new_events w (snd (refetchItems env w))) = 0%nat /\
  count is_sync (new_events w (snd (refetchItems env w))) = 0%nat /\
  count is_refetch (new_events w (snd (refetchItems env w))) = 1%nat.
Proof.
  destruct (refetchItems env w) as [r w'] eqn:E.
  apply refetchItems_inv in E as (-> & D & X & F & I & rest & T & Q1 & Q2 & Q3).
  cbn [fst snd]. rewrite (new_events_app _ _ _ T).
  change (EvRefetchItems :: rest) with ([EvRefetchItems] ++ rest).
  rewrite !count_app, Q1, Q2, Q3. repeat split; auto.
Qed.

(** X24. [sync] itself never writes: in any environment and for either value
    of [refetch], it sends no statement that writes, so the database after
    it is exactly what the replication primitive left; and without
    [refetch] the two lists are not touched. *)
Theorem sync_changes_only_what_the_primitive_does env w :
  (forall b,
     db (snd (sync env b w)) = db (snd (detached (syncLibSQL env) w)) /\
     count is_write_event (new_events w (snd (sync env b w))) = 0%nat) /\
  todoItems (snd (sync env false w)) = todoItems w /\
  doneItems (snd (sync env false w)) = doneItems w.
Proof.
  destruct (detached (syncLibSQL env) w) as [r1 w1] eqn:E1.
  pose proof (detached_sync_inv _ _ _ _ E1) as (-> & (_ & S1 & S2 & _) & ok & T & _).
  cbn [snd]. split.
  - intros b. unfold sync. rewrite (bind_resolved _ _ _ _ _ E1). destruct b.
    + destruct (refetchItems env w1) as [r w'] eqn:E.
      apply refetchItems_inv in E as (_ & D & _ & _ & _ & rest & T' & _ & _ & Q).
      cbn [snd]. split; [exact D|].
      rewrite T, <- app_assoc in T'. rewrite (new_events_app _ _ _ T').
      change ([EvSyncLibSQL ok] ++ EvRefetchItems :: rest)
        with ([EvSyncLibSQL ok; EvRefetchItems] ++ rest).
      now rewrite count_app, Q.
    + unfold ret; cbn [snd]. split; [reflexivity|].
      now rewrite (new_events_app _ _ _ T).
  - unfold sync. rewrite (bind_resolved _ _ _ _ _ E1). unfold ret; cbn [snd]. auto.
Qed.

(** X25. A press sends one write and then, only if the write resolved,
    requests one refresh: in any environment the events of
    [onPressItem] in either section are the [UPDATE], respectively the
    [DELETE], followed by the refresh when it succeeded and by nothing when
    it was rejected, in which case the press rejects with nothing refreshed.
    No press makes a sync call. *)
Theorem press_writes_once_then_refreshes env w i :
  (exists ok rest,
     new_events w (snd (onPressTodoItem env i w)) =
       EvStmt (UpdateDone true i) ok :: (if ok then EvRefetchItems :: rest else []) /\
     is_resolved (fst (onPressTodoItem env i w)) = ok /\
     quiet_events rest) /\
  (exists ok rest,
     new_events w (snd (onPressDoneItem env i w)) =
       EvStmt (DeleteItem i) ok :: (if ok then EvRefetchItems :: rest else []) /\
     is_resolved (fst (onPressDoneItem env i w)) = ok /\
     quiet_events rest).
Proof.
  assert (H : forall s,
     exists ok rest,
       new_events w (snd ((runAsync env s ;; refetchItems env) w)) =
         EvStmt s ok :: (if ok then EvRefetchItems :: rest else []) /\
       is_resolved (fst ((runAsync env s ;; refetchItems env) w)) = ok /\
       quiet_events rest).
  { intros s. unfold bind.
    destruct (runAsync env s w) as [r1 w1] eqn:E1.
    apply runAsync_inv in E1 as (T1 & _).
    destruct r1 as [[]|e]; cbn [is_resolved] in T1.
    - destruct (refetchItems env w1) as [r2 w2] eqn:E2.
      apply refetchItems_inv in E2 as (-> & _ & _ & _ & _ & rest & T2 & Q).
      exists true, rest. cbn [fst snd is_resolved].
      rewrite T1, <- app_assoc in T2. rewrite (new_events_app _ _ _ T2). auto.
    - exists false, []. cbn [fst snd is_resolved].
      rewrite (new_events_app _ _ _ T1). unfold quiet_events. auto. }
  split; [exact (H (UpdateDone true i))|exact (H (DeleteItem i))].
Qed.

(** * The further properties at sample inputs *)

Lemma migrate_first_start_witness :
  ((no_io_fault quiet_env) /\
   (user_version (db (snd (detached (syncLibSQL quiet_env) (fresh_world (mkDb 0 None))))) = 0)) /\
  (fst (migrateDbIfNeeded quiet_env (fresh_world (mkDb 0 None))) = Resolved tt /\
   db (snd (migrateDbIfNeeded quiet_env (fresh_world (mkDb 0 None)))) =
     mkDb DATABASE_VERSION
          (Some (match items (db (snd (detached (syncLibSQL quiet_env) (fresh_world (mkDb 0 None))))) with
                 | Some rows => rows
                 | None => []
                 end)) /\
   exists ok,
     new_events (fresh_world (mkDb 0 None)) (snd (migrateDbIfNeeded quiet_env (fresh_world (mkDb 0 None)))) =
     [EvSyncLibSQL ok; EvStmt PragmaUserVersion true; EvStmt CreateTableItems true;
      EvStmt (PragmaSetUserVersion DATABASE_VERSION) true]).
Proof.
  assert (H1 : no_io_fault quiet_env) by (intros k; reflexivity).
  assert (H2 : user_version (db (snd (detached (syncLibSQL quiet_env) (fresh_world (mkDb 0 None))))) = 0) by (reflexivity).
  split; [split; [exact H1|exact H2]|].
  exact (migrate_first_start quiet_env (fresh_world (mkDb 0 None)) H1 H2).
Defined.

Lemma migrate_negative_version_skips_table_witness :
  ((no_io_fault quiet_env) /\
   (user_version (db (snd (detached (syncLibSQL quiet_env) (fresh_world (mkDb (-1) None))))) < 0)) /\
  (fst (migrateDbIfNeeded quiet_env (fresh_world (mkDb (-1) None))) = Resolved tt /\
   db (snd (migrateDbIfNeeded quiet_env (fresh_world (mkDb (-1) None)))) =
     mkDb DATABASE_VERSION (items (db (snd (detached (syncLibSQL quiet_env) (fresh_world (mkDb (-1) None)))))) /\
   (exists ok,
      new_events (fresh_world (mkDb (-1) None)) (snd (migrateDbIfNeeded quiet_env (fresh_world (mkDb (-1) None)))) =
      [EvSyncLibSQL ok; EvStmt PragmaUserVersion true;
       EvStmt (PragmaSetUserVersion DATABASE_VERSION) true]) /\
   (items (db (snd (detached (syncLibSQL quiet_env) (fresh_world (mkDb (-1) None))))) = None ->
    forall t, t <> EmptyString ->
      fst (addItemAsync quiet_env t (snd (migrateDbIfNeeded quiet_env (fresh_world (mkDb (-1) None))))) = Rejected NoSuchTable)).
Proof.
  assert (H1 : no_io_fault quiet_env) by (intros k; reflexivity).
  assert (H2 : user_version (db (snd (detached (syncLibSQL quiet_env) (fresh_world (mkDb (-1) None))))) < 0) by (reflexivity).
  split; [split; [exact H1|exact H2]|].
  exact (migrate_negative_version_skips_table quiet_env (fresh_world (mkDb (-1) None)) H1 H2).
Defined.

Lemma submit_failure_keeps_text_witness :
  ((fst (addItemAsync first_call_fails_env (text typing_world) typing_world) = Rejected IoError)) /\
  (fst (onSubmitEditing first_call_fails_env typing_world) = Rejected IoError /\
   text (snd (onSubmitEditing first_call_fails_env typing_world)) = text typing_world /\
   todoItems (snd (onSubmitEditing first_call_fails_env typing_world)) = todoItems typing_world /\
   doneItems (snd (onSubmitEditing first_call_fails_env typing_world)) = doneItems typing_world /\
   db (snd (onSubmitEditing first_call_fails_env typing_world)) = db typing_world /\
   count is_refetch (new_events typing_world (snd (onSubmitEditing first_call_fails_env typing_world))) = 0%nat).
Proof.
  assert (H1 : fst (addItemAsync first_call_fails_env (text typing_world) typing_world) = Rejected IoError) by (reflexivity).
  split; [exact H1|].
  exact (submit_failure_keeps_text first_call_fails_env typing_world IoError H1).
Defined.

Lemma submit_adds_and_clears_witness :
  ((no_io_fault quiet_env) /\
   (text typing_world <> EmptyString) /\
   (items (db typing_world) = Some demo_rows) /\
   (new_rowid (rowid_rand quiet_env (length (trace typing_world))) demo_rows = Some 6)) /\
  (fst (onSubmitEditing quiet_env typing_world) = Resolved tt /\
   text (snd (onSubmitEditing quiet_env typing_world)) = EmptyString /\
   items (db (snd (onSubmitEditing quiet_env typing_world))) =
     Some (insert_row (mkItem 6 false (text typing_world)) demo_rows) /\
   shows (insert_row (mkItem 6 false (text typing_world)) demo_rows) (snd (onSubmitEditing quiet_env typing_world))).
Proof.
  assert (H1 : no_io_fault quiet_env) by (intros k; reflexivity).
  assert (H2 : text typing_world <> EmptyString) by (discriminate).
  assert (H3 : items (db typing_world) = Some demo_rows) by (reflexivity).
  assert (H4 : new_rowid (rowid_rand quiet_env (length (trace typing_world))) demo_rows = Some 6) by (reflexivity).
  split; [split; [exact H1|split; [exact H2|split; [exact H3|exact H4]]]|].
  exact (submit_adds_and_clears quiet_env typing_world demo_rows 6 H1 H2 H3 H4).
Defined.

Lemma press_pending_item_completes_it_witness :
  ((no_io_fault quiet_env) /\
   (items (db shown_world) = Some demo_rows) /\
   (shows demo_rows shown_world) /\
   (In (5, (Item (mkItem 5 false "eggs") (Some (onPressTodoItem quiet_env)))) (pendingTasks (Main quiet_env shown_world)))) /\
  (fst (onPress (Item (mkItem 5 false "eggs") (Some (onPressTodoItem quiet_env))) shown_world) = Resolved tt /\
   items (db (snd (onPress (Item (mkItem 5 false "eggs") (Some (onPressTodoItem quiet_env))) shown_world))) = Some (update_done true 5 demo_rows) /\
   shows (update_done true 5 demo_rows) (snd (onPress (Item (mkItem 5 false "eggs") (Some (onPressTodoItem quiet_env))) shown_world)) /\
   ~ In 5 (keys (pendingTasks (Main quiet_env (snd (onPress (Item (mkItem 5 false "eggs") (Some (onPressTodoItem quiet_env))) shown_world))))) /\
   In 5 (keys (completedTasks (Main quiet_env (snd (onPress (Item (mkItem 5 false "eggs") (Some (onPressTodoItem quiet_env))) shown_world))))) /\
   (forall j, j <> 5 ->
      (In j (keys (pendingTasks (Main quiet_env (snd (onPress (Item (mkItem 5 false "eggs") (Some (onPressTodoItem quiet_env))) shown_world))))) <->
       In j (keys (pendingTasks (Main quiet_env shown_world)))) /\
      (In j (keys (completedTasks (Main quiet_env (snd (onPress (Item (mkItem 5 false "eggs") (Some (onPressTodoItem quiet_env))) shown_world))))) <->
       In j (keys (completedTasks (Main quiet_env shown_world)))))).
Proof.
  assert (H1 : no_io_fault quiet_env) by (intros k; reflexivity).
  assert (H2 : items (db shown_world) = Some demo_rows) by (reflexivity).
  assert (H3 : shows demo_rows shown_world) by (split; reflexivity).
  assert (H4 : In (5, (Item (mkItem 5 false "eggs") (Some (onPressTodoItem quiet_env)))) (pendingTasks (Main quiet_env shown_world))) by (right; left; reflexivity).
  split; [split; [exact H1|split; [exact H2|split; [exact H3|exact H4]]]|].
  exact (press_pending_item_completes_it quiet_env shown_world demo_rows 5 (Item (mkItem 5 false "eggs") (Some (onPressTodoItem quiet_env))) H1 H2 H3 H4).
Defined.

Lemma press_completed_item_deletes_it_witness :
  ((no_io_fault quiet_env) /\
   (items (db shown_world) = Some demo_rows) /\
   (shows demo_rows shown_world) /\
   (In (2, (Item (mkItem 2 true "bread") (Some (onPressDoneItem quiet_env)))) (completedTasks (Main quiet_env shown_world)))) /\
  (fst (onPress (Item (mkItem 2 true "bread") (Some (onPressDoneItem quiet_env))) shown_world) = Resolved tt /\
   items (db (snd (onPress (Item (mkItem 2 true "bread") (Some (onPressDoneItem quiet_env))) shown_world))) = Some (delete_row 2 demo_rows) /\
   shows (delete_row 2 demo_rows) (snd (onPress (Item (mkItem 2 true "bread") (Some (onPressDoneItem quiet_env))) shown_world)) /\
   ~ In 2 (keys (pendingTasks (Main quiet_env (snd (onPress (Item (mkItem 2 true "bread") (Some (onPressDoneItem quiet_env))) shown_world))))) /\
   ~ In 2 (keys (completedTasks (Main quiet_env (snd (onPress (Item (mkItem 2 true "bread") (Some (onPressDoneItem quiet_env))) shown_world))))) /\
   (forall j, j <> 2 ->
      (In j (keys (pendingTasks (Main quiet_env (snd (onPress (Item (mkItem 2 true "bread") (Some (onPressDoneItem quiet_env))) shown_world))))) <->
       In j (keys (pendingTasks (Main quiet_env shown_world)))) /\
      (In j (keys (completedTasks (Main quiet_env (snd (onPress (Item (mkItem 2 true "bread") (Some (onPressDoneItem quiet_env))) shown_world))))) <->
       In j (keys (completedTasks (Main quiet_env shown_world)))))).
Proof.
  assert (H1 : no_io_fault quiet_env) by (intros k; reflexivity).
  assert (H2 : items (db shown_world) = Some demo_rows) by (reflexivity).
  assert (H3 : shows demo_rows shown_world) by (split; reflexivity).
  assert (H4 : In (2, (Item (mkItem 2 true "bread") (Some (onPressDoneItem quiet_env)))) (completedTasks (Main quiet_env shown_world))) by (left; reflexivity).
  split; [split; [exact H1|split; [exact H2|split; [exact H3|exact H4]]]|].
  exact (press_completed_item_deletes_it quiet_env shown_world demo_rows 2 (Item (mkItem 2 true "bread") (Some (onPressDoneItem quiet_env))) H1 H2 H3 H4).
Defined.

Lemma refreshed_sections_partition_the_table_witness :
  ((no_io_fault quiet_env) /\
   (items (db demo_world) = Some demo_rows) /\
   (wf_table demo_rows) /\
   (safe_ids demo_rows)) /\
  (map (fun kv => (fst kv, itemText (snd kv), itemDone (snd kv), itemTextDone (snd kv)))
       (pendingTasks (Main quiet_env (snd (refetchItems quiet_env demo_world)))) =
     map (fun r => (id r, value r, false, false)) (select_by_done false demo_rows) /\
   map (fun kv => (fst kv, itemText (snd kv), itemDone (snd kv), itemTextDone (snd kv)))
       (completedTasks (Main quiet_env (snd (refetchItems quiet_env demo_world)))) =
     map (fun r => (id r, value r, true, true)) (select_by_done true demo_rows) /\
   NoDup (keys (pendingTasks (Main quiet_env (snd (refetchItems quiet_env demo_world)))) ++
          keys (completedTasks (Main quiet_env (snd (refetchItems quiet_env demo_world))))) /\
   Forall (fun k => - MAX_SAFE_INTEGER <= k <= MAX_SAFE_INTEGER)
          (keys (pendingTasks (Main quiet_env (snd (refetchItems quiet_env demo_world)))) ++
           keys (completedTasks (Main quiet_env (snd (refetchItems quiet_env demo_world))))) /\
   (forall r, In r demo_rows ->
      In (id r) (keys (pendingTasks (Main quiet_env (snd (refetchItems quiet_env demo_world)))) ++
                 keys (completedTasks (Main quiet_env (snd (refetchItems quiet_env demo_world))))))).
Proof.
  assert (H1 : no_io_fault quiet_env) by (intros k; reflexivity).
  assert (H2 : items (db demo_world) = Some demo_rows) by (reflexivity).
  assert (H3 : wf_table demo_rows) by (table_ok).
  assert (H4 : safe_ids demo_rows)
    by (repeat constructor; unfold MAX_SAFE_INTEGER; simpl; lia).
  split; [split; [exact H1|split; [exact H2|split; [exact H3|exact H4]]]|].
  exact (refreshed_sections_partition_the_table quiet_env demo_world demo_rows H1 H2 H3 H4).
Defined.

Lemma refresh_second_read_failure_witness :
  ((items (db demo_world) = Some demo_rows) /\
   (io_fault second_read_fails_env (length (trace demo_world) + 2) = false) /\
   (io_fault second_read_fails_env (length (trace demo_world) + 3) = true)) /\
  (fst (refetchItems second_read_fails_env demo_world) = Resolved tt /\
   todoItems (snd (refetchItems second_read_fails_env demo_world)) = select_by_done false demo_rows /\
   doneItems (snd (refetchItems second_read_fails_env demo_world)) = doneItems demo_world /\
   db (snd (refetchItems second_read_fails_env demo_world)) = db demo_world /\
   unhandled (snd (refetchItems second_read_fails_env demo_world)) = unhandled demo_world ++ [IoError] /\
   new_events demo_world (snd (refetchItems second_read_fails_env demo_world)) =
     [EvRefetchItems; EvBegin; EvStmt (SelectByDone false) true;
      EvStmt (SelectByDone true) false; EvRollback]).
Proof.
  assert (H1 : items (db demo_world) = Some demo_rows) by (reflexivity).
  assert (H2 : io_fault second_read_fails_env (length (trace demo_world) + 2) = false) by (reflexivity).
  assert (H3 : io_fault second_read_fails_env (length (trace demo_world) + 3) = true) by (reflexivity).
  split; [split; [exact H1|split; [exact H2|exact H3]]|].
  exact (refresh_second_read_failure second_read_fails_env demo_world demo_rows H1 H2 H3).
Defined.

Lemma no_table_rejects_witness :
  ((no_io_fault quiet_env) /\
   (items (db (fresh_world (mkDb 1 None))) = None)) /\
  ((forall t, t <> EmptyString ->
      addItemAsync quiet_env t (fresh_world (mkDb 1 None)) =
      (Rejected NoSuchTable, log (EvStmt (InsertItem false t) false) (fresh_world (mkDb 1 None)))) /\
   (forall i, updateItemAsDoneAsync quiet_env i (fresh_world (mkDb 1 None)) =
      (Rejected NoSuchTable, log (EvStmt (UpdateDone true i) false) (fresh_world (mkDb 1 None)))) /\
   (forall i, deleteItemAsync quiet_env i (fresh_world (mkDb 1 None)) =
      (Rejected NoSuchTable, log (EvStmt (DeleteItem i) false) (fresh_world (mkDb 1 None)))) /\
   fst (refetchItems quiet_env (fresh_world (mkDb 1 None))) = Resolved tt /\
   todoItems (snd (refetchItems quiet_env (fresh_world (mkDb 1 None)))) = todoItems (fresh_world (mkDb 1 None)) /\
   doneItems (snd (refetchItems quiet_env (fresh_world (mkDb 1 None)))) = doneItems (fresh_world (mkDb 1 None)) /\
   db (snd (refetchItems quiet_env (fresh_world (mkDb 1 None)))) = db (fresh_world (mkDb 1 None)) /\
   unhandled (snd (refetchItems quiet_env (fresh_world (mkDb 1 None)))) = unhandled (fresh_world (mkDb 1 None)) ++ [NoSuchTable]).
Proof.
  assert (H1 : no_io_fault quiet_env) by (intros k; reflexivity).
  assert (H2 : items (db (fresh_world (mkDb 1 None))) = None) by (reflexivity).
  split; [split; [exact H1|exact H2]|].
  exact (no_table_rejects quiet_env (fresh_world (mkDb 1 None)) H1 H2).
Defined.

Lemma handlers_keep_table_invariant_witness :
  (wf_db (db demo_world) /\
   (forall n d d', wf_db d -> remote quiet_env n d = Some d' -> wf_db d')) /\
  ((forall t, wf_db (db (snd (addItemAsync quiet_env t demo_world)))) /\
   (forall i, wf_db (db (snd (updateItemAsDoneAsync quiet_env i demo_world)))) /\
   (forall i, wf_db (db (snd (deleteItemAsync quiet_env i demo_world)))) /\
   wf_db (db (snd (refetchItems quiet_env demo_world))) /\
   wf_db (db (snd (onSubmitEditing quiet_env demo_world))) /\
   (forall i, wf_db (db (snd (onPressTodoItem quiet_env i demo_world)))) /\
   (forall i, wf_db (db (snd (onPressDoneItem quiet_env i demo_world)))) /\
   wf_db (db (snd (migrateDbIfNeeded quiet_env demo_world))) /\
   (forall b, wf_db (db (snd (sync quiet_env b demo_world)))) /\
   (forall n, wf_db (db (snd (repeat_ticks quiet_env n demo_world))))).
Proof.
  assert (H1 : wf_db (db demo_world)) by (apply (wf_tableb_ok demo_rows); reflexivity).
  assert (H2 : forall n d d', wf_db d -> remote quiet_env n d = Some d' -> wf_db d')
    by (intros n d d' Hd E; simpl in E; injection E as <-; exact Hd).
  split; [split; [exact H1|exact H2]|].
  destruct (handlers_keep_table_invariant quiet_env demo_world H1)
    as (A & U & D & R & S & P & Q & K).
  destruct (K H2) as (M & Sy & T).
  auto 12.
Defined.

Lemma add_then_delete_restores_witness :
  ((no_io_fault quiet_env) /\
   ("tea"%string <> EmptyString) /\
   (items (db demo_world) = Some demo_rows) /\
   (new_rowid (rowid_rand quiet_env (length (trace demo_world))) demo_rows = Some 6)) /\
  (db (snd (deleteItemAsync quiet_env 6 (snd (addItemAsync quiet_env "tea"%string demo_world)))) = db demo_world /\
   db (snd (deleteItemAsync quiet_env 6
             (snd (updateItemAsDoneAsync quiet_env 6 (snd (addItemAsync quiet_env "tea"%string demo_world)))))) = db demo_world /\
   id_free 6 (db (snd (deleteItemAsync quiet_env 6 (snd (addItemAsync quiet_env "tea"%string demo_world)))))).
Proof.
  assert (H1 : no_io_fault quiet_env) by (intros k; reflexivity).
  assert (H2 : "tea"%string <> EmptyString) by (discriminate).
  assert (H3 : items (db demo_world) = Some demo_rows) by (reflexivity).
  assert (H4 : new_rowid (rowid_rand quiet_env (length (trace demo_world))) demo_rows = Some 6) by (reflexivity).
  split; [split; [exact H1|split; [exact H2|split; [exact H3|exact H4]]]|].
  exact (add_then_delete_restores quiet_env demo_world demo_rows 6 "tea"%string H1 H2 H3 H4).
Defined.

Lemma presses_commute_witness :
  ((io_fault quiet_env (length (trace demo_world)) = false) /\
   (io_fault quiet_env (S (length (trace demo_world))) = false)) /\
  (db (snd (updateItemAsDoneAsync quiet_env 2 (snd (updateItemAsDoneAsync quiet_env 5 demo_world)))) =
     db (snd (updateItemAsDoneAsync quiet_env 5 (snd (updateItemAsDoneAsync quiet_env 2 demo_world)))) /\
   db (snd (deleteItemAsync quiet_env 2 (snd (deleteItemAsync quiet_env 5 demo_world)))) =
     db (snd (deleteItemAsync quiet_env 5 (snd (deleteItemAsync quiet_env 2 demo_world)))) /\
   db (snd (deleteItemAsync quiet_env 2 (snd (updateItemAsDoneAsync quiet_env 5 demo_world)))) =
     db (snd (updateItemAsDoneAsync quiet_env 5 (snd (deleteItemAsync quiet_env 2 demo_world))))).
Proof.
  assert (H1 : io_fault quiet_env (length (trace demo_world)) = false) by (reflexivity).
  assert (H2 : io_fault quiet_env (S (length (trace demo_world))) = false) by (reflexivity).
  split; [split; [exact H1|exact H2]|].
  exact (presses_commute quiet_env demo_world 5 2 H1 H2).
Defined.

Lemma press_touches_at_most_one_row_witness :
  ((items (db demo_world) = Some demo_rows) /\
   (wf_table demo_rows) /\
   (io_fault quiet_env (length (trace demo_world)) = false)) /\
  (exists rows_d rows_u,
     items (db (snd (deleteItemAsync quiet_env 5 demo_world))) = Some rows_d /\
     items (db (snd (updateItemAsDoneAsync quiet_env 5 demo_world))) = Some rows_u /\
     (count_id 5 demo_rows <= 1)%nat /\
     (length rows_d + count_id 5 demo_rows = length demo_rows)%nat /\
     length rows_u = length demo_rows /\
     (length (select_by_done false rows_u) + count_id 5 (select_by_done false demo_rows) =
        length (select_by_done false demo_rows))%nat /\
     (length (select_by_done true rows_u) =
        length (select_by_done true demo_rows) + count_id 5 (select_by_done false demo_rows))%nat).
Proof.
  assert (H1 : items (db demo_world) = Some demo_rows) by (reflexivity).
  assert (H2 : wf_table demo_rows) by (table_ok).
  assert (H3 : io_fault quiet_env (length (trace demo_world)) = false) by (reflexivity).
  split; [split; [exact H1|split; [exact H2|exact H3]]|].
  exact (press_touches_at_most_one_row quiet_env demo_world demo_rows 5 H1 H2 H3).
Defined.

Lemma submits_are_listed_in_order_witness :
  ((no_io_fault quiet_env) /\
   (Forall (fun t => t <> EmptyString) ["tea"%string; "jam"%string]) /\
   (["tea"%string; "jam"%string] <> []) /\
   (items (db demo_world) = Some demo_rows) /\
   (next_rowid demo_rows + Z.of_nat (length ["tea"%string; "jam"%string]) - 1 <= MAX_ROWID)) /\
  (fst (submit_all quiet_env ["tea"%string; "jam"%string] demo_world) = Resolved tt /\
   items (db (snd (submit_all quiet_env ["tea"%string; "jam"%string] demo_world))) =
     Some (demo_rows ++ fresh_rows (next_rowid demo_rows) ["tea"%string; "jam"%string]) /\
   todoItems (snd (submit_all quiet_env ["tea"%string; "jam"%string] demo_world)) =
     select_by_done false demo_rows ++ fresh_rows (next_rowid demo_rows) ["tea"%string; "jam"%string] /\
   doneItems (snd (submit_all quiet_env ["tea"%string; "jam"%string] demo_world)) = select_by_done true demo_rows /\
   text (snd (submit_all quiet_env ["tea"%string; "jam"%string] demo_world)) = EmptyString).
Proof.
  assert (H1 : no_io_fault quiet_env) by (intros k; reflexivity).
  assert (H2 : Forall (fun t => t <> EmptyString) ["tea"%string; "jam"%string]) by (repeat constructor; discriminate).
  assert (H3 : ["tea"%string; "jam"%string] <> []) by (discriminate).
  assert (H4 : items (db demo_world) = Some demo_rows) by (reflexivity).
  assert (H5 : next_rowid demo_rows + Z.of_nat (length ["tea"%string; "jam"%string]) - 1 <= MAX_ROWID) by (vm_compute; discriminate).
  split; [split; [exact H1|split; [exact H2|split; [exact H3|split; [exact H4|exact H5]]]]|].
  exact (submits_are_listed_in_order quiet_env ["tea"%string; "jam"%string] demo_world demo_rows H1 H2 H3 H4 H5).
Defined.

Lemma switching_on_restarts_the_interval_witness :
  ((0 <= 1999 < POLL_MS)) /\
  (enablePollingSync
     (snd (setEnablePollingSync true (snd (setEnablePollingSync false demo_world)))) = true /\
   interval
     (snd (setEnablePollingSync true (snd (setEnablePollingSync false demo_world)))) = Some 0 /\
   elapse offline_env 1999 (snd (setEnablePollingSync true (snd (setEnablePollingSync false demo_world)))) =
     set_interval (Some 1999)
       (snd (setEnablePollingSync true (snd (setEnablePollingSync false demo_world))))).
Proof.
  assert (H1 : 0 <= 1999 < POLL_MS) by (unfold POLL_MS; lia).
  split; [exact H1|].
  exact (switching_on_restarts_the_interval offline_env demo_world 1999 H1).
Defined.

Lemma sync_now_refreshes_the_lists_witness :
  (no_io_fault offline_env /\
   sync_brings_nothing offline_env demo_world /\
   items (db demo_world) = Some demo_rows) /\
  (tick offline_env = syncButton (Main offline_env demo_world) /\
   fst (syncButton (Main offline_env demo_world) demo_world) = Resolved tt /\
   db (snd (syncButton (Main offline_env demo_world) demo_world)) = db demo_world /\
   shows demo_rows (snd (syncButton (Main offline_env demo_world) demo_world)) /\
   unhandled (snd (syncButton (Main offline_env demo_world) demo_world)) =
     match remote offline_env (length (trace demo_world)) (db demo_world) with
     | Some _ => unhandled demo_world
     | None => unhandled demo_world ++ [SyncFailed]
     end).
Proof.
  assert (H1 : no_io_fault offline_env) by (intros k; reflexivity).
  assert (H2 : sync_brings_nothing offline_env demo_world) by (left; reflexivity).
  assert (H3 : items (db demo_world) = Some demo_rows) by (reflexivity).
  split; [split; [exact H1|split; [exact H2|exact H3]]|].
  exact (sync_now_refreshes_the_lists offline_env demo_world demo_rows H1 H2 H3).
Defined.

Lemma offline_ticks_drop_one_rejection_each_witness :
  ((no_io_fault offline_env) /\
   ((forall k d, remote offline_env k d = None)) /\
   (items (db demo_world) = Some demo_rows)) /\
  (unhandled (snd (repeat_ticks offline_env 2%nat demo_world)) = unhandled demo_world ++ repeat SyncFailed 2%nat /\
   items (db (snd (repeat_ticks offline_env 2%nat demo_world))) = Some demo_rows).
Proof.
  assert (H1 : no_io_fault offline_env) by (intros k; reflexivity).
  assert (H2 : (forall k d, remote offline_env k d = None)) by (intros k d; reflexivity).
  assert (H3 : items (db demo_world) = Some demo_rows) by (reflexivity).
  split; [split; [exact H1|split; [exact H2|exact H3]]|].
  exact (offline_ticks_drop_one_rejection_each offline_env 2%nat demo_world demo_rows H1 H2 H3).
Defined.

Lemma App_mounts_Main_after_migration_witness :
  (fst (migrateDbIfNeeded quiet_env (fresh_world (mkDb 0 None))) = Resolved tt /\
   no_io_fault quiet_env /\
   sync_brings_nothing quiet_env (fresh_world (mkDb 0 None))) /\
  fst (App quiet_env (fresh_world (mkDb 0 None))) = Resolved tt /\
  db (snd (App quiet_env (fresh_world (mkDb 0 None)))) =
    db (snd (migrateDbIfNeeded quiet_env (fresh_world (mkDb 0 None)))) /\
  (exists first second,
     new_events (fresh_world (mkDb 0 None)) (snd (App quiet_env (fresh_world (mkDb 0 None)))) =
       new_events (fresh_world (mkDb 0 None))
         (snd (migrateDbIfNeeded quiet_env (fresh_world (mkDb 0 None)))) ++
       EvRefetchItems :: refresh_events first second) /\
  user_version (db (snd (App quiet_env (fresh_world (mkDb 0 None))))) >= DATABASE_VERSION /\
  (forall rows,
     items (db (snd (App quiet_env (fresh_world (mkDb 0 None))))) = Some rows ->
     shows rows (snd (App quiet_env (fresh_world (mkDb 0 None))))) /\
  (exists rows, items (db (snd (App quiet_env (fresh_world (mkDb 0 None))))) = Some rows).
Proof.
  assert (H1 : fst (migrateDbIfNeeded quiet_env (fresh_world (mkDb 0 None))) = Resolved tt)
    by reflexivity.
  assert (H2 : no_io_fault quiet_env) by (intros k; reflexivity).
  assert (H3 : sync_brings_nothing quiet_env (fresh_world (mkDb 0 None)))
    by (right; reflexivity).
  split; [split; [exact H1|split; [exact H2|exact H3]]|].
  destruct (App_mounts_Main_after_migration quiet_env (fresh_world (mkDb 0 None)) H1)
    as (R & D & Ev & K).
  destruct (K H2 H3) as (V & S & T).
  split; [exact R|]. split; [exact D|]. split; [exact Ev|].
  split; [exact V|]. split; [exact S|exact (T eq_refl)].
Defined.

Lemma migrate_stops_at_first_failure_witness :
  new_events (fresh_world (mkDb 0 None))
    (snd (migrateDbIfNeeded create_fails_env (fresh_world (mkDb 0 None)))) =
    [EvSyncLibSQL true; EvStmt PragmaUserVersion true] ++
    EvStmt CreateTableItems false :: [] /\
  (@nil Event = [] /\
   fst (migrateDbIfNeeded create_fails_env (fresh_world (mkDb 0 None))) = Rejected IoError /\
   io_fault create_fails_env
     (length (trace (fresh_world (mkDb 0 None))) +
      length [EvSyncLibSQL true; EvStmt PragmaUserVersion true]) = true /\
   (exists ok, hd_error [EvSyncLibSQL true; EvStmt PragmaUserVersion true] =
               Some (EvSyncLibSQL ok)) /\
   (forall s' ok, In (EvStmt s' ok) [EvSyncLibSQL true; EvStmt PragmaUserVersion true] ->
                  ok = true)).
Proof.
  assert (H1 : new_events (fresh_world (mkDb 0 None))
    (snd (migrateDbIfNeeded create_fails_env (fresh_world (mkDb 0 None)))) =
    [EvSyncLibSQL true; EvStmt PragmaUserVersion true] ++
    EvStmt CreateTableItems false :: []) by reflexivity.
  split; [exact H1|].
  exact (migrate_stops_at_first_failure create_fails_env (fresh_world (mkDb 0 None))
           [EvSyncLibSQL true; EvStmt PragmaUserVersion true] CreateTableItems [] H1).
Defined.
